(** * MCard: content-addressed card store

    A shallow embedding of the ingestion pipeline of [mcard_js]
    ([src/core/mcard.js], [src/core/card-collection.js],
    [src/utils/bufferPolyfill.js], [src/content/model/content_type_detector.js])
    and the properties its specification states about it.

    Layout: the platform (bytes, digests, JavaScript text and JSON), then the
    program (cards, content-type detection, pages, engine, collection), then
    the lemmas and the theorems. *)

From Stdlib Require Import ZArith Bool Lia.
From Stdlib.Strings Require Import String Ascii Byte.
From Stdlib Require Import List.
Import ListNotations.

Set Implicit Arguments.
Set Warnings "-register-all".


(* ================================================================== *)
(** * Part I: the platform *)
(* ================================================================== *)

(** ** Buffers

    A Node [Buffer] (a [Uint8Array]) is a list of bytes. *)

Definition Buffer := list byte.

Definition byte_val (b : byte) : Z := Z.of_N (Byte.to_N b).

Definition byte_of_Z (z : Z) : byte :=
  match Byte.of_N (Z.to_N (z mod 256)) with
  | Some b => b
  | None => x00
  end.

(** The characters of a byte string ([String.string]) as a buffer. *)
Definition bytes_of_string (s : string) : Buffer := list_byte_of_string s.

(** ** Digests: [createHash(algorithm).update(data).digest('hex')]

    The digest functions of the platform's [crypto] module, written out after
    RFC 1321 (MD5), FIPS 180-4 (SHA-1, SHA-224, SHA-256, SHA-384, SHA-512). *)

Module Crypto.
Local Open Scope Z_scope.

Definition wrap (w x : Z) : Z := x mod 2 ^ w.
Definition rotr (w n x : Z) : Z :=
  Z.lor (Z.shiftr x n) (wrap w (Z.shiftl x (w - n))).
Definition rotl (w n x : Z) : Z := rotr w (w - n) x.
Definition wnot (w x : Z) : Z := 2 ^ w - 1 - x.

Definition ch (w x y z : Z) : Z := Z.lxor (Z.land x y) (Z.land (wnot w x) z).
Definition maj (x y z : Z) : Z :=
  Z.lxor (Z.lxor (Z.land x y) (Z.land x z)) (Z.land y z).
Definition parity (x y z : Z) : Z := Z.lxor (Z.lxor x y) z.

(** Big- and little-endian words. *)
Definition be_word (bs : list Z) : Z := fold_left (fun acc b => acc * 256 + b) bs 0.
Definition le_word (bs : list Z) : Z := be_word (rev bs).
Definition le_bytes (n : nat) (x : Z) : list Z :=
  map (fun i => (x / 256 ^ Z.of_nat i) mod 256) (seq 0 n).
Definition be_bytes (n : nat) (x : Z) : list Z := rev (le_bytes n x).

Fixpoint chunks_aux {A} (fuel n : nat) (l : list A) : list (list A) :=
  match fuel with
  | O => []
  | S fuel' =>
      match l with
      | [] => []
      | _ => firstn n l :: chunks_aux fuel' n (skipn n l)
      end
  end.
Definition chunks {A} (n : nat) (l : list A) : list (list A) :=
  chunks_aux (length l) n l.

(** Merkle-Damgard padding: a [0x80] byte, zeros, then the bit length in
    [lenbytes] bytes, to a multiple of [block] bytes. *)
Definition pad (block lenbytes : nat) (enc : nat -> Z -> list Z) (msg : list Z)
  : list Z :=
  let len := length msg in
  let used := ((len + 1 + lenbytes) mod block)%nat in
  let zeros := ((block - used) mod block)%nat in
  msg ++ [128] ++ repeat 0 zeros ++ enc lenbytes (8 * Z.of_nat len).

(** *** MD5 *)

Definition md5_K : list Z :=
  [ 3614090360; 3905402710; 606105819; 3250441966; 4118548399; 1200080426;
    2821735955; 4249261313; 1770035416; 2336552879; 4294925233; 2304563134;
    1804603682; 4254626195; 2792965006; 1236535329; 4129170786; 3225465664;
    643717713; 3921069994; 3593408605; 38016083; 3634488961; 3889429448;
    568446438; 3275163606; 4107603335; 1163531501; 2850285829; 4243563512;
    1735328473; 2368359562; 4294588738; 2272392833; 1839030562; 4259657740;
    2763975236; 1272893353; 4139469664; 3200236656; 681279174; 3936430074;
    3572445317; 76029189; 3654602809; 3873151461; 530742520; 3299628645;
    4096336452; 1126891415; 2878612391; 4237533241; 1700485571; 2399980690;
    4293915773; 2240044497; 1873313359; 4264355552; 2734768916; 1309151649;
    4149444226; 3174756917; 718787259; 3951481745 ].

Definition md5_shift (i : Z) : Z :=
  let r := i mod 4 in
  if i <? 16 then nth (Z.to_nat r) [7; 12; 17; 22] 0
  else if i <? 32 then nth (Z.to_nat r) [5; 9; 14; 20] 0
  else if i <? 48 then nth (Z.to_nat r) [4; 11; 16; 23] 0
  else nth (Z.to_nat r) [6; 10; 15; 21] 0.

Definition md5_step (m : list Z) (st : Z * Z * Z * Z) (i : nat) : Z * Z * Z * Z :=
  let '(a, b, c, d) := st in
  let iz := Z.of_nat i in
  let '(f, g) :=
    if iz <? 16 then (Z.lor (Z.land b c) (Z.land (wnot 32 b) d), iz)
    else if iz <? 32 then
      (Z.lor (Z.land d b) (Z.land (wnot 32 d) c), (5 * iz + 1) mod 16)
    else if iz <? 48 then (parity b c d, (3 * iz + 5) mod 16)
    else (Z.lxor c (Z.lor b (wnot 32 d)), (7 * iz) mod 16) in
  let f' := wrap 32 (f + a + nth i md5_K 0 + nth (Z.to_nat g) m 0) in
  (d, wrap 32 (b + rotl 32 (md5_shift iz) f'), b, c).

Definition md5_block (st : Z * Z * Z * Z) (blk : list Z) : Z * Z * Z * Z :=
  let m := map le_word (chunks 4 blk) in
  let '(a, b, c, d) := st in
  let '(a', b', c', d') := fold_left (md5_step m) (seq 0 64) st in
  (wrap 32 (a + a'), wrap 32 (b + b'), wrap 32 (c + c'), wrap 32 (d + d')).

Definition md5 (msg : list Z) : list Z :=
  let '(a, b, c, d) :=
    fold_left md5_block (chunks 64 (pad 64 8 le_bytes msg))
      (1732584193, 4023233417, 2562383102, 271733878) in
  le_bytes 4 a ++ le_bytes 4 b ++ le_bytes 4 c ++ le_bytes 4 d.

(** *** SHA-1 *)

Fixpoint sha1_extend (n : nat) (acc : list Z) : list Z :=
  match n with
  | O => acc
  | S n' =>
      let x := Z.lxor (Z.lxor (nth 2 acc 0) (nth 7 acc 0))
                      (Z.lxor (nth 13 acc 0) (nth 15 acc 0)) in
      sha1_extend n' (rotl 32 1 x :: acc)
  end.

Definition sha1_step (st : Z * Z * Z * Z * Z) (tw : nat * Z)
  : Z * Z * Z * Z * Z :=
  let '(a, b, c, d, e) := st in
  let '(t, w) := tw in
  let '(f, k) :=
    if (t <? 20)%nat then (ch 32 b c d, 1518500249)
    else if (t <? 40)%nat then (parity b c d, 1859775393)
    else if (t <? 60)%nat then (maj b c d, 2400959708)
    else (parity b c d, 3395469782) in
  (wrap 32 (rotl 32 5 a + f + e + k + w), a, rotl 32 30 b, c, d).

Definition sha1_block (st : Z * Z * Z * Z * Z) (blk : list Z)
  : Z * Z * Z * Z * Z :=
  let ws := rev (sha1_extend 64 (rev (map be_word (chunks 4 blk)))) in
  let '(a, b, c, d, e) := st in
  let '(a', b', c', d', e') := fold_left sha1_step (combine (seq 0 80) ws) st in
  (wrap 32 (a + a'), wrap 32 (b + b'), wrap 32 (c + c'), wrap 32 (d + d'),
   wrap 32 (e + e')).

Definition sha1 (msg : list Z) : list Z :=
  let '(a, b, c, d, e) :=
    fold_left sha1_block (chunks 64 (pad 64 8 be_bytes msg))
      (1732584193, 4023233417, 2562383102, 271733878, 3285377520) in
  be_bytes 4 a ++ be_bytes 4 b ++ be_bytes 4 c ++ be_bytes 4 d ++ be_bytes 4 e.

(** *** The SHA-2 family, over words of [w] bits *)

Record sha2_family := {
  wbits : Z;
  wbytes : nat;
  round_K : list Z;
  big_sigma0 : Z * Z * Z;
  big_sigma1 : Z * Z * Z;
  small_sigma0 : Z * Z * Z;
  small_sigma1 : Z * Z * Z
}.

Definition sha2_words := (Z * Z * Z * Z * Z * Z * Z * Z)%type.

Section SHA2.
Variable F : sha2_family.
Let w := wbits F.

Definition Sigma (r : Z * Z * Z) (x : Z) : Z :=
  let '(p, q, s) := r in
  Z.lxor (Z.lxor (rotr w p x) (rotr w q x)) (rotr w s x).
Definition sigma (r : Z * Z * Z) (x : Z) : Z :=
  let '(p, q, s) := r in
  Z.lxor (Z.lxor (rotr w p x) (rotr w q x)) (Z.shiftr x s).

Fixpoint sha2_extend (n : nat) (acc : list Z) : list Z :=
  match n with
  | O => acc
  | S n' =>
      let x := wrap w (sigma (small_sigma1 F) (nth 1 acc 0) + nth 6 acc 0
                       + sigma (small_sigma0 F) (nth 14 acc 0) + nth 15 acc 0) in
      sha2_extend n' (x :: acc)
  end.

Definition sha2_step (st : sha2_words) (kw : Z * Z) : sha2_words :=
  let '(a, b, c, d, e, f, g, h) := st in
  let '(k, x) := kw in
  let t1 := h + Sigma (big_sigma1 F) e + ch w e f g + k + x in
  let t2 := Sigma (big_sigma0 F) a + maj a b c in
  (wrap w (t1 + t2), a, b, c, wrap w (d + t1), e, f, g).

Definition sha2_block (st : sha2_words) (blk : list Z) : sha2_words :=
  let ws := rev (sha2_extend (length (round_K F) - 16)
                   (rev (map be_word (chunks (wbytes F) blk)))) in
  let '(a, b, c, d, e, f, g, h) := st in
  let '(a', b', c', d', e', f', g', h') :=
    fold_left sha2_step (combine (round_K F) ws) st in
  (wrap w (a + a'), wrap w (b + b'), wrap w (c + c'), wrap w (d + d'),
   wrap w (e + e'), wrap w (f + f'), wrap w (g + g'), wrap w (h + h')).

Definition sha2 (iv : sha2_words) (msg : list Z) : sha2_words :=
  fold_left sha2_block
    (chunks (16 * wbytes F) (pad (16 * wbytes F) (2 * wbytes F) be_bytes msg)) iv.
End SHA2.

Definition K256 : list Z :=
  [ 1116352408; 1899447441; 3049323471; 3921009573; 961987163; 1508970993;
    2453635748; 2870763221; 3624381080; 310598401; 607225278; 1426881987;
    1925078388; 2162078206; 2614888103; 3248222580; 3835390401; 4022224774;
    264347078; 604807628; 770255983; 1249150122; 1555081692; 1996064986;
    2554220882; 2821834349; 2952996808; 3210313671; 3336571891; 3584528711;
    113926993; 338241895; 666307205; 773529912; 1294757372; 1396182291;
    1695183700; 1986661051; 2177026350; 2456956037; 2730485921; 2820302411;
    3259730800; 3345764771; 3516065817; 3600352804; 4094571909; 275423344;
    430227734; 506948616; 659060556; 883997877; 958139571; 1322822218;
    1537002063; 1747873779; 1955562222; 2024104815; 2227730452; 2361852424;
    2428436474; 2756734187; 3204031479; 3329325298 ].

Definition K512 : list Z :=
  [ 4794697086780616226; 8158064640168781261; 13096744586834688815;
    16840607885511220156; 4131703408338449720; 6480981068601479193;
    10538285296894168987; 12329834152419229976; 15566598209576043074;
    1334009975649890238; 2608012711638119052; 6128411473006802146;
    8268148722764581231; 9286055187155687089; 11230858885718282805;
    13951009754708518548; 16472876342353939154; 17275323862435702243;
    1135362057144423861; 2597628984639134821; 3308224258029322869;
    5365058923640841347; 6679025012923562964; 8573033837759648693;
    10970295158949994411; 12119686244451234320; 12683024718118986047;
    13788192230050041572; 14330467153632333762; 15395433587784984357;
    489312712824947311; 1452737877330783856; 2861767655752347644;
    3322285676063803686; 5560940570517711597; 5996557281743188959;
    7280758554555802590; 8532644243296465576; 9350256976987008742;
    10552545826968843579; 11727347734174303076; 12113106623233404929;
    14000437183269869457; 14369950271660146224; 15101387698204529176;
    15463397548674623760; 17586052441742319658; 1182934255886127544;
    1847814050463011016; 2177327727835720531; 2830643537854262169;
    3796741975233480872; 4115178125766777443; 5681478168544905931;
    6601373596472566643; 7507060721942968483; 8399075790359081724;
    8693463985226723168; 9568029438360202098; 10144078919501101548;
    10430055236837252648; 11840083180663258601; 13761210420658862357;
    14299343276471374635; 14566680578165727644; 15097957966210449927;
    16922976911328602910; 17689382322260857208; 500013540394364858;
    748580250866718886; 1242879168328830382; 1977374033974150939;
    2944078676154940804; 3659926193048069267; 4368137639120453308;
    4836135668995329356; 5532061633213252278; 6448918945643986474;
    6902733635092675308; 7801388544844847127 ].

Definition SHA256_family : sha2_family :=
  {| wbits := 32; wbytes := 4; round_K := K256;
     big_sigma0 := (2, 13, 22); big_sigma1 := (6, 11, 25);
     small_sigma0 := (7, 18, 3); small_sigma1 := (17, 19, 10) |}.

Definition SHA512_family : sha2_family :=
  {| wbits := 64; wbytes := 8; round_K := K512;
     big_sigma0 := (28, 34, 39); big_sigma1 := (14, 18, 41);
     small_sigma0 := (1, 8, 7); small_sigma1 := (19, 61, 6) |}.

Definition sha256 (msg : list Z) : list Z :=
  let '(a, b, c, d, e, f, g, h) :=
    sha2 SHA256_family
      (1779033703, 3144134277, 1013904242, 2773480762,
       1359893119, 2600822924, 528734635, 1541459225) msg in
  be_bytes 4 a ++ be_bytes 4 b ++ be_bytes 4 c ++ be_bytes 4 d ++
  be_bytes 4 e ++ be_bytes 4 f ++ be_bytes 4 g ++ be_bytes 4 h.

Definition sha224 (msg : list Z) : list Z :=
  let '(a, b, c, d, e, f, g, _) :=
    sha2 SHA256_family
      (3238371032, 914150663, 812702999, 4144912697,
       4290775857, 1750603025, 1694076839, 3204075428) msg in
  be_bytes 4 a ++ be_bytes 4 b ++ be_bytes 4 c ++ be_bytes 4 d ++
  be_bytes 4 e ++ be_bytes 4 f ++ be_bytes 4 g.

Definition sha512 (msg : list Z) : list Z :=
  let '(a, b, c, d, e, f, g, h) :=
    sha2 SHA512_family
      (7640891576956012808, 13503953896175478587,
       4354685564936845355, 11912009170470909681,
       5840696475078001361, 11170449401992604703,
       2270897969802886507, 6620516959819538809) msg in
  be_bytes 8 a ++ be_bytes 8 b ++ be_bytes 8 c ++ be_bytes 8 d ++
  be_bytes 8 e ++ be_bytes 8 f ++ be_bytes 8 g ++ be_bytes 8 h.

Definition sha384 (msg : list Z) : list Z :=
  let '(a, b, c, d, e, f, _, _) :=
    sha2 SHA512_family
      (14680500436340154072, 7105036623409894663,
       10473403895298186519, 1526699215303891257,
       7436329637833083697, 10282925794625328401,
       15784041429090275239, 5167115440072839076) msg in
  be_bytes 8 a ++ be_bytes 8 b ++ be_bytes 8 c ++ be_bytes 8 d ++
  be_bytes 8 e ++ be_bytes 8 f.

(** Lowercase hexadecimal, two digits a byte: [digest('hex')]. *)
Definition hex_digit (n : Z) : ascii :=
  nth (Z.to_nat n)
    ["0"; "1"; "2"; "3"; "4"; "5"; "6"; "7"; "8"; "9"; "a"; "b"; "c"; "d"; "e"; "f"]%char
    "0"%char.

Fixpoint hex (bs : list Z) : string :=
  match bs with
  | [] => EmptyString
  | b :: bs' => String (hex_digit (b / 16)) (String (hex_digit (b mod 16)) (hex bs'))
  end.

End Crypto.

(** ** JavaScript text

    A JavaScript string is a sequence of UTF-16 code units.  Identifiers that
    the program only compares and concatenates (hashes, algorithm names, time
    stamps, messages) are kept as [string]; [js] injects them character by
    character. *)

Definition jsstring := list Z.

Definition js (s : string) : jsstring :=
  map (fun a => Z.of_N (N_of_ascii a)) (list_ascii_of_string s).

Local Open Scope Z_scope.

Definition is_high_surrogate (u : Z) : bool := (55296 <=? u) && (u <=? 56319).
Definition is_low_surrogate (u : Z) : bool := (56320 <=? u) && (u <=? 57343).

Definition utf8_replacement : list Z := [239; 191; 189].

Definition utf8_code_point (cp : Z) : list Z :=
  if cp <? 128 then [cp]
  else if cp <? 2048 then [192 + cp / 64; 128 + cp mod 64]
  else if cp <? 65536 then
    [224 + cp / 4096; 128 + (cp / 64) mod 64; 128 + cp mod 64]
  else
    [240 + cp / 262144; 128 + (cp / 4096) mod 64; 128 + (cp / 64) mod 64;
     128 + cp mod 64].

(** [Buffer.from(text, 'utf-8')] / [TextEncoder.encode]: surrogate pairs are
    one code point, a lone surrogate becomes U+FFFD. *)
Fixpoint utf8_units (s : jsstring) : list Z :=
  match s with
  | [] => []
  | u :: rest =>
      if is_high_surrogate u then
        match rest with
        | v :: rest' =>
            if is_low_surrogate v then
              utf8_code_point (65536 + (u - 55296) * 1024 + (v - 56320))
                ++ utf8_units rest'
            else utf8_replacement ++ utf8_units rest
        | [] => utf8_replacement
        end
      else if is_low_surrogate u then utf8_replacement ++ utf8_units rest
      else utf8_code_point u ++ utf8_units rest
  end.

Definition utf8_encode (s : jsstring) : Buffer := map byte_of_Z (utf8_units s).

(** [new TextDecoder('utf-8').decode(bytes)]: the UTF-8 decoder of the
    Encoding Standard, errors replaced by U+FFFD.  Inside a sequence the
    decoder holds the code point read so far, the number of bytes it still
    needs and the bounds of the next byte. *)
Record utf8_pending : Type := MkPending {
  pending_code_point : Z;
  pending_needed : nat;
  pending_lower : Z;
  pending_upper : Z
}.

Definition replacement_character : Z := 65533.

(** A code point as UTF-16 code units. *)
Definition utf16_units (cp : Z) : jsstring :=
  if cp <? 65536 then [cp]
  else [55296 + (cp - 65536) / 1024; 56320 + (cp - 65536) mod 1024].

(** A byte met outside a sequence: what it emits and the sequence it opens. *)
Definition utf8_lead (b : Z) : jsstring * option utf8_pending :=
  if b <=? 127 then ([b], None)
  else if (194 <=? b) && (b <=? 223) then
    ([], Some (MkPending (Z.land b 31) 1 128 191))
  else if (224 <=? b) && (b <=? 239) then
    ([], Some (MkPending (Z.land b 15) 2
                 (if b =? 224 then 160 else 128)
                 (if b =? 237 then 159 else 191)))
  else if (240 <=? b) && (b <=? 244) then
    ([], Some (MkPending (Z.land b 7) 3
                 (if b =? 240 then 144 else 128)
                 (if b =? 244 then 143 else 191)))
  else ([replacement_character], None).

(** A byte out of bounds inside a sequence ends the sequence with an error
    and is read again as the first byte of the next one; the end of the
    input inside a sequence is an error. *)
Fixpoint utf8_decode_from (st : option utf8_pending) (bytes : list Z) : jsstring :=
  match bytes with
  | [] =>
      match st with
      | None => []
      | Some _ => [replacement_character]
      end
  | b :: rest =>
      match st with
      | None => fst (utf8_lead b) ++ utf8_decode_from (snd (utf8_lead b)) rest
      | Some p =>
          if (pending_lower p <=? b) && (b <=? pending_upper p) then
            let cp := Z.lor (Z.shiftl (pending_code_point p) 6) (Z.land b 63) in
            match pending_needed p with
            | S (S n) => utf8_decode_from (Some (MkPending cp (S n) 128 191)) rest
            | _ => utf16_units cp ++ utf8_decode_from None rest
            end
          else
            replacement_character ::
            fst (utf8_lead b) ++ utf8_decode_from (snd (utf8_lead b)) rest
      end
  end.

(** The decoder drops one byte order mark at the start ([ignoreBOM] is
    false by default). *)
Definition strip_bom (bytes : list Z) : list Z :=
  match bytes with
  | a :: b :: c :: rest =>
      if (a =? 239) && (b =? 187) && (c =? 191) then rest else bytes
  | _ => bytes
  end.

Definition TextDecoder_decode (bytes : Buffer) : jsstring :=
  utf8_decode_from None (strip_bom (map byte_val bytes)).

(** [String.prototype.isWellFormed] and [String.prototype.toWellFormed]: no
    surrogate without its partner; each lone surrogate replaced by U+FFFD. *)
Fixpoint isWellFormed (s : jsstring) : bool :=
  match s with
  | [] => true
  | u :: rest =>
      if is_high_surrogate u then
        match rest with
        | v :: rest' =>
            if is_low_surrogate v then isWellFormed rest' else false
        | [] => false
        end
      else if is_low_surrogate u then false
      else isWellFormed rest
  end.

Fixpoint toWellFormed (s : jsstring) : jsstring :=
  match s with
  | [] => []
  | u :: rest =>
      if is_high_surrogate u then
        match rest with
        | v :: rest' =>
            if is_low_surrogate v then u :: v :: toWellFormed rest'
            else replacement_character :: toWellFormed rest
        | [] => [replacement_character]
        end
      else if is_low_surrogate u then replacement_character :: toWellFormed rest
      else u :: toWellFormed rest
  end.

(** [String.prototype.includes(needle)] *)
Fixpoint units_prefix (p s : jsstring) : bool :=
  match p with
  | [] => true
  | a :: p' =>
      match s with
      | [] => false
      | b :: s' => (a =? b) && units_prefix p' s'
      end
  end.

Fixpoint String_includes (s needle : jsstring) : bool :=
  units_prefix needle s ||
  match s with
  | [] => false
  | _ :: s' => String_includes s' needle
  end.

(** [Array.prototype.slice(start, end)]: a negative index counts from the
    end, and both are clamped to the array. *)
Definition Array_slice {A} (l : list A) (start_idx end_idx : Z) : list A :=
  let len := Z.of_nat (length l) in
  let k := if start_idx <? 0 then Z.max (len + start_idx) 0 else Z.min start_idx len in
  let final := if end_idx <? 0 then Z.max (len + end_idx) 0 else Z.min end_idx len in
  firstn (Z.to_nat (final - k)) (skipn (Z.to_nat k) l).

(** [String.prototype.toLowerCase] on the ASCII letters (no other character
    of a [string] maps to an ASCII one). *)
Definition ascii_toLowerCase (a : ascii) : ascii :=
  let n := N_of_ascii a in
  if ((65 <=? n) && (n <=? 90))%N then ascii_of_N (n + 32) else a.

Fixpoint toLowerCase (s : string) : string :=
  match s with
  | EmptyString => EmptyString
  | String a s' => String (ascii_toLowerCase a) (toLowerCase s')
  end.

(** ** JSON

    The values [JSON.stringify] is applied to.  Numbers are the integers
    below 2^53 in magnitude (printed in decimal); property lists are in
    property-enumeration order. *)

Inductive JSON : Type :=
| JNull
| JBool (b : bool)
| JNumber (z : Z)
| JString (s : jsstring)
| JArray (items : list JSON)
| JObject (props : list (jsstring * JSON)).

Definition hex4 (u : Z) : jsstring :=
  js (String (Crypto.hex_digit ((u / 4096) mod 16))
     (String (Crypto.hex_digit ((u / 256) mod 16))
     (String (Crypto.hex_digit ((u / 16) mod 16))
     (String (Crypto.hex_digit (u mod 16)) EmptyString)))).

Definition json_unicode_escape (u : Z) : jsstring := js "\u" ++ hex4 u.

(** QuoteJSONString of ECMA-262. *)
Fixpoint json_quote_units (s : jsstring) : jsstring :=
  match s with
  | [] => []
  | u :: rest =>
      if u =? 8 then js "\b" ++ json_quote_units rest
      else if u =? 9 then js "\t" ++ json_quote_units rest
      else if u =? 10 then js "\n" ++ json_quote_units rest
      else if u =? 12 then js "\f" ++ json_quote_units rest
      else if u =? 13 then js "\r" ++ json_quote_units rest
      else if u =? 34 then [92; 34] ++ json_quote_units rest
      else if u =? 92 then [92; 92] ++ json_quote_units rest
      else if u <? 32 then json_unicode_escape u ++ json_quote_units rest
      else if is_high_surrogate u then
        match rest with
        | v :: rest' =>
            if is_low_surrogate v then u :: v :: json_quote_units rest'
            else json_unicode_escape u ++ json_quote_units rest
        | [] => json_unicode_escape u
        end
      else if is_low_surrogate u then json_unicode_escape u ++ json_quote_units rest
      else u :: json_quote_units rest
  end.

Definition json_quote (s : jsstring) : jsstring :=
  [34] ++ json_quote_units s ++ [34].

Fixpoint decimal_digits (fuel : nat) (n : Z) (acc : jsstring) : jsstring :=
  match fuel with
  | O => acc
  | S fuel' =>
      let acc' := (48 + n mod 10) :: acc in
      if n <? 10 then acc' else decimal_digits fuel' (n / 10) acc'
  end.

Definition json_number (z : Z) : jsstring :=
  if z <? 0 then 45 :: decimal_digits (Z.to_nat (Z.log2 (- z)) + 1) (- z) []
  else decimal_digits (Z.to_nat (Z.log2 z) + 1) z [].

Definition join_comma (parts : list jsstring) : jsstring :=
  match parts with
  | [] => []
  | p :: ps => p ++ flat_map (fun q => 44 :: q) ps
  end.

(** [JSON.stringify(value)] without indentation. *)
Fixpoint JSON_stringify (v : JSON) : jsstring :=
  match v with
  | JNull => js "null"
  | JBool true => js "true"
  | JBool false => js "false"
  | JNumber z => json_number z
  | JString s => json_quote s
  | JArray items => [91] ++ join_comma (map JSON_stringify items) ++ [93]
  | JObject props =>
      [123] ++
      join_comma (map (fun kv => json_quote (fst kv) ++ [58] ++ JSON_stringify (snd kv))
                      props)
      ++ [125]
  end.

(** ** Results and effects

    A call either returns or throws; [throw new Error(msg)] carries the error
    kind the specification files the message under (section 7) and the
    message.  The world a call runs in holds the engine's state, the wall
    clock (its readings, in the order they are taken) and the stamper's
    region tag; an exception keeps the effects made before it. *)

Inductive ErrorKind : Type :=
| InvalidContent
| EmptyContent
| UnknownAlgorithm
| InvalidArgument
| HashConflict
| PageOutOfRange
| NoStrongerAlgorithm
| UpgradeFailed
| EngineFailure.

Record Error : Type := MkError { kind : ErrorKind; message : string }.

Inductive Outcome (A : Type) : Type :=
| Returned (a : A)
| Thrown (e : Error).
Arguments Returned {A} a.
Arguments Thrown {A} e.

Record World (St : Type) : Type := MkWorld {
  store : St;
  wall_clock : nat -> string;
  reads : nat;
  region : string
}.

Definition M (St A : Type) : Type := World St -> Outcome A * World St.

Definition ret {St A} (a : A) : M St A := fun w => (Returned a, w).

Definition throw {St A} (k : ErrorKind) (msg : string) : M St A :=
  fun w => (Thrown (MkError k msg), w).

Definition bind {St A B} (m : M St A) (f : A -> M St B) : M St B :=
  fun w =>
    match m w with
    | (Returned a, w') => f a w'
    | (Thrown e, w') => (Thrown e, w')
    end.

(** [try { m } catch (e) { handler e }] *)
Definition try_catch {St A} (m : M St A) (handler : Error -> M St A) : M St A :=
  fun w =>
    match m w with
    | (Returned a, w') => (Returned a, w')
    | (Thrown e, w') => handler e w'
    end.

Definition lift {St A} (o : Outcome A) : M St A := fun w => (o, w).

Declare Scope js_scope.
Delimit Scope js_scope with js.
Notation "x <- m ;; k" := (bind m (fun x => k))
  (at level 61, m at next level, right associativity) : js_scope.
Notation "m ;;; k" := (bind m (fun _ => k))
  (at level 61, right associativity) : js_scope.

(** One reading of the wall clock, already in the stamper's ISO form. *)
Definition tick {St} (w : World St) : World St :=
  MkWorld (store w) (wall_clock w) (Datatypes.S (reads w)) (region w).

Definition now {St} : M St string :=
  fun w => (Returned (wall_clock w (reads w)), tick w).

Definition set_store {St} (w : World St) (s : St) : World St :=
  MkWorld s (wall_clock w) (reads w) (region w).

(** A JavaScript argument that may be missing ([undefined]) or [null]. *)
Inductive Arg (A : Type) : Type :=
| Absent
| Null
| Given (a : A).
Arguments Absent {A}.
Arguments Null {A}.
Arguments Given {A} a.

Local Open Scope string_scope.
Local Open Scope js_scope.

(* ================================================================== *)
(** * Part II: the program *)
(* ================================================================== *)

(** ** Configuration constants ([src/config/config_constants.js])

    The names are those of the [HashAlgorithm] enumeration of the repository. *)

Module HashAlgorithm.
Definition MD5 : string := "md5".
Definition SHA1 : string := "sha1".
Definition SHA224 : string := "sha224".
Definition SHA256 : string := "sha256".
Definition SHA384 : string := "sha384".
Definition SHA512 : string := "sha512".
(** Modelled from the spec: [HashAlgorithm.DEFAULT] of config_constants.js is
    not among the sources; section 3 leaves the choice to the implementation
    and notes that the tests pin it to sha256. *)
Definition DEFAULT : string := SHA256.
End HashAlgorithm.

(** Modelled from the spec: [createHash] of utils/cryptoPolyfill.js is not
    among the sources.  It is the digest service of section 2 over the closed
    algorithm set of section 3: it yields the hex digest for a name of the set
    and fails for any other name. *)
Definition createHash (name : string) : option (Buffer -> string) :=
  let hexed f := Some (fun b : Buffer => Crypto.hex (f (map byte_val b))) in
  if name =? HashAlgorithm.MD5 then hexed Crypto.md5
  else if name =? HashAlgorithm.SHA1 then hexed Crypto.sha1
  else if name =? HashAlgorithm.SHA224 then hexed Crypto.sha224
  else if name =? HashAlgorithm.SHA256 then hexed Crypto.sha256
  else if name =? HashAlgorithm.SHA384 then hexed Crypto.sha384
  else if name =? HashAlgorithm.SHA512 then hexed Crypto.sha512
  else None.

Definition digest_hex (name : string) (data : Buffer) : Outcome string :=
  match createHash name with
  | Some h => Returned (h data)
  | None => Thrown (MkError UnknownAlgorithm "Digest method not supported")
  end.

(** Modelled from the spec: the call [HashAlgorithm(name)] of
    config_constants.js is not among the sources.  Section 4.1: the algorithm
    is validated against the closed algorithm set, an unknown one fails with
    UnknownAlgorithm. *)
Definition HashAlgorithm_call (name : string) : Outcome string :=
  match createHash name with
  | Some _ => Returned name
  | None => Thrown (MkError UnknownAlgorithm "Invalid hash algorithm")
  end.

(** Modelled from the spec: [HashValidator.computeHash] of
    core/hash/validator.js is not among the sources; the stand-in kept in
    mcard.js (lines 15-19) is [createHash(algorithm).update(data).digest('hex')]. *)
Definition computeHash (data : Buffer) (algorithm : string) : Outcome string :=
  digest_hex algorithm data.

(** Modelled from the spec: [DEFAULT_PAGE_SIZE] of config_constants.js is not
    among the sources and the specification does not fix it; 10 is the page
    size of the engine double in test/mcard.test.js. *)
Definition DEFAULT_PAGE_SIZE : Z := 10.

(** Modelled from the spec: [HASH_ALGORITHM_HIERARCHY] of config_constants.js
    is not among the sources.  Section 3: md5 < sha1 < sha224 < sha256 < sha384
    < sha512, and [upgrade(a)] is the next stronger algorithm, none for the
    strongest. *)
Definition HASH_ALGORITHM_HIERARCHY (name : string) : option string :=
  if name =? "md5" then Some "sha1"
  else if name =? "sha1" then Some "sha224"
  else if name =? "sha224" then Some "sha256"
  else if name =? "sha256" then Some "sha384"
  else if name =? "sha384" then Some "sha512"
  else None.

(** ** The stamper ([src/core/g_time.js]) *)

Module GTime.
(** Modelled from the spec: g_time.js is not among the sources.  Section 4.2:
    [stamp_now(algorithm)] is
    [algorithm + "|" + now_utc_iso_microseconds_Z + "|" + region_tag]. *)
Definition stamp_now {St} (algorithm : string) : M St string :=
  t <- now ;;
  fun w => (Returned (algorithm ++ "|" ++ t ++ "|" ++ region w), w).

Fixpoint before_bar (s : string) : string :=
  match s with
  | EmptyString => EmptyString
  | String a s' => if Ascii.eqb a "|" then EmptyString else String a (before_bar s')
  end.

(** Modelled from the spec: section 3, the algorithm field is the part of the
    stamp before the first ["|"]. *)
Definition get_hash_function (g_time : string) : string := before_bar g_time.
End GTime.

(** ** Cards ([src/core/mcard.js]) *)

(** The values the constructor is called with.  [CObject] is a plain object,
    one whose [constructor] is [Object]; [CInstance] is an object whose
    [constructor] is not [Object] and that is neither a buffer nor an array:
    [Object.create(null)], an instance of a class, a [Map], a typed array
    for which [SafeBuffer.isBuffer] does not hold.  [props] are the own
    enumerable properties, those [Object.keys] lists and [JSON.stringify]
    writes; the object has no [toJSON]. *)
Inductive Content : Type :=
| CNull
| CUndefined
| CBuffer (b : Buffer)
| CString (s : jsstring)
| CObject (props : list (jsstring * JSON))
| CInstance (props : list (jsstring * JSON))
| CArray (items : list JSON)
| CNumber (z : Z)
| CBoolean (b : bool).

Definition typeof (c : Content) : string :=
  match c with
  | CNull | CBuffer _ | CObject _ | CInstance _ | CArray _ => "object"
  | CUndefined => "undefined"
  | CString _ => "string"
  | CNumber _ => "number"
  | CBoolean _ => "boolean"
  end.

Record Card : Type := MkCard {
  content : Buffer;
  hash : string;
  hash_algorithm : string;
  g_time : string;
  originalContentType : string;
  hash_function : option string;
  content_type : option string
}.

(** Lines 38-58: the content as a buffer.  The test of line 46 is
    [Object.keys(content).length === 0 && content.constructor === Object]:
    only a plain object is refused for having no properties. *)
Definition to_buffer (c : Content) : Outcome Buffer :=
  match c with
  | CBuffer b => Returned b
  | CString s => Returned (utf8_encode s)
  | CObject props =>
      if Nat.eqb (length props) 0 then
        Thrown (MkError InvalidContent
          "Failed to stringify object content for MCard: Object content cannot be empty.")
      else Returned (utf8_encode (JSON_stringify (JObject props)))
  | CInstance props => Returned (utf8_encode (JSON_stringify (JObject props)))
  | CArray items => Returned (utf8_encode (JSON_stringify (JArray items)))
  | CUndefined => Thrown (MkError InvalidContent "Content cannot be undefined.")
  | CNull | CNumber _ | CBoolean _ =>
      Thrown (MkError InvalidContent
        ("Unsupported content type for MCard: " ++ typeof c))
  end.

(** Lines 66-76: the digest, with the fallback of the [catch] block. *)
Definition hash_fields (data : Buffer) (forced : string) : Outcome (string * string) :=
  let attempt :=
    match HashAlgorithm_call forced with
    | Returned algorithm =>
        match computeHash data algorithm with
        | Returned h => Returned (h, algorithm)
        | Thrown e => Thrown e
        end
    | Thrown e => Thrown e
    end in
  match attempt with
  | Returned r => Returned r
  | Thrown _ =>
      let name := if forced =? "" then "sha256" else forced in
      match digest_hex name data with
      | Returned h => Returned (h, name)
      | Thrown e => Thrown e
      end
  end.

(** The default of the parameter [hashFunction = HashAlgorithm.DEFAULT]. *)
Definition chosen_algorithm (hashFunction : Arg string) : string :=
  match hashFunction with
  | Given f => f
  | _ => HashAlgorithm.DEFAULT
  end.

(** [options.forceHashAlgorithm || hashFunction] *)
Definition forced_algorithm (forceHashAlgorithm : option string)
    (hashFunction : string) : string :=
  match forceHashAlgorithm with
  | Some f => if f =? "" then hashFunction else f
  | None => hashFunction
  end.

(** [new MCard(content, hashFunction = HashAlgorithm.DEFAULT, options = {})];
    [forceHashAlgorithm] is [options.forceHashAlgorithm]. *)
Definition MCard_new {St} (c : Content) (hashFunction : Arg string)
    (forceHashAlgorithm : option string) : M St Card :=
  match c with
  | CNull => throw InvalidContent "Content cannot be None"
  | _ =>
  match hashFunction with
  | Null => throw InvalidArgument "hash_function cannot be None"
  | _ =>
      data <- lift (to_buffer c) ;;
      if Nat.eqb (length data) 0 then
        throw EmptyContent "Content cannot be empty after conversion to Buffer."
      else
        ha <- lift (hash_fields data
                      (forced_algorithm forceHashAlgorithm
                         (chosen_algorithm hashFunction))) ;;
        stamp <- GTime.stamp_now (snd ha) ;;
        ret {| content := data; hash := fst ha; hash_algorithm := snd ha;
               g_time := stamp; originalContentType := typeof c;
               hash_function := None; content_type := None |}
  end
  end.

(** The methods of a card (lines 82-137).  [get_content] gives the text
    back when the card was built from a string, and the buffer otherwise;
    [_content] is a [Uint8Array] in every case. *)
Inductive ContentValue : Type :=
| TextValue (text : jsstring)
| BufferValue (data : Buffer).

Definition get_content (card : Card) : ContentValue :=
  if originalContentType card =? "string"
  then TextValue (TextDecoder_decode (content card))
  else BufferValue (content card).

Definition get_hash (card : Card) : string := hash card.

Definition get_g_time (card : Card) : string := g_time card.

(** [equals(other)]: [this.hash === other.hash] *)
Definition equals (card other : Card) : bool := hash card =? hash other.

(** The object [to_dict()] returns; a key the object does not have is
    [None]. *)
Record CardDict : Type := MkCardDict {
  dict_content : Buffer;
  dict_hash : string;
  dict_g_time : string;
  dict_hash_algorithm : option string;
  dict_content_type : option (option string)
}.

(** [to_dict()] of [MCard] (lines 111-124). *)
Definition to_dict (card : Card) : CardDict :=
  {| dict_content := content card;
     dict_hash := hash card;
     dict_g_time := g_time card;
     dict_hash_algorithm := Some (hash_algorithm card);
     dict_content_type := None |}.

(** ** Content type detection
    ([src/content/model/content_type_detector.js]) *)

Module ContentTypeInterpreter.
Local Open Scope Z_scope.

Definition signatures : list (string * list (list Z)) :=
  [ ("image/jpeg", [[255; 216; 255]]);
    ("image/png", [[137; 80; 78; 71]]);
    ("image/gif", [[71; 73; 70; 56]]);
    ("image/webp", [[82; 73; 70; 70]]);
    ("image/bmp", [[66; 77]]);
    ("application/pdf", [[37; 80; 68; 70]]);
    ("audio/mpeg", [[73; 68; 51]; [255; 251]]);
    ("audio/wav", [[82; 73; 70; 70]]);
    ("video/mp4", [[0; 0; 0; 24; 102; 116; 121; 112]]);
    ("video/webm", [[26; 69; 223; 163]]);
    ("application/zip", [[80; 75; 3; 4]]);
    ("application/gzip", [[31; 139]]) ].

(** [signature.every((byte, i) => data[i] === byte)] *)
Fixpoint matches (signature : list Z) (data : Buffer) : bool :=
  match signature with
  | [] => true
  | s :: signature' =>
      match data with
      | [] => false
      | d :: data' => (byte_val d =? s) && matches signature' data'
      end
  end.

(** The two nested [for] loops: the first entry one of whose signatures
    matches. *)
Fixpoint first_match (table : list (string * list (list Z))) (data : Buffer)
  : option string :=
  match table with
  | [] => None
  | (mimeType, signatureList) :: table' =>
      if existsb (fun signature => matches signature data) signatureList
      then Some mimeType
      else first_match table' data
  end.

Definition printable (b : byte) : bool :=
  let v := byte_val b in
  ((32 <=? v) && (v <=? 126)) || (v =? 9) || (v =? 10) || (v =? 13).

(** [printableChars / data.length > 0.9]: for a count [p] and a length
    [n < 2^49] the quotient of the two doubles exceeds the double [0.9]
    exactly when [10 p > 9 n]. *)
Definition isTextContent (data : Buffer) : bool :=
  if Nat.eqb (length data) 0 then true
  else if existsb (fun b => byte_val b =? 0) data then false
  else
    let printableChars := Z.of_nat (length (filter printable data)) in
    10 * printableChars >? 9 * Z.of_nat (length data).

(** [detectType(data)] for a buffer [data]. *)
Definition detectType (data : Buffer) : string :=
  if (length data <? 4)%nat then "application/octet-stream"
  else
    match first_match signatures data with
    | Some mimeType => mimeType
    | None =>
        if isTextContent data then "text/plain" else "application/octet-stream"
    end.

(** Modelled from the spec: the instance method [detectContentType] that
    [MCardFromData] calls belongs to utils/content_type_detector.js, which is
    not among the sources; section 4.1 describes it as the classifier above. *)
Definition detectContentType (data : Buffer) : string := detectType data.

End ContentTypeInterpreter.

(** [new MCardFromData(content, hash_value, g_time_str)] (lines 140-180). *)
Definition falsy_string (a : Arg string) : bool :=
  match a with
  | Given s => s =? ""
  | _ => true
  end.

Definition given_string (a : Arg string) : string :=
  match a with Given s => s | _ => "" end.

Definition falsy_content (c : Content) : bool :=
  match c with
  | CNull | CUndefined => true
  | CString s => Nat.eqb (length s) 0
  | CNumber z => (z =? 0)%Z
  | CBoolean b => negb b
  | CBuffer _ | CObject _ | CInstance _ | CArray _ => false
  end.

Definition MCardFromData {St} (c : Content) (hash_value g_time_str : Arg string)
  : M St Card :=
  if falsy_content c then throw InvalidContent "Content cannot be null or empty"
  else
    match c with
    | CBuffer data =>
        if falsy_string hash_value then
          throw InvalidArgument "Hash value cannot be None or empty"
        else if falsy_string g_time_str then
          throw InvalidArgument "g_time string cannot be None or empty"
        else
          let g := given_string g_time_str in
          parent <- MCard_new c (Given (GTime.get_hash_function g)) None ;;
          ret {| content := content parent;
                 hash := given_string hash_value;
                 hash_algorithm := hash_algorithm parent;
                 g_time := g;
                 originalContentType := originalContentType parent;
                 hash_function := Some (GTime.get_hash_function g);
                 content_type :=
                   Some (ContentTypeInterpreter.detectContentType data) |}
    | _ =>
        throw InvalidContent
          "Content must be a Buffer when initializing from existing data."
    end.

(** [get_content_type()] and the overriding [to_dict()] of [MCardFromData]
    (lines 183-200). *)
Definition get_content_type (card : Card) : option string := content_type card.

Definition MCardFromData_to_dict (card : Card) : CardDict :=
  {| dict_content := content card;
     dict_hash := hash card;
     dict_g_time := g_time card;
     dict_hash_algorithm := None;
     dict_content_type := Some (content_type card) |}.

(** ** Buffers of the cross-environment layer ([src/utils/bufferPolyfill.js]) *)

Module SafeBuffer.
Local Open Scope Z_scope.

(** [SafeBuffer.from(text)], encoding ['utf8']. *)
Definition from (text : jsstring) : Buffer := utf8_encode text.

(** The [for] loop of [compare] over the indices below [minLength]: the sign
    at the first index where the buffers differ, if there is one. *)
Fixpoint compare_loop (a b : Buffer) : option Z :=
  match a, b with
  | x :: a', y :: b' =>
      if byte_val x <? byte_val y then Some (-1)
      else if byte_val x >? byte_val y then Some 1
      else compare_loop a' b'
  | _, _ => None
  end.

(** [SafeBuffer.compare(buf1, buf2)] for two buffers (lines 169-197); Node's
    [Buffer.compare], which it defers to when present, computes the same. *)
Definition compare (buf1 buf2 : Buffer) : Z :=
  match compare_loop buf1 buf2 with
  | Some r => r
  | None =>
      if (length buf1 <? length buf2)%nat then -1
      else if (length buf2 <? length buf1)%nat then 1
      else 0
  end.

(** [target.set(source, offset)] on typed arrays; [None] is the RangeError
    of a source that does not fit behind the offset. *)
Definition Uint8Array_set (target source : Buffer) (offset : nat) : option Buffer :=
  if (length target <? offset + length source)%nat then None
  else Some (firstn offset target ++ source
             ++ skipn (offset + length source) target)%list.

(** The [for] loop of [concat] (lines 107-110). *)
Fixpoint concat_loop (buffers : list Buffer) (result : Buffer) (offset : nat)
  : option Buffer :=
  match buffers with
  | [] => Some result
  | buf :: buffers' =>
      match Uint8Array_set result buf offset with
      | Some result' => concat_loop buffers' result' (offset + length buf)
      | None => None
      end
  end.

(** [SafeBuffer.concat(buffers)] as the file implements it (lines 103-112). *)
Definition concat (buffers : list Buffer) : option Buffer :=
  let totalLength :=
    fold_left (fun acc buf => (acc + length buf)%nat) buffers 0%nat in
  concat_loop buffers (repeat x00 totalLength) 0.

(** [SafeBuffer.toString(buffer, encoding = 'utf8')] as the file implements
    it for a [Uint8Array] (lines 133-153); a missing buffer is [None]. *)
Definition toString (buffer : option Buffer) (encoding : option string) : jsstring :=
  match buffer with
  | None => []
  | Some data =>
      let encoding := match encoding with Some e => e | None => "utf8"%string end in
      if (encoding =? "hex")%string then js "01020304"
      else if (encoding =? "base64")%string then js "AQIDBA=="
      else TextDecoder_decode data
  end.

End SafeBuffer.

(** ** Event payloads ([src/core/event-producer.js]) *)

Module EventProducer.

(** Modelled from the spec: event-producer.js is not among the sources.
    Sections 3 and 6: a duplicate event is a JSON object with the fields
    [event_type], [timestamp], [hashes], [algorithm] and [context]; it names
    the original card's hash and algorithm and carries no content bytes. *)
Definition duplication_event (original : Card) (timestamp : string) : JSON :=
  JObject
    [ (js "event_type", JString (js "duplicate"));
      (js "timestamp", JString (js timestamp));
      (js "hashes", JArray [JString (js (hash original))]);
      (js "algorithm", JString (js (hash_algorithm original)));
      (js "context", JObject []) ].

(** Modelled from the spec: section 4.5, [duplicate_event(original_card)]
    gives the payload as a JSON string; its timestamp is the clock's. *)
Definition generateDuplicationEvent {St} (original : Card) : M St jsstring :=
  t <- now ;;
  ret (JSON_stringify (duplication_event original t)).

(** Modelled from the spec: event-producer.js is not among the sources.
    Section 4.4, step 3d: the collision payload references the existing card
    and the upgraded card, with both algorithm names.  [add] calls the producer with the incoming card and the existing
    card before it builds the upgraded card (line 285), so the producer finds
    the upgraded card from the incoming one: its algorithm is the one the
    hierarchy of section 3 gives for the incoming card's algorithm, its hash
    the digest of the incoming bytes under it.  There is no such card when
    the hierarchy gives no algorithm or the digest is not available; [add]
    fails in both cases and stores no payload. *)
Definition upgraded_reference (hierarchy : string -> option string)
    (new_card : Card) : option (string * string) :=
  match hierarchy (hash_algorithm new_card) with
  | Some upgraded =>
      match digest_hex upgraded (content new_card) with
      | Returned h => Some (h, upgraded)
      | Thrown _ => None
      end
  | None => None
  end.

(** Modelled from the spec: sections 3, 4.4 (step 3d) and 6: a collision
    event has the fields [event_type], [timestamp], [hashes], [algorithms]
    and [context]; [hashes] and [algorithms] name the hash and the algorithm
    of the existing card and then those of the upgraded card, and the payload
    carries no content bytes. *)
Definition collision_event (hierarchy : string -> option string)
    (new_card existing_card : Card) (timestamp : string) : JSON :=
  let upgraded := upgraded_reference hierarchy new_card in
  JObject
    [ (js "event_type", JString (js "collision"));
      (js "timestamp", JString (js timestamp));
      (js "hashes",
         JArray (JString (js (hash existing_card))
                 :: match upgraded with
                    | Some reference => [JString (js (fst reference))]
                    | None => []
                    end));
      (js "algorithms",
         JArray (JString (js (hash_algorithm existing_card))
                 :: match upgraded with
                    | Some reference => [JString (js (snd reference))]
                    | None => []
                    end));
      (js "context", JObject []) ].

(** Modelled from the spec: section 4.5, [collision_event(new_card,
    existing_card)] gives the payload as a JSON string; its timestamp is the
    clock's. *)
Definition generateCollisionEvent {St} (hierarchy : string -> option string)
    (new_card existing_card : Card) : M St jsstring :=
  t <- now ;;
  ret (JSON_stringify (collision_event hierarchy new_card existing_card t)).

End EventProducer.

(** ** Pages ([src/core/card-collection.js], lines 218-244) *)

Record PageData : Type := MkPageData {
  pd_items : option (list Card);
  pd_total_items : option Z;
  pd_page_number : option Z;
  pd_page_size : option Z;
  pd_has_next : option bool;
  pd_has_previous : option bool;
  pd_total_pages : option Z
}.

Record Page : Type := MkPage {
  items : list Card;
  total_items : Z;
  page_number : Z;
  page_size : Z;
  has_next : bool;
  has_previous : bool;
  total_pages : Z;
  previous_page : option Z;
  next_page : option Z
}.

Definition or_default {A} (o : option A) (d : A) : A :=
  match o with Some a => a | None => d end.

(** [new Page(pageData)] *)
Definition Page_new (pageData : PageData) : Page :=
  let items := or_default (pd_items pageData) [] in
  let total_items := or_default (pd_total_items pageData) 0%Z in
  let page_number := or_default (pd_page_number pageData) 1%Z in
  let page_size := or_default (pd_page_size pageData) DEFAULT_PAGE_SIZE in
  let has_next := or_default (pd_has_next pageData) false in
  let has_previous := or_default (pd_has_previous pageData) false in
  let total_pages := or_default (pd_total_pages pageData) 0%Z in
  {| items := items; total_items := total_items; page_number := page_number;
     page_size := page_size; has_next := has_next; has_previous := has_previous;
     total_pages := total_pages;
     previous_page := if has_previous then Some (page_number - 1)%Z else None;
     next_page := if has_next then Some (page_number + 1)%Z else None |}.

(** ** The storage engine (section 4.3) *)

(** What an engine's [get_page] and [get_all] hand back. *)
Record EnginePage : Type := MkEnginePage {
  r_items : list Card;
  r_total_items : Z;
  r_page_number : Z;
  r_page_size : Z;
  r_has_next : bool;
  r_has_previous : bool
}.

(** The operations the collection calls on its engine. *)
Record Engine (St : Type) : Type := MkEngine {
  engine_add : Card -> M St unit;
  engine_get : string -> M St (option Card);
  engine_delete : string -> M St bool;
  engine_update : string -> Buffer -> M St bool;
  engine_clear : M St unit;
  engine_count : M St Z;
  engine_get_page : Z -> Z -> M St EnginePage;
  engine_get_all : Z -> Z -> M St EnginePage
}.

(** [Math.ceil(a / b)] for integers [a] and [b > 0] (exact below 2^53). *)
Definition ceil_div (a b : Z) : Z := (- ((- a) / b))%Z.

(** *** The in-memory engine

    No engine is among the sources; the schema of the default one is
    ([card(hash PRIMARY KEY, g_time NOT NULL, content NOT NULL)] with the
    trigger [ensure_unique_hash]).  The engine below keeps the rows of that
    table in a list, in insertion order, and follows the contract of
    section 4.3 operation by operation. *)

Module MemoryEngine.
Local Open Scope Z_scope.

Record Row : Type := MkRow {
  row_hash : string;
  row_g_time : string;
  row_content : Buffer
}.

Definition Rows := list Row.

Definition row_of (card : Card) : Row :=
  {| row_hash := hash card; row_g_time := g_time card; row_content := content card |}.

Definition has_hash (h : string) (r : Row) : bool := (row_hash r =? h)%string.

Definition lookup (h : string) (rows : Rows) : option Row := find (has_hash h) rows.

(** Modelled from the spec: section 4.1, [card_from_row(content_bytes, hash,
    g_time)] of the missing engine is the constructor [MCardFromData]. *)
Definition card_from_row (r : Row) : M Rows Card :=
  MCardFromData (CBuffer (row_content r)) (Given (row_hash r)) (Given (row_g_time r)).

(** Modelled from the spec: [add] of the missing engine.  Section 4.3: insert
    [(hash, g_time, content_bytes)]; if the hash already exists, fail with
    HashConflict (the message is the trigger's). *)
Definition add (card : Card) : M Rows unit :=
  fun w =>
    match lookup (hash card) (store w) with
    | Some _ => throw HashConflict "Card with this hash already exists" w
    | None => (Returned tt, set_store w (store w ++ [row_of card])%list)
    end.

(** Modelled from the spec: [get] of the missing engine.  Section 4.3: the
    card reconstructed via [card_from_row], or a "not found" sentinel. *)
Definition get (h : string) : M Rows (option Card) :=
  fun w =>
    match lookup h (store w) with
    | Some r => (card <- card_from_row r ;; ret (Some card)) w
    | None => (Returned None, w)
    end.

(** Modelled from the spec: [delete] of the missing engine.  Section 4.3:
    remove the row; deleting a missing hash returns false, not an error. *)
Definition delete (h : string) : M Rows bool :=
  fun w =>
    match lookup h (store w) with
    | Some _ =>
        (Returned true, set_store w (filter (fun r => negb (has_hash h r)) (store w)))
    | None => (Returned false, w)
    end.

(** Modelled from the spec: [update] of the missing engine.  Section 4.3:
    replace the bytes bound to the hash; the digest is not verified again. *)
Definition update (h : string) (new_content : Buffer) : M Rows bool :=
  fun w =>
    match lookup h (store w) with
    | Some _ =>
        (Returned true,
         set_store w
           (map (fun r => if has_hash h r
                          then MkRow (row_hash r) (row_g_time r) new_content
                          else r) (store w)))
    | None => (Returned false, w)
    end.

(** Modelled from the spec: [clear] and [count] of the missing engine.
    Section 4.3: remove all rows; the exact count of stored rows. *)
Definition clear : M Rows unit := fun w => (Returned tt, set_store w []).

Definition count : M Rows Z := fun w => (Returned (Z.of_nat (length (store w))), w).

Fixpoint cards_from_rows (rows : Rows) : M Rows (list Card) :=
  match rows with
  | [] => ret []
  | r :: rows' =>
      card <- card_from_row r ;;
      cards <- cards_from_rows rows' ;;
      ret (card :: cards)
  end.

Definition slice {A} (start_idx end_idx : Z) (l : list A) : list A :=
  firstn (Z.to_nat (end_idx - start_idx)) (skipn (Z.to_nat start_idx) l).

(** Modelled from the spec: [get_page] of the missing engine.  Section 4.3:
    an ordered page by insertion order, PageOutOfRange for a page beyond the
    last when there are rows; section 7: InvalidArgument for a page number or
    size below 1; section 3: [has_next] and [has_previous] as the page model
    has them, computed the way [search_by_hash] of the collection does
    ([end_idx < total_items], [page_number > 1]). *)
Definition get_page (page_number page_size : Z) : M Rows EnginePage :=
  if page_number <? 1 then throw InvalidArgument "Page number must be >= 1"
  else if page_size <? 1 then throw InvalidArgument "Page size must be >= 1"
  else
    fun w =>
      let total_items := Z.of_nat (length (store w)) in
      if (0 <? total_items) && (ceil_div total_items page_size <? page_number) then
        throw PageOutOfRange "Page number is beyond total pages" w
      else
        let start_idx := (page_number - 1) * page_size in
        let end_idx := start_idx + page_size in
        (cards <- cards_from_rows (slice start_idx end_idx (store w)) ;;
         ret {| r_items := cards; r_total_items := total_items;
                r_page_number := page_number; r_page_size := page_size;
                r_has_next := end_idx <? total_items;
                r_has_previous := 1 <? page_number |}) w.

(** Modelled from the spec: section 4.3, [get_all] is an alias of
    [get_page]. *)
Definition engine : Engine Rows :=
  {| engine_add := add; engine_get := get; engine_delete := delete;
     engine_update := update; engine_clear := clear; engine_count := count;
     engine_get_page := get_page; engine_get_all := get_page |}.

(** Modelled from the spec: section 7, EngineFailure is a failure of the
    underlying storage I/O; this engine's [update] fails that way. *)
Definition failing_update (h : string) (new_content : Buffer) : M Rows bool :=
  throw EngineFailure "disk I/O error".

Definition engine_with_failing_update : Engine Rows :=
  {| engine_add := add; engine_get := get; engine_delete := delete;
     engine_update := failing_update; engine_clear := clear;
     engine_count := count; engine_get_page := get_page;
     engine_get_all := get_page |}.

End MemoryEngine.

(** *** The engine double of the tests ([test/mcard.test.js], lines 203-284) *)

(** [String(value)] of an argument that may be missing. *)
Definition ToString_text (a : Arg jsstring) : jsstring :=
  match a with
  | Absent => js "undefined"
  | Null => js "null"
  | Given text => text
  end.

Module MockEngine.
Local Open Scope Z_scope.

(** [this.cards]: a [Map] from hashes to cards, in insertion order. *)
Definition Cards := list (string * Card).

(** [Map.prototype.set]: the value of a key that is present is replaced
    where it stands, a new key goes to the end. *)
Fixpoint Map_set (key : string) (value : Card) (cards : Cards) : Cards :=
  match cards with
  | [] => [(key, value)]
  | (k, v) :: cards' =>
      if (k =? key)%string then (key, value) :: cards'
      else (k, v) :: Map_set key value cards'
  end.

Definition Map_get (key : string) (cards : Cards) : option Card :=
  match find (fun entry => (fst entry =? key)%string) cards with
  | Some entry => Some (snd entry)
  | None => None
  end.

Definition Map_values (cards : Cards) : list Card := map snd cards.

Definition add (card : Card) : M Cards Card :=
  fun w => (Returned card, set_store w (Map_set (hash card) card (store w))).

(** [this.cards.get(hash) || null]; a card is an object, never falsy. *)
Definition get (h : string) : M Cards (option Card) :=
  fun w => (Returned (Map_get h (store w)), w).

Definition clear : M Cards unit := fun w => (Returned tt, set_store w []).

Definition count : M Cards Z := fun w => (Returned (Z.of_nat (length (store w))), w).

Definition get_all : M Cards (list Card) :=
  fun w => (Returned (Map_values (store w)), w).

(** [_getCardContentAsString(card)]: the content of a card is a
    [Uint8Array], which is truthy even when empty and which the decoder
    never rejects. *)
Definition getCardContentAsString (card : option Card) : jsstring :=
  match card with
  | None => []
  | Some card => TextDecoder_decode (content card)
  end.

(** [search_by_string(search_string, page_number = 1, page_size = 10)] *)
Definition search_by_string (search_string : Arg jsstring)
    (page_number page_size : option Z) : M Cards EnginePage :=
  fun w =>
    let page_number := or_default page_number 1 in
    let page_size := or_default page_size 10 in
    let allCards := Map_values (store w) in
    let matchingCards :=
      filter (fun card =>
                String_includes (getCardContentAsString (Some card))
                                (ToString_text search_string))
             allCards in
    let start_idx := (page_number - 1) * page_size in
    let end_idx := start_idx + page_size in
    (Returned
       {| r_items := Array_slice matchingCards start_idx end_idx;
          r_total_items := Z.of_nat (length matchingCards);
          r_page_number := page_number;
          r_page_size := page_size;
          r_has_next := end_idx <? Z.of_nat (length matchingCards);
          r_has_previous := 1 <? page_number |},
     w).

(** The double has no [delete], [update] and [get_page]: a call of one of
    them is a TypeError, filed here under EngineFailure. *)
Definition not_a_function {A} (name : string) : M Cards A :=
  throw EngineFailure ("this.engine." ++ name ++ " is not a function").

(** The double as an engine of the collection.  The collection does not use
    the card [add] returns.  [get_all] of the double returns a bare array:
    read as a page result it has no [items] and no counts, which [get_all] of
    the collection replaces by its defaults; the page result below is read
    the same way. *)
Definition engine : Engine Cards :=
  {| engine_add := fun card => add card ;;; ret tt;
     engine_get := get;
     engine_delete := fun _ => not_a_function "delete";
     engine_update := fun _ _ => not_a_function "update";
     engine_clear := clear;
     engine_count := count;
     engine_get_page := fun _ _ => not_a_function "get_page";
     engine_get_all := fun _ _ =>
       cards <- get_all ;;
       ret {| r_items := []; r_total_items := 0; r_page_number := 0;
              r_page_size := 0; r_has_next := false; r_has_previous := false |} |}.

End MockEngine.

(** ** The collection ([src/core/card-collection.js]) *)

(** Lines 317-324, with the [|| 0] of lines 327-328. *)
Definition HASH_LENGTHS (name : string) : option Z :=
  if name =? "md5" then Some 16%Z
  else if name =? "sha1" then Some 20%Z
  else if name =? "sha224" then Some 28%Z
  else if name =? "sha256" then Some 32%Z
  else if name =? "sha384" then Some 48%Z
  else if name =? "sha512" then Some 64%Z
  else None.

Definition hash_length_or_0 (name : string) : Z :=
  or_default (HASH_LENGTHS (toLowerCase name)) 0%Z.

Module CardCollection.
Section Collection.

(** [HASH_ALGORITHM_HIERARCHY], the engine's state and [this.engine]. *)
Variable hierarchy : string -> option string.
Variable St : Type.
Variable engine : Engine St.

Definition get (hash_value : string) : M St (option Card) :=
  engine_get engine hash_value.

Definition delete (hash_value : string) : M St bool :=
  engine_delete engine hash_value.

Definition clear : M St unit := engine_clear engine.

Definition count : M St Z := engine_count engine.

(** [HASH_ALGORITHM_HIERARCHY[currentHashFunction]], [None] when the entry is
    missing or falsy. *)
Definition upgrade (currentHashFunction : string) : option string :=
  match hierarchy currentHashFunction with
  | Some upgradedFunction =>
      if upgradedFunction =? "" then None else Some upgradedFunction
  | None => None
  end.

(** The card of an event payload: [new MCard(SafeBuffer.from(payload))],
    digested under the default algorithm (lines 278 and 344). *)
Definition event_card (payload : jsstring) : M St Card :=
  MCard_new (CBuffer (SafeBuffer.from payload)) Absent None.

(** The duplicate branch of [add] (lines 275-281). *)
Definition add_duplicate (existing_card : Card) : M St string :=
  duplicate_event_content_str <-
    EventProducer.generateDuplicationEvent existing_card ;;
  duplicate_event_card <- event_card duplicate_event_content_str ;;
  engine_add engine duplicate_event_card ;;;
  ret (hash duplicate_event_card).

(** The collision branch of [add] (lines 283-348).  The payload is parsed
    back ([contentDict]) and the result is not used.  The hierarchy is a
    constant of config_constants.js, which the producer is given here as
    [add] is. *)
Definition add_collision (card existing_card : Card) : M St string :=
  collision_event_content_str <-
    EventProducer.generateCollisionEvent hierarchy card existing_card ;;
  let currentHashFunction := hash_algorithm card in
  match upgrade currentHashFunction with
  | None => throw NoStrongerAlgorithm "No stronger hash algorithm available"
  | Some upgradedFunction =>
      collision_content_card <-
        MCard_new (CBuffer (content card)) (Given upgradedFunction) None ;;
      if hash_algorithm collision_content_card =? hash_algorithm card
      then throw UpgradeFailed "Hash algorithm did not upgrade"
      else
        let currentHashLength := hash_length_or_0 currentHashFunction in
        let upgradedHashLength := hash_length_or_0 upgradedFunction in
        if (upgradedHashLength <=? currentHashLength)%Z then
          throw UpgradeFailed
            "Hash algorithm upgrade did not increase hash length"
        else
          engine_add engine collision_content_card ;;;
          collision_event_card <- event_card collision_event_content_str ;;
          engine_add engine collision_event_card ;;;
          ret (hash collision_event_card)
  end.

(** [add(card)] (lines 254-356).  The content of a card is a buffer, so
    [content1] and [content2] are the two contents themselves. *)
Definition add (card : option Card) : M St string :=
  match card with
  | None => throw InvalidArgument "Card cannot be None"
  | Some card =>
      let hash_value := hash card in
      existing <- get hash_value ;;
      match existing with
      | Some existing_card =>
          let content1 := content existing_card in
          let content2 := content card in
          if (SafeBuffer.compare content1 content2 =? 0)%Z
          then add_duplicate existing_card
          else add_collision card existing_card
      | None =>
          engine_add engine card ;;;
          ret hash_value
      end
  end.

(** [get_page(page_number = 1, page_size = DEFAULT_PAGE_SIZE)] (lines 366-391) *)
Definition get_page (page_number page_size : option Z) : M St Page :=
  let page_number := or_default page_number 1%Z in
  let page_size := or_default page_size DEFAULT_PAGE_SIZE in
  if (page_number <? 1)%Z then throw InvalidArgument "Invalid page number"
  else if (page_size <? 1)%Z then throw InvalidArgument "Invalid page size"
  else
    result <- engine_get_page engine page_number page_size ;;
    let total_pages :=
      if (0 <? r_total_items result)%Z
      then ceil_div (r_total_items result) page_size
      else 0%Z in
    if (0 <? r_total_items result)%Z && (total_pages <? page_number)%Z then
      throw PageOutOfRange "Page number is beyond total pages"
    else
      ret (Page_new
             {| pd_items := Some (r_items result);
                pd_total_items := Some (r_total_items result);
                pd_page_number := Some (r_page_number result);
                pd_page_size := Some (r_page_size result);
                pd_has_next := Some (r_has_next result);
                pd_has_previous := Some (r_has_previous result);
                pd_total_pages := Some total_pages |}).

(** [update(hash, newContent)] (lines 454-472) *)
Definition update (hash : string) (newContent : Buffer) : M St bool :=
  if hash =? "" then throw InvalidArgument "Hash cannot be empty"
  else
    existingCard <- get hash ;;
    match existingCard with
    | None => ret false
    | Some _ =>
        try_catch (engine_update engine hash newContent)
                  (fun error => ret false)
    end.

(** [get_all(page_number = 1, page_size = DEFAULT_PAGE_SIZE)] (lines 482-492);
    [x || y] is [y] for the falsy [0] and [false]. *)
Definition get_all (page_number page_size : option Z) : M St Page :=
  let page_number := or_default page_number 1%Z in
  let page_size := or_default page_size DEFAULT_PAGE_SIZE in
  result <- engine_get_all engine page_number page_size ;;
  ret (Page_new
         {| pd_items := Some (r_items result);
            pd_total_items := Some (r_total_items result);
            pd_page_number :=
              Some (if (r_page_number result =? 0)%Z then page_number
                    else r_page_number result);
            pd_page_size :=
              Some (if (r_page_size result =? 0)%Z then page_size
                    else r_page_size result);
            pd_has_next := Some (r_has_next result || false);
            pd_has_previous := Some (r_has_previous result || false);
            pd_total_pages := None |}).

Definition get_all_cards (page_number page_size : option Z) : M St Page :=
  get_all page_number page_size.

(** The searches of the engine, and the items of its [get_all] called
    without arguments (line 410), are not among the operations of [Engine];
    they are taken as the engine has them.  Iterating over a result without
    [items] is a TypeError, one of the failures of [engine_get_all_items]. *)
Variable Found : Type.
Variable engine_search_by_string : Arg jsstring -> Z -> Z -> M St Found.
Variable engine_search_by_content : Arg jsstring -> Z -> Z -> M St Found.
Variable engine_get_all_items : M St (list Card).

(** [search_by_string(search_string, page_number = 1,
    page_size = DEFAULT_PAGE_SIZE)] (lines 393-395) *)
Definition search_by_string (search_string : Arg jsstring)
    (page_number page_size : option Z) : M St Found :=
  let page_number := or_default page_number 1%Z in
  let page_size := or_default page_size DEFAULT_PAGE_SIZE in
  engine_search_by_string search_string page_number page_size.

(** [search_by_hash(hash_value, page_number = 1,
    page_size = DEFAULT_PAGE_SIZE)] (lines 397-431); the hash of a card is a
    string, and [String(card.hash)] is the hash. *)
Definition search_by_hash (hash_value : Arg string)
    (page_number page_size : option Z) : M St Page :=
  let page_number := or_default page_number 1%Z in
  let page_size := or_default page_size DEFAULT_PAGE_SIZE in
  if falsy_string hash_value then
    throw InvalidArgument "Hash value cannot be empty"
  else if (page_number <? 1)%Z then
    throw InvalidArgument "Page number must be greater than 0"
  else if (page_size <? 1)%Z then
    throw InvalidArgument "Page size must be greater than 0"
  else
    all_items <- engine_get_all_items ;;
    let matching_cards :=
      filter (fun card => hash card =? given_string hash_value) all_items in
    let total_items := Z.of_nat (length matching_cards) in
    let start_idx := ((page_number - 1) * page_size)%Z in
    let end_idx := (start_idx + page_size)%Z in
    let items := Array_slice matching_cards start_idx end_idx in
    ret (Page_new
           {| pd_items := Some items;
              pd_total_items := Some total_items;
              pd_page_number := Some page_number;
              pd_page_size := Some page_size;
              pd_has_next := Some (end_idx <? total_items)%Z;
              pd_has_previous := Some (1 <? page_number)%Z;
              pd_total_pages := None |}).

(** [!search_string] *)
Definition falsy_text (a : Arg jsstring) : bool :=
  match a with
  | Given text => Nat.eqb (length text) 0
  | _ => true
  end.

(** [search_by_content(search_string, page_number = 1,
    page_size = DEFAULT_PAGE_SIZE)] (lines 433-446) *)
Definition search_by_content (search_string : Arg jsstring)
    (page_number page_size : option Z) : M St Found :=
  let page_number := or_default page_number 1%Z in
  let page_size := or_default page_size DEFAULT_PAGE_SIZE in
  if falsy_text search_string then
    throw InvalidArgument "Search string cannot be empty"
  else if (page_number <? 1)%Z then
    throw InvalidArgument "Page number must be greater than 0"
  else if (page_size <? 1)%Z then
    throw InvalidArgument "Page size must be greater than 0"
  else engine_search_by_content search_string page_number page_size.

End Collection.
End CardCollection.

(** ** Values of the host application

    The actions of the host, their payloads and the state of its store are
    values of [JSON]; a value that is missing ([undefined]) is [None]. *)

Fixpoint units_eqb (a b : jsstring) : bool :=
  match a, b with
  | [], [] => true
  | x :: a', y :: b' => (x =? y)%Z && units_eqb a' b'
  | _, _ => false
  end.

(** [ToBoolean(value)] *)
Definition truthy (v : JSON) : bool :=
  match v with
  | JNull => false
  | JBool b => b
  | JNumber z => negb (z =? 0)%Z
  | JString text => negb (Nat.eqb (length text) 0)
  | JArray _ | JObject _ => true
  end.

(** [value[name]] for a name that only an object can have (the program
    reads [type] and [meta]). *)
Definition get_property (v : JSON) (name : jsstring) : option JSON :=
  match v with
  | JObject props =>
      match find (fun kv => units_eqb (fst kv) name) props with
      | Some kv => Some (snd kv)
      | None => None
      end
  | _ => None
  end.

(** A property written in an object: in its place when the object has the
    name, at the end when it has not. *)
Fixpoint set_property (props : list (jsstring * JSON)) (name : jsstring)
    (value : JSON) : list (jsstring * JSON) :=
  match props with
  | [] => [(name, value)]
  | (k, v) :: props' =>
      if units_eqb k name then (k, value) :: props'
      else (k, v) :: set_property props' name value
  end.

(** The own enumerable properties of a value, which the spread
    [{...value}] copies: those of an object, the indices of an array and of
    a string, none of any other value. *)
Definition index_properties (elements : list JSON) : list (jsstring * JSON) :=
  combine (map (fun i => json_number (Z.of_nat i)) (seq 0 (length elements)))
          elements.

Definition own_properties (v : JSON) : list (jsstring * JSON) :=
  match v with
  | JObject props => props
  | JArray elements => index_properties elements
  | JString text => index_properties (map (fun u => JString [u]) text)
  | _ => []
  end.

(** [value || {}] *)
Definition or_empty_object (v : option JSON) : JSON :=
  match v with
  | Some x => if truthy x then x else JObject []
  | None => JObject []
  end.

(** ** The persistence middleware
    ([src/middleware/mcardPersistenceMiddleware.js]) *)

Module Middleware.
Section Host.

(** The state of the host, what [next] returns and what the storage service
    resolves to. *)
Variable Host : Type.
Variable Result : Type.
Variable Stored : Type.

(** The store of the host: [getState], when it is a function, and the
    property [state]. *)
Record ReduxStore : Type := MkReduxStore {
  getState : option (M Host JSON);
  state : option JSON
}.

Definition persistable_types : list jsstring :=
  [js "todo/addTask"; js "ADD_CARD"; js "test/action"].

(** [[...].some(type => action.type === type)] *)
Definition isPersistable (action_type : JSON) : bool :=
  match action_type with
  | JString text => existsb (fun type => units_eqb text type) persistable_types
  | _ => false
  end.

(** [typeof store.getState === 'function' ? store.getState()
     : store.state || {}] *)
Definition read_state (store : ReduxStore) : M Host JSON :=
  match getState store with
  | Some getState => getState
  | None => ret (or_empty_object (state store))
  end.

(** [{...action, meta: {...(action.meta || {}), stateSnapshot: state}}] *)
Definition actionWithState (action snapshot : JSON) : JSON :=
  JObject
    (set_property (own_properties action) (js "meta")
       (JObject
          (set_property
             (own_properties (or_empty_object (get_property action (js "meta"))))
             (js "stateSnapshot") snapshot))).

(** The body of the [try] block (lines 210-234); [storageService] is [None]
    when it is missing. *)
Definition persist (storageService : option (JSON -> M Host Stored))
    (store : ReduxStore) (action : option JSON) : M Host unit :=
  match action with
  | Some action =>
      if truthy action && truthy (or_default (get_property action (js "type")) JNull)
      then
        match get_property action (js "type"), storageService with
        | Some action_type, Some createAndStoreMCard =>
            if isPersistable action_type then
              snapshot <- read_state store ;;
              createAndStoreMCard (actionWithState action snapshot) ;;;
              ret tt
            else ret tt
        | _, _ => ret tt
        end
      else ret tt
  | None => ret tt
  end.

(** [createMcardPersistenceMiddleware(storageService)(store)(next)(action)]
    (lines 204-240): the promise it returns is resolved with the result of
    [next] or rejected with what [next] threw. *)
Definition middleware (storageService : option (JSON -> M Host Stored))
    (store : ReduxStore) (next : option JSON -> M Host Result)
    (action : option JSON) : M Host Result :=
  result <- next action ;;
  try_catch (persist storageService store action) (fun error => ret tt) ;;;
  ret result.

End Host.
End Middleware.

(** ** The storage service of the persistence tests
    ([test/redux-mcard-persistence.test.js], lines 18-36) *)

Module StorageServiceMock.

Definition sensitiveFields : list jsstring :=
  [js "password"; js "token"; js "apiKey"; js "secret"].

(** [sensitiveFields.includes(key)] *)
Definition sensitive (key : jsstring) : bool :=
  existsb (fun field => units_eqb field key) sensitiveFields.

Definition REDACTED : JSON := JString (js "[REDACTED]").

(** [sanitizePayload(payload)]: a falsy payload is returned as it is; of any
    other the own properties are copied into a new object, a sensitive one
    redacted, an object or an array (a [typeof] of ['object'], not [null])
    sanitized in turn, any other kept. *)
Fixpoint sanitizePayload (payload : JSON) : JSON :=
  match payload with
  | JObject props =>
      JObject
        (map (fun kv =>
                (fst kv,
                 if sensitive (fst kv) then REDACTED
                 else match snd kv with
                      | JObject _ | JArray _ => sanitizePayload (snd kv)
                      | value => value
                      end))
             props)
  | JArray elements =>
      JObject
        ((fix each (i : nat) (elements : list JSON) : list (jsstring * JSON) :=
            match elements with
            | [] => []
            | value :: rest =>
                let key := json_number (Z.of_nat i) in
                (key,
                 if sensitive key then REDACTED
                 else match value with
                      | JObject _ | JArray _ => sanitizePayload value
                      | _ => value
                      end)
                :: each (S i) rest
            end) 0%nat elements)
  | JString _ =>
      if truthy payload then
        JObject
          (map (fun kv => (fst kv, if sensitive (fst kv) then REDACTED else snd kv))
               (own_properties payload))
      else payload
  | JNumber _ | JBool _ | JNull =>
      if truthy payload then JObject [] else payload
  end.

End StorageServiceMock.

(** ** Vocabulary of the statements *)

(** Lexicographic order on buffers, a proper prefix before its extensions. *)
Inductive lex_lt : Buffer -> Buffer -> Prop :=
| lex_lt_prefix : forall y b, lex_lt [] (y :: b)
| lex_lt_head : forall x y a b, (byte_val x < byte_val y)%Z -> lex_lt (x :: a) (y :: b)
| lex_lt_tail : forall x a b, lex_lt a b -> lex_lt (x :: a) (x :: b).

Definition lower_hex_char (a : ascii) : bool :=
  existsb (Ascii.eqb a)
    ["0"; "1"; "2"; "3"; "4"; "5"; "6"; "7"; "8"; "9"; "a"; "b"; "c"; "d"; "e"; "f"]%char.

Fixpoint string_forallb (p : ascii -> bool) (s : string) : bool :=
  match s with
  | EmptyString => true
  | String a s' => p a && string_forallb p s'
  end.


(** The first four bytes of a PNG file. *)
Definition png_magic : Buffer := [x89; x50; x4e; x47].

(** A world to run examples in: an empty in-memory store, a clock that
    stands still, the default region tag. *)
Definition noon : string := "2023-01-01T12:00:00.000000Z".
Definition still_clock : nat -> string := fun _ => noon.
Definition empty_world : World MemoryEngine.Rows := MkWorld [] still_clock 0 "UTC".
Definition world_of (rows : MemoryEngine.Rows) : World MemoryEngine.Rows :=
  MkWorld rows still_clock 0 "UTC".

(** What a call returned, if it returned. *)
Definition returned {St A} (r : Outcome A * World St) : option A :=
  match fst r with
  | Returned a => Some a
  | Thrown _ => None
  end.

(** What a call threw, if it threw. *)
Definition thrown {St A} (r : Outcome A * World St) : option ErrorKind :=
  match fst r with
  | Returned _ => None
  | Thrown e => Some (kind e)
  end.

(** The content classes of section 4.1: bytes are used as they are, text is
    UTF-8 encoded, a structured object is serialized to JSON unless it is an
    empty plain object; [null] and an absent value are rejected, and so is
    any other type.  An object whose constructor is not [Object] is
    serialized whether or not it has properties. *)
Inductive ContentClass : Type :=
| NullOrAbsent
| EmptyObject
| UnsupportedType
| Normalized (data : Buffer).

Definition spec_content_class (c : Content) : ContentClass :=
  match c with
  | CNull | CUndefined => NullOrAbsent
  | CBuffer b => Normalized b
  | CString text => Normalized (utf8_encode text)
  | CObject [] => EmptyObject
  | CObject props => Normalized (utf8_encode (JSON_stringify (JObject props)))
  | CInstance props => Normalized (utf8_encode (JSON_stringify (JObject props)))
  | CArray elements => Normalized (utf8_encode (JSON_stringify (JArray elements)))
  | CNumber _ | CBoolean _ => UnsupportedType
  end.

(** The card the constructor builds from [data] under [algorithm] when the
    clock reads [t] in region [r]. *)
Definition fresh_card (data : Buffer) (digest : string) (algorithm t r kind_of : string)
  : Card :=
  {| content := data; hash := digest; hash_algorithm := algorithm;
     g_time := algorithm ++ "|" ++ t ++ "|" ++ r;
     originalContentType := kind_of;
     hash_function := None; content_type := None |}.

Definition hello_world : jsstring := js "Hello, World!".

(** Scenario 1 of the specification. *)
Definition hello_digest : string :=
  "dffd6021bb2bd5b0af676290809ec3a53191dd81c7f70a4b28688a362182986f".
Definition hello_card : Card :=
  fresh_card (bytes_of_string "Hello, World!") hello_digest "sha256" noon "UTC"
    "string".

(** The card the engine rebuilds from a row ([card_from_row]) when the row is
    well formed: its bytes are not empty, its hash is not empty and its stamp
    names an algorithm of the closed set. *)
Definition card_of_row (r : MemoryEngine.Row) : Card :=
  let algorithm := GTime.get_hash_function (MemoryEngine.row_g_time r) in
  {| content := MemoryEngine.row_content r;
     hash := MemoryEngine.row_hash r;
     hash_algorithm := algorithm;
     g_time := MemoryEngine.row_g_time r;
     originalContentType := "object";
     hash_function := Some algorithm;
     content_type :=
       Some (ContentTypeInterpreter.detectType (MemoryEngine.row_content r)) |}.

Definition well_formed_row (r : MemoryEngine.Row) : Prop :=
  MemoryEngine.row_content r <> [] /\
  MemoryEngine.row_hash r <> "" /\
  createHash (GTime.get_hash_function (MemoryEngine.row_g_time r)) <> None.

Definition well_formed (c : Card) : Prop := well_formed_row (MemoryEngine.row_of c).

(** The sha256 digest of a buffer, in hex. *)
Definition sha256_hex (data : Buffer) : string :=
  Crypto.hex (Crypto.sha256 (map byte_val data)).

(** The card of an event payload when the clock reads [t] in region [r]. *)
Definition event_card_at (payload : JSON) (t r : string) : Card :=
  let data := SafeBuffer.from (JSON_stringify payload) in
  fresh_card data (sha256_hex data) HashAlgorithm.DEFAULT t r "object".

(** The number of rows of a world. *)
Definition row_count (w : World MemoryEngine.Rows) : Z := Z.of_nat (length (store w)).

(** A card of the text "A", and a card forged to carry the same hash over
    other bytes (the forced-collision harness of scenario 6). *)
Definition digest_A : string :=
  "559aead08264d5795d3909718cdd05abd49572e84fe55590eef31a88a08fdffd".
Definition card_A : Card :=
  fresh_card (bytes_of_string "A") digest_A "sha256" noon "UTC" "string".
Definition card_B_forged : Card :=
  fresh_card (bytes_of_string "B") digest_A "sha256" noon "UTC" "string".

(** A card with the same hash whose bytes were emptied through the setter
    [card.content = value] (mcard.js, lines 106-108). *)
Definition card_emptied : Card :=
  fresh_card [] digest_A "sha256" noon "UTC" "string".

(** The incoming card meets a stored card with its hash and other bytes. *)
Definition collides (w : World MemoryEngine.Rows) (c existing : Card)
    (w1 : World MemoryEngine.Rows) : Prop :=
  MemoryEngine.get (hash c) w = (Returned (Some existing), w1) /\
  content existing <> content c.

(** The kinds of error the card constructors throw. *)
Definition construction_kind (k : ErrorKind) : Prop :=
  k = InvalidContent \/ k = InvalidArgument \/ k = EmptyContent \/
  k = UnknownAlgorithm.

(** The store after [add(card_A)], the card [get] rebuilds from it, the
    duplicate event card of a second [add(card_A)] while the clock stands
    still, and the two cards a forced collision with [card_B_forged] adds. *)
Definition world_A : World MemoryEngine.Rows :=
  world_of [MemoryEngine.row_of card_A].
Definition stored_A : Card := card_of_row (MemoryEngine.row_of card_A).
Definition event_A : Card :=
  event_card_at (EventProducer.duplication_event stored_A noon) noon "UTC".
Definition upgraded_B : Card :=
  fresh_card (bytes_of_string "B")
    (Crypto.hex (Crypto.sha384 (map byte_val (bytes_of_string "B"))))
    "sha384" noon "UTC" "object".
Definition collision_event_AB : Card :=
  event_card_at
    (EventProducer.collision_event HASH_ALGORITHM_HIERARCHY card_B_forged stored_A
       noon)
    noon "UTC".
Definition world_AB : World MemoryEngine.Rows :=
  world_of [MemoryEngine.row_of card_A; MemoryEngine.row_of upgraded_B;
            MemoryEngine.row_of collision_event_AB].

(** A hierarchy with nothing above any algorithm, and one that leads from
    sha256 down to md5. *)
Definition no_hierarchy (name : string) : option string := None.
Definition downward_hierarchy (name : string) : option string :=
  if name =? "sha256" then Some "md5" else None.

(** Nineteen letters and a byte that is not ASCII; three letters. *)
Definition nearly_text : Buffer := (bytes_of_string "abcdefghijklmnopqrs" ++ [x80])%list.
Definition short_text : Buffer := bytes_of_string "abc".
Definition row_stamp : string := "md5|2023-01-01T12:00:00.000000Z|REGION".




(** ** Vocabulary of the further properties *)

(** A UTF-16 code unit. *)
Definition code_unit (u : Z) : Prop := (0 <= u < 65536)%Z.

(** The text without a byte order mark (U+FEFF) at its start. *)
Definition drop_bom (s : jsstring) : jsstring :=
  match s with
  | u :: rest => if (u =? 65279)%Z then rest else s
  | [] => []
  end.

(** The buffer begins with the characters of [prefix]. *)
Definition begins_with (prefix : string) (data : Buffer) : bool :=
  ContentTypeInterpreter.matches (map byte_val (bytes_of_string prefix)) data.

(** An engine whose [get_all] lists three cards, two of them with the hash
    of the text "A". *)
Definition three_cards {St} : M St (list Card) :=
  ret [card_A; hello_card; card_B_forged].

(** The items of the page a call returned, none if it failed. *)
Definition items_of {St} (r : Outcome Page * World St) : list Card :=
  match fst r with
  | Returned page => items page
  | Thrown _ => []
  end.

(** The map of the double is keyed by the hashes of its cards, one entry for
    a hash. *)
Definition keyed (cards : MockEngine.Cards) : Prop :=
  NoDup (map fst cards) /\ Forall (fun entry => fst entry = hash (snd entry)) cards.

(** A call keeps a property of the store. *)
Definition keeps {St A} (P : St -> Prop) (m : M St A) : Prop :=
  forall w, P (store w) -> P (store (snd (m w))).

(** Worlds of the double: a new one, and one that holds the card of the
    text "A". *)
Definition empty_double : World MockEngine.Cards := MkWorld [] still_clock 0 "UTC".
Definition double_A : World MockEngine.Cards :=
  MkWorld [(digest_A, card_A)] still_clock 0 "UTC".

(** The text the double reads in a card, and the cards of a map whose text
    includes a search string. *)
Definition text_of (card : Card) : jsstring :=
  MockEngine.getCardContentAsString (Some card).

Definition matching_cards (search_string : jsstring) (cards : MockEngine.Cards)
  : list Card :=
  filter (fun card => String_includes (text_of card) search_string)
         (MockEngine.Map_values cards).

(** [search_by_string] of the double as the collection calls it. *)
Definition double_search (search_string : Arg jsstring) (page_number page_size : Z)
  : M MockEngine.Cards EnginePage :=
  MockEngine.search_by_string search_string (Some page_number) (Some page_size).

(** An action the middleware persists: an object whose [type] is one of the
    three persistable types. *)
Definition persistable (action : option JSON) : Prop :=
  exists props text,
    action = Some (JObject props) /\
    get_property (JObject props) (js "type") = Some (JString text) /\
    In text Middleware.persistable_types.

(** A host for examples: its state is the list of the objects stored so
    far; the storage service appends to it, the store's [getState] returns
    an object with no tasks, and [next] returns the action. *)
Definition host_world : World (list JSON) := MkWorld [] still_clock 0 "UTC".

Definition recording_service (stored : JSON) : M (list JSON) string :=
  fun w => (Returned "mocked-hash", set_store w (store w ++ [stored])%list).

Definition host_state : JSON := JObject [(js "tasks", JArray [])].

Definition host_store : Middleware.ReduxStore (list JSON) :=
  Middleware.MkReduxStore (Some (ret host_state)) None.

Definition next_identity (action : option JSON) : M (list JSON) (option JSON) :=
  ret action.

Definition add_task : JSON :=
  JObject [(js "type", JString (js "todo/addTask"));
           (js "payload", JObject [(js "id", JString (js "123"))])].

Definition redux_init : JSON := JObject [(js "type", JString (js "@@redux/INIT"))].

(** The value is the text the sanitizer writes over a sensitive one. *)
Definition is_redacted (v : JSON) : bool :=
  match v with
  | JString text => units_eqb text (js "[REDACTED]")
  | _ => false
  end.

(** No property with a sensitive name, at any depth, holds anything but
    the redaction text. *)
Fixpoint no_secret (v : JSON) : bool :=
  match v with
  | JObject props =>
      forallb (fun kv =>
                 if StorageServiceMock.sensitive (fst kv) then is_redacted (snd kv)
                 else no_secret (snd kv))
              props
  | JArray elements => forallb no_secret elements
  | _ => true
  end.

(** What the sanitizer makes of the value of a property that is not
    sensitive. *)
Definition sanitized_value (value : JSON) : JSON :=
  match value with
  | JObject _ | JArray _ => StorageServiceMock.sanitizePayload value
  | _ => value
  end.

(** The payload of the login action of the persistence tests. *)
Definition login_payload : JSON :=
  JObject [(js "username", JString (js "testuser"));
           (js "password", JString (js "secret123"));
           (js "token", JString (js "jwt-token-123"));
           (js "profile", JObject [(js "apiKey", JString (js "api-key-123"));
                                   (js "name", JString (js "Test User"))])].

(* ================================================================== *)
(** * Part III: properties *)
(* ================================================================== *)

(** ** Bytes *)

Lemma byte_val_inj (x y : byte) : byte_val x = byte_val y -> x = y.
Proof.
  unfold byte_val. intros H. apply N2Z.inj in H.
  assert (E : Byte.of_N (Byte.to_N x) = Byte.of_N (Byte.to_N y)) by now rewrite H.
  rewrite !Byte.of_to_N in E. now inversion E.
Qed.


(** ** The platform on known values *)

Module Vectors.

Definition digest_of (name text : string) : option string :=
  option_map (fun h => h (bytes_of_string text)) (createHash name).

Definition two_blocks : string :=
  string_of_list_ascii (repeat "a"%char 200).

Example md5_abc : digest_of "md5" "abc" = Some "900150983cd24fb0d6963f7d28e17f72".
Proof. vm_compute. reflexivity. Qed.

Example sha1_abc :
  digest_of "sha1" "abc" = Some "a9993e364706816aba3e25717850c26c9cd0d89d".
Proof. vm_compute. reflexivity. Qed.

Example sha224_abc :
  digest_of "sha224" "abc"
  = Some "23097d223405d8228642a477bda255b32aadbce4bda0b3f7e36c9da7".
Proof. vm_compute. reflexivity. Qed.

Example sha256_abc :
  digest_of "sha256" "abc"
  = Some "ba7816bf8f01cfea414140de5dae2223b00361a396177a9cb410ff61f20015ad".
Proof. vm_compute. reflexivity. Qed.

Example sha384_abc :
  digest_of "sha384" "abc"
  = Some ("cb00753f45a35e8bb5a03d699ac65007272c32ab0eded163"
          ++ "1a8b605a43ff5bed8086072ba1e7cc2358baeca134c825a7").
Proof. vm_compute. reflexivity. Qed.

Example sha512_abc :
  digest_of "sha512" "abc"
  = Some ("ddaf35a193617abacc417349ae20413112e6fa4e89a97ea20a9eeee64b55d39a"
          ++ "2192992a274fc1a836ba3c23a3feebbd454d4423643ce80e2a9ac94fa54ca49f").
Proof. vm_compute. reflexivity. Qed.

Example md5_two_blocks :
  digest_of "md5" two_blocks = Some "887f30b43b2867f4a9accceee7d16e6c".
Proof. vm_compute. reflexivity. Qed.

Example sha1_two_blocks :
  digest_of "sha1" two_blocks = Some "e61cfffe0d9195a525fc6cf06ca2d77119c24a40".
Proof. vm_compute. reflexivity. Qed.

Example sha256_two_blocks :
  digest_of "sha256" two_blocks
  = Some "c2a908d98f5df987ade41b5fce213067efbcc21ef2240212a41e54b5e7c28ae5".
Proof. vm_compute. reflexivity. Qed.

Example sha512_two_blocks :
  digest_of "sha512" two_blocks
  = Some ("4b11459c33f52a22ee8236782714c150a3b2c60994e9acee17fe68947a3e6789"
          ++ "f31e7668394592da7bef827cddca88c4e6f86e4df7ed1ae6cba71f3e98faee9f").
Proof. vm_compute. reflexivity. Qed.

Example unknown_digest : digest_of "sha3" "abc" = None.
Proof. reflexivity. Qed.

(** UTF-8: one, two and three bytes, a surrogate pair, a lone surrogate. *)
Example utf8_widths :
  map byte_val (utf8_encode [65; 233; 8364; 55357; 56832; 55357])
  = [65; 195; 169; 226; 130; 172; 240; 159; 152; 128; 239; 191; 189]%Z.
Proof. vm_compute. reflexivity. Qed.

(** [JSON.stringify({key: "value", n: -120, list: [true, null, "\n"]})] *)
Example stringify_object :
  JSON_stringify
    (JObject [(js "key", JString (js "value")); (js "n", JNumber (-120));
              (js "list", JArray [JBool true; JNull; JString [10%Z]])])
  = (js "{" ++ [34] ++ js "key" ++ [34] ++ js ":" ++ [34] ++ js "value" ++ [34]
     ++ js "," ++ [34] ++ js "n" ++ [34] ++ js ":-120,"
     ++ [34] ++ js "list" ++ [34] ++ js ":[true,null," ++ [34] ++ js "\n"
     ++ [34] ++ js "]}")%list%Z.
Proof. vm_compute. reflexivity. Qed.

End Vectors.

(** ** Digests have the length of the table and are lowercase hex *)

Module CryptoFacts.
Import Crypto.

Lemma length_le_bytes n x : length (le_bytes n x) = n.
Proof. unfold le_bytes. now rewrite length_map, length_seq. Qed.

Lemma length_be_bytes n x : length (be_bytes n x) = n.
Proof. unfold be_bytes. now rewrite length_rev, length_le_bytes. Qed.

Ltac digest_length :=
  repeat rewrite length_app;
  repeat rewrite length_be_bytes;
  repeat rewrite length_le_bytes;
  reflexivity.

Lemma length_md5 m : length (md5 m) = 16%nat.
Proof.
  unfold md5. destruct (fold_left _ _ _) as [[[a b] c] d]. digest_length.
Qed.

Lemma length_sha1 m : length (sha1 m) = 20%nat.
Proof.
  unfold sha1. destruct (fold_left _ _ _) as [[[[a b] c] d] e]. digest_length.
Qed.

Lemma length_sha224 m : length (sha224 m) = 28%nat.
Proof.
  unfold sha224. destruct (sha2 _ _ _) as [[[[[[[a b] c] d] e] f] g] h].
  digest_length.
Qed.

Lemma length_sha256 m : length (sha256 m) = 32%nat.
Proof.
  unfold sha256. destruct (sha2 _ _ _) as [[[[[[[a b] c] d] e] f] g] h].
  digest_length.
Qed.

Lemma length_sha384 m : length (sha384 m) = 48%nat.
Proof.
  unfold sha384. destruct (sha2 _ _ _) as [[[[[[[a b] c] d] e] f] g] h].
  digest_length.
Qed.

Lemma length_sha512 m : length (sha512 m) = 64%nat.
Proof.
  unfold sha512. destruct (sha2 _ _ _) as [[[[[[[a b] c] d] e] f] g] h].
  digest_length.
Qed.

Lemma length_hex bs : String.length (hex bs) = (2 * length bs)%nat.
Proof. induction bs as [|b bs IH]; simpl; [reflexivity | rewrite IH; lia]. Qed.

End CryptoFacts.

(** ** [SafeBuffer.compare] *)

Module SafeBufferFacts.
Import SafeBuffer.
Local Open Scope Z_scope.

Lemma compare_cons x y a b :
  compare (x :: a) (y :: b) =
  if byte_val x <? byte_val y then -1
  else if byte_val x >? byte_val y then 1
  else compare a b.
Proof.
  unfold compare. simpl compare_loop.
  destruct (byte_val x <? byte_val y); [reflexivity|].
  destruct (byte_val x >? byte_val y); reflexivity.
Qed.

Lemma compare_nil_l b : compare [] b = match b with [] => 0 | _ => -1 end.
Proof. destruct b; reflexivity. Qed.

Lemma compare_nil_r a : compare a [] = match a with [] => 0 | _ => 1 end.
Proof. destruct a; reflexivity. Qed.

Lemma compare_eq_iff a b : compare a b = 0 <-> a = b.
Proof.
  revert b. induction a as [|x a IH]; intros [|y b].
  - split; reflexivity.
  - rewrite compare_nil_l. split; discriminate.
  - rewrite compare_nil_r. split; discriminate.
  - rewrite compare_cons.
    destruct (Z.ltb_spec (byte_val x) (byte_val y)) as [Hlt|Hge].
    + split; [discriminate|]. intros E. inversion E. subst. lia.
    + destruct (Z.gtb_spec (byte_val x) (byte_val y)) as [Hgt|Hle].
      * split; [discriminate|]. intros E. inversion E. subst. lia.
      * assert (x = y) by (apply byte_val_inj; lia). subst y.
        rewrite IH. split; intros E; [now subst | now inversion E].
Qed.

Lemma compare_lt_iff a b : compare a b = -1 <-> lex_lt a b.
Proof.
  revert b. induction a as [|x a IH]; intros [|y b].
  - split; [discriminate | intros H; inversion H].
  - rewrite compare_nil_l. split; [constructor | reflexivity].
  - rewrite compare_nil_r. split; [discriminate | intros H; inversion H].
  - rewrite compare_cons.
    destruct (Z.ltb_spec (byte_val x) (byte_val y)) as [Hlt|Hge].
    + split; [now constructor | reflexivity].
    + destruct (Z.gtb_spec (byte_val x) (byte_val y)) as [Hgt|Hle].
      * split; [discriminate|]. intros H. inversion H; subst; lia.
      * assert (x = y) by (apply byte_val_inj; lia). subst y.
        rewrite IH. split; intros H; [now constructor|].
        inversion H; subst; [lia | assumption].
Qed.

Lemma compare_gt_iff a b : compare a b = 1 <-> lex_lt b a.
Proof.
  revert b. induction a as [|x a IH]; intros [|y b].
  - split; [discriminate | intros H; inversion H].
  - rewrite compare_nil_l. split; [discriminate | intros H; inversion H].
  - rewrite compare_nil_r. split; [constructor | reflexivity].
  - rewrite compare_cons.
    destruct (Z.ltb_spec (byte_val x) (byte_val y)) as [Hlt|Hge].
    + split; [discriminate|]. intros H. inversion H; subst; lia.
    + destruct (Z.gtb_spec (byte_val x) (byte_val y)) as [Hgt|Hle].
      * split; [intros _; constructor; lia | reflexivity].
      * assert (x = y) by (apply byte_val_inj; lia). subst y.
        rewrite IH. split; intros H; [now constructor|].
        inversion H; subst; [lia | assumption].
Qed.

Lemma compare_eqb_true a b : a = b -> (compare a b =? 0) = true.
Proof. intros E. apply Z.eqb_eq. now apply compare_eq_iff. Qed.

Lemma compare_eqb_false a b : a <> b -> (compare a b =? 0) = false.
Proof. intros E. apply Z.eqb_neq. now rewrite compare_eq_iff. Qed.

End SafeBufferFacts.

(** ** The monad *)

Lemma bind_returned {St A B} (m : M St A) (f : A -> M St B) w a w' :
  m w = (Returned a, w') -> bind m f w = f a w'.
Proof. intros H. unfold bind. now rewrite H. Qed.

Lemma bind_thrown {St A B} (m : M St A) (f : A -> M St B) w e w' :
  m w = (Thrown e, w') -> bind m f w = (Thrown e, w').
Proof. intros H. unfold bind. now rewrite H. Qed.

(** C10: [SafeBuffer.compare(a, b)] is 0 exactly when [a] and [b] are the same
    bytes, and otherwise -1 or 1 by lexicographic order with a proper prefix
    first; [add] takes its duplicate branch exactly when the stored content
    and the incoming content are byte-for-byte equal, and its collision
    branch otherwise. *)
Theorem compare_is_byte_equality :
  (forall a b : Buffer,
      (SafeBuffer.compare a b = 0 <-> a = b) /\
      (SafeBuffer.compare a b = -1 <-> lex_lt a b) /\
      (SafeBuffer.compare a b = 1 <-> lex_lt b a) /\
      (SafeBuffer.compare a b = 0 \/ SafeBuffer.compare a b = -1 \/
       SafeBuffer.compare a b = 1))%Z /\
  (forall (hierarchy : string -> option string) (St : Type) (engine : Engine St)
          (card existing : Card) (w w1 : World St),
      engine_get engine (hash card) w = (Returned (Some existing), w1) ->
      (content existing = content card ->
       CardCollection.add hierarchy engine (Some card) w =
       CardCollection.add_duplicate engine existing w1) /\
      (content existing <> content card ->
       CardCollection.add hierarchy engine (Some card) w =
       CardCollection.add_collision hierarchy engine card existing w1)).
Proof.
  split.
  - intros a b. repeat split;
      try apply SafeBufferFacts.compare_eq_iff;
      try apply SafeBufferFacts.compare_lt_iff;
      try apply SafeBufferFacts.compare_gt_iff.
    destruct (list_eq_dec Byte.byte_eq_dec a b) as [E|N].
    + left. now apply SafeBufferFacts.compare_eq_iff.
    + right.
      assert (T : forall u v : Buffer, u <> v -> lex_lt u v \/ lex_lt v u).
      { induction u as [|x u IH]; intros [|y v] Huv.
        - congruence.
        - left. constructor.
        - right. constructor.
        - destruct (Z.lt_trichotomy (byte_val x) (byte_val y)) as [H|[H|H]].
          + left. now constructor.
          + apply byte_val_inj in H. subst y.
            destruct (IH v) as [L|L]; [congruence | |];
              [left | right]; now constructor.
          + right. now constructor. }
      destruct (T a b N) as [L|L];
        [left; now apply SafeBufferFacts.compare_lt_iff
        | right; now apply SafeBufferFacts.compare_gt_iff].
  - intros hierarchy St engine card existing w w1 Hget. split; intros Hc.
    + unfold CardCollection.add, CardCollection.get.
      rewrite (bind_returned _ _ _ Hget).
      now rewrite SafeBufferFacts.compare_eqb_true.
    + unfold CardCollection.add, CardCollection.get.
      rewrite (bind_returned _ _ _ Hget).
      now rewrite SafeBufferFacts.compare_eqb_false.
Qed.

(** ** Content type detection *)

Module DetectorFacts.
Import ContentTypeInterpreter.
Local Open Scope Z_scope.

Lemma first_match_in table data mime :
  first_match table data = Some mime -> In mime (map fst table).
Proof.
  induction table as [|[m sigs] table IH]; simpl; [discriminate|].
  destruct (existsb _ sigs).
  - intros E. inversion E. now left.
  - intros E. right. now apply IH.
Qed.

Lemma signature_types :
  map fst signatures =
  ["image/jpeg"; "image/png"; "image/gif"; "image/webp"; "image/bmp";
   "application/pdf"; "audio/mpeg"; "audio/wav"; "video/mp4"; "video/webm";
   "application/zip"; "application/gzip"].
Proof. reflexivity. Qed.

Lemma first_match_not_fallback data mime :
  first_match signatures data = Some mime ->
  mime <> "text/plain" /\ mime <> "application/octet-stream".
Proof.
  intros H. apply first_match_in in H. rewrite signature_types in H.
  simpl in H. split; intros ->; intuition discriminate.
Qed.

Lemma no_nul_iff (data : Buffer) :
  existsb (fun b => byte_val b =? 0) data = false <->
  (forall b, In b data -> byte_val b <> 0).
Proof.
  induction data as [|x data IH]; simpl.
  - split; [intros _ b [] | reflexivity].
  - rewrite orb_false_iff, IH, Z.eqb_neq. split.
    + intros [Hx Hd] b [<-|Hb]; [assumption | now apply Hd].
    + intros H. split; [apply H; now left | intros b Hb; apply H; now right].
Qed.

(** More than nine bytes in ten are printable and none is NUL. *)
Definition mostly_printable (data : Buffer) : Prop :=
  (forall b, In b data -> byte_val b <> 0) /\
  9 * Z.of_nat (length data) < 10 * Z.of_nat (length (filter printable data)).

Lemma isTextContent_iff (data : Buffer) :
  data <> [] -> (isTextContent data = true <-> mostly_printable data).
Proof.
  intros Hne. unfold isTextContent, mostly_printable.
  destruct data as [|x data]; [congruence|].
  cbn [length Nat.eqb].
  destruct (existsb (fun b => byte_val b =? 0) (x :: data)) eqn:E.
  - split; [discriminate|]. intros [H _].
    apply (proj2 (no_nul_iff (x :: data))) in H. congruence.
  - pose proof (proj1 (no_nul_iff (x :: data)) E) as E'.
    rewrite Z.gtb_ltb, Z.ltb_lt. tauto.
Qed.

Lemma detectType_short (data : Buffer) :
  (length data < 4)%nat -> detectType data = "application/octet-stream".
Proof.
  intros H. unfold detectType. apply Nat.ltb_lt in H. now rewrite H.
Qed.

Lemma detectType_long (data : Buffer) :
  (4 <= length data)%nat ->
  detectType data =
  match first_match signatures data with
  | Some mimeType => mimeType
  | None => if isTextContent data then "text/plain" else "application/octet-stream"
  end.
Proof.
  intros H. unfold detectType.
  destruct (Nat.ltb_spec (length data) 4); [lia | reflexivity].
Qed.

Lemma detectType_text_iff (data : Buffer) :
  detectType data = "text/plain" <->
  (4 <= length data)%nat /\ first_match signatures data = None /\
  mostly_printable data.
Proof.
  destruct (Nat.lt_ge_cases (length data) 4) as [Hs|Hl].
  - rewrite (detectType_short _ Hs). split; [discriminate | intros [H _]; lia].
  - rewrite (detectType_long _ Hl).
    assert (Hne : data <> []) by (intros ->; simpl in Hl; lia).
    destruct (first_match signatures data) as [m|] eqn:E.
    + apply first_match_not_fallback in E. destruct E as [E1 E2].
      split; [congruence | intros (_ & H & _); discriminate].
    + rewrite <- (isTextContent_iff Hne).
      destruct (isTextContent data); split; try discriminate; try tauto.
      intros (_ & _ & H). discriminate.
Qed.

Lemma detectType_binary_iff (data : Buffer) :
  detectType data = "application/octet-stream" <->
  (length data < 4)%nat \/
  (first_match signatures data = None /\ ~ mostly_printable data).
Proof.
  destruct (Nat.lt_ge_cases (length data) 4) as [Hs|Hl].
  - rewrite (detectType_short _ Hs). split; [now left | reflexivity].
  - rewrite (detectType_long _ Hl).
    assert (Hne : data <> []) by (intros ->; simpl in Hl; lia).
    destruct (first_match signatures data) as [m|] eqn:E.
    + apply first_match_not_fallback in E. destruct E as [E1 E2].
      split; [congruence | intros [H|[H _]]; [lia | discriminate]].
    + rewrite <- (isTextContent_iff Hne).
      destruct (isTextContent data); split; try discriminate.
      * intros [H|[_ H]]; [lia | now exfalso; apply H].
      * intros _. right. split; [reflexivity | discriminate].
      * reflexivity.
Qed.

Lemma detectType_png (rest : Buffer) :
  detectType (png_magic ++ rest)%list = "image/png".
Proof. reflexivity. Qed.

End DetectorFacts.

Lemma MCardFromData_content_type {St} (w w' : World St) data hash_value g_time_str card :
  MCardFromData (CBuffer data) hash_value g_time_str w = (Returned card, w') ->
  content_type card = Some (ContentTypeInterpreter.detectType data).
Proof.
  unfold MCardFromData. cbn [falsy_content].
  destruct (falsy_string hash_value); [discriminate|].
  destruct (falsy_string g_time_str); [discriminate|].
  unfold bind.
  destruct (MCard_new _ _ _ w) as [[parent|e] w2]; [|discriminate].
  unfold ret. intros E. inversion E. reflexivity.
Qed.

(** C8 (as amended): a card rebuilt from a persisted row carries the type
    [detectType] gives its bytes.  With at least four bytes, the first entry
    of the signature table with a matching prefix decides (a PNG prefix gives
    image/png); with no match the type is text/plain exactly when no byte is
    NUL and more than nine bytes in ten are printable ASCII, tab, LF or CR;
    it is application/octet-stream in every other case, among them every
    buffer shorter than four bytes. *)
Theorem row_card_content_type :
  forall (St : Type) (w w' : World St) (data : Buffer)
         (hash_value g_time_str : Arg string) (card : Card),
    MCardFromData (CBuffer data) hash_value g_time_str w = (Returned card, w') ->
    let detected := ContentTypeInterpreter.detectType data in
    content_type card = Some detected /\
    (forall mime,
        (4 <= length data)%nat ->
        ContentTypeInterpreter.first_match ContentTypeInterpreter.signatures data
          = Some mime ->
        detected = mime) /\
    (detected = "text/plain" <->
     (4 <= length data)%nat /\
     ContentTypeInterpreter.first_match ContentTypeInterpreter.signatures data = None /\
     DetectorFacts.mostly_printable data) /\
    (detected = "application/octet-stream" <->
     (length data < 4)%nat \/
     (ContentTypeInterpreter.first_match ContentTypeInterpreter.signatures data = None /\
      ~ DetectorFacts.mostly_printable data)) /\
    (forall rest, data = (png_magic ++ rest)%list -> detected = "image/png").
Proof.
  intros St w w' data hash_value g_time_str card H detected.
  split; [exact (MCardFromData_content_type _ _ _ _ H)|].
  split.
  { intros mime Hl Hm. unfold detected.
    rewrite (DetectorFacts.detectType_long _ Hl). now rewrite Hm. }
  split; [apply DetectorFacts.detectType_text_iff|].
  split; [apply DetectorFacts.detectType_binary_iff|].
  intros rest ->. apply DetectorFacts.detectType_png.
Qed.

(** ** The digest service *)

Module HashFacts.

Lemma hex_digit_lower n : lower_hex_char (Crypto.hex_digit n) = true.
Proof.
  unfold Crypto.hex_digit. generalize (Z.to_nat n). intros k.
  do 16 (destruct k as [|k]; [reflexivity|]). destruct k; reflexivity.
Qed.

Lemma hex_lower bs : string_forallb lower_hex_char (Crypto.hex bs) = true.
Proof.
  induction bs as [|b bs IH]; [reflexivity|].
  cbn [Crypto.hex string_forallb]. now rewrite !hex_digit_lower, IH.
Qed.

Lemma length_hex_Z bs :
  Z.of_nat (String.length (Crypto.hex bs)) = (2 * Z.of_nat (length bs))%Z.
Proof. rewrite CryptoFacts.length_hex. lia. Qed.

(** Every digest function of the service yields lowercase hex, twice as
    many characters as the length table gives bytes. *)
Lemma createHash_digest name h :
  createHash name = Some h ->
  exists n,
    HASH_LENGTHS name = Some n /\
    forall data,
      Z.of_nat (String.length (h data)) = (2 * n)%Z /\
      string_forallb lower_hex_char (h data) = true.
Proof.
  unfold createHash.
  destruct (String.eqb_spec name HashAlgorithm.MD5) as [->|_].
  { intros E. injection E as <-. exists 16%Z. split; [reflexivity|]. intros data.
    rewrite length_hex_Z, CryptoFacts.length_md5, hex_lower. now split. }
  destruct (String.eqb_spec name HashAlgorithm.SHA1) as [->|_].
  { intros E. injection E as <-. exists 20%Z. split; [reflexivity|]. intros data.
    rewrite length_hex_Z, CryptoFacts.length_sha1, hex_lower. now split. }
  destruct (String.eqb_spec name HashAlgorithm.SHA224) as [->|_].
  { intros E. injection E as <-. exists 28%Z. split; [reflexivity|]. intros data.
    rewrite length_hex_Z, CryptoFacts.length_sha224, hex_lower. now split. }
  destruct (String.eqb_spec name HashAlgorithm.SHA256) as [->|_].
  { intros E. injection E as <-. exists 32%Z. split; [reflexivity|]. intros data.
    rewrite length_hex_Z, CryptoFacts.length_sha256, hex_lower. now split. }
  destruct (String.eqb_spec name HashAlgorithm.SHA384) as [->|_].
  { intros E. injection E as <-. exists 48%Z. split; [reflexivity|]. intros data.
    rewrite length_hex_Z, CryptoFacts.length_sha384, hex_lower. now split. }
  destruct (String.eqb_spec name HashAlgorithm.SHA512) as [->|_].
  { intros E. injection E as <-. exists 64%Z. split; [reflexivity|]. intros data.
    rewrite length_hex_Z, CryptoFacts.length_sha512, hex_lower. now split. }
  discriminate.
Qed.

Lemma createHash_default :
  createHash HashAlgorithm.DEFAULT =
  Some (fun b : Buffer => Crypto.hex (Crypto.sha256 (map byte_val b))).
Proof. reflexivity. Qed.


Lemma hash_fields_known name h data :
  createHash name = Some h -> hash_fields data name = Returned (h data, name).
Proof.
  intros H. unfold hash_fields, HashAlgorithm_call, computeHash, digest_hex.
  cbv zeta. rewrite !H. reflexivity.
Qed.

Lemma digest_hex_known name h data :
  createHash name = Some h -> digest_hex name data = Returned (h data).
Proof. intros H. unfold digest_hex. now rewrite H. Qed.

End HashFacts.

(** ** The card constructor *)

Module CardFacts.

Lemma to_buffer_class (c : Content) :
  match spec_content_class c with
  | Normalized data => to_buffer c = Returned data
  | _ => exists msg, to_buffer c = Thrown (MkError InvalidContent msg)
  end.
Proof.
  destruct c as [| |b|s|props|props|elements|z|b]; cbn; eauto.
  destruct props; cbn; eauto.
Qed.

Lemma nonempty_length (data : Buffer) : data <> [] -> Nat.eqb (length data) 0 = false.
Proof. destruct data; [congruence | reflexivity]. Qed.

Lemma MCard_new_unfold {St} c hashFunction forceHashAlgorithm (w : World St) :
  c <> CNull -> hashFunction <> Null ->
  MCard_new c hashFunction forceHashAlgorithm w =
  bind (lift (to_buffer c)) (fun data =>
    if Nat.eqb (length data) 0 then
      throw EmptyContent "Content cannot be empty after conversion to Buffer."
    else
      bind (lift (hash_fields data
                    (forced_algorithm forceHashAlgorithm
                       (chosen_algorithm hashFunction)))) (fun ha =>
      bind (GTime.stamp_now (snd ha)) (fun stamp =>
      ret {| content := data; hash := fst ha; hash_algorithm := snd ha;
             g_time := stamp; originalContentType := typeof c;
             hash_function := None; content_type := None |}))) w.
Proof.
  intros Hc Hf.
  destruct c; try congruence; destruct hashFunction; congruence || reflexivity.
Qed.

Lemma MCard_new_rejects {St} c hashFunction forceHashAlgorithm (w : World St) msg :
  hashFunction <> Null ->
  to_buffer c = Thrown (MkError InvalidContent msg) ->
  thrown (MCard_new c hashFunction forceHashAlgorithm w) = Some InvalidContent /\
  snd (MCard_new c hashFunction forceHashAlgorithm w) = w.
Proof.
  intros Hf Hb. destruct c; try (split; reflexivity);
    (rewrite MCard_new_unfold by congruence; unfold bind, lift;
     rewrite Hb; split; reflexivity).
Qed.

Lemma MCard_new_empty {St} c hashFunction forceHashAlgorithm (w : World St) :
  hashFunction <> Null ->
  to_buffer c = Returned [] ->
  MCard_new c hashFunction forceHashAlgorithm w =
  (Thrown (MkError EmptyContent
             "Content cannot be empty after conversion to Buffer."), w).
Proof.
  intros Hf Hb. rewrite MCard_new_unfold; [|intros ->; discriminate|assumption].
  unfold bind, lift. now rewrite Hb.
Qed.

(** The constructor on a supported input: the fields of the new card. *)
Lemma MCard_new_known {St} c hashFunction data h (w : World St) :
  hashFunction <> Null ->
  to_buffer c = Returned data ->
  data <> [] ->
  createHash (chosen_algorithm hashFunction) = Some h ->
  MCard_new c hashFunction None w =
  (Returned (fresh_card data (h data) (chosen_algorithm hashFunction)
               (wall_clock w (reads w)) (region w) (typeof c)),
   tick w).
Proof.
  intros Hf Hb Hd Hh.
  rewrite MCard_new_unfold; [|intros ->; discriminate|assumption].
  unfold bind, lift. rewrite Hb, (nonempty_length Hd).
  cbn [forced_algorithm]. rewrite (HashFacts.hash_fields_known _ _ Hh).
  reflexivity.
Qed.

(** A card of a buffer under the default algorithm (an event card). *)
Lemma MCard_new_default_buffer {St} data (w : World St) :
  data <> [] ->
  MCard_new (CBuffer data) Absent None w =
  (Returned (fresh_card data (Crypto.hex (Crypto.sha256 (map byte_val data)))
               HashAlgorithm.DEFAULT (wall_clock w (reads w)) (region w) "object"),
   tick w).
Proof.
  intros Hd.
  now rewrite (@MCard_new_known St (CBuffer data) Absent data _ w
                 ltac:(discriminate) eq_refl Hd HashFacts.createHash_default).
Qed.

(** The constructor never touches the store, whatever it is given. *)
Lemma MCard_new_store {St} c hashFunction forceHashAlgorithm (w : World St) :
  let w' := snd (MCard_new c hashFunction forceHashAlgorithm w) in
  store w' = store w /\ wall_clock w' = wall_clock w /\ region w' = region w.
Proof.
  destruct c; try (now repeat split);
    (destruct hashFunction; try (now repeat split);
     unfold MCard_new, bind, lift;
     (destruct (to_buffer _) as [data|e]; [|now repeat split]);
     (destruct (Nat.eqb (length data) 0); [now repeat split|]);
     (destruct (hash_fields _ _) as [ha|e]; now repeat split)).
Qed.

End CardFacts.



(** What the constructor returns on a supported input under a known
    algorithm. *)
Lemma MCard_new_returned {St} (w w' : World St) c hashFunction card :
  hashFunction <> Null ->
  createHash (chosen_algorithm hashFunction) <> None ->
  MCard_new c hashFunction None w = (Returned card, w') ->
  exists data h,
    spec_content_class c = Normalized data /\ data <> [] /\
    createHash (chosen_algorithm hashFunction) = Some h /\
    card = fresh_card data (h data) (chosen_algorithm hashFunction)
             (wall_clock w (reads w)) (region w) (typeof c) /\
    w' = tick w.
Proof.
  intros Hf Hk H.
  destruct (createHash (chosen_algorithm hashFunction)) as [h|] eqn:Hh;
    [clear Hk | congruence].
  pose proof (CardFacts.to_buffer_class c) as Hc.
  destruct (spec_content_class c) as [| | |data] eqn:Ec.
  1-3: destruct Hc as [msg Hc];
       destruct (CardFacts.MCard_new_rejects c None w Hf Hc) as [T _];
       rewrite H in T; discriminate.
  destruct data as [|b data].
  - rewrite (CardFacts.MCard_new_empty c None w Hf Hc) in H. discriminate.
  - rewrite (CardFacts.MCard_new_known c w Hf Hc ltac:(discriminate) Hh) in H.
    inversion H. exists (b :: data), h. repeat split; congruence.
Qed.

Lemma HASH_LENGTHS_positive name n : HASH_LENGTHS name = Some n -> (0 < n)%Z.
Proof.
  unfold HASH_LENGTHS.
  destruct (name =? "md5"); [intros E; inversion E; lia|].
  destruct (name =? "sha1"); [intros E; inversion E; lia|].
  destruct (name =? "sha224"); [intros E; inversion E; lia|].
  destruct (name =? "sha256"); [intros E; inversion E; lia|].
  destruct (name =? "sha384"); [intros E; inversion E; lia|].
  destruct (name =? "sha512"); [intros E; inversion E; lia|].
  discriminate.
Qed.

Lemma known_algorithm_names name h :
  createHash name = Some h ->
  In name ["md5"; "sha1"; "sha224"; "sha256"; "sha384"; "sha512"].
Proof.
  unfold createHash.
  destruct (String.eqb_spec name HashAlgorithm.MD5) as [->|_]; [cbn; tauto|].
  destruct (String.eqb_spec name HashAlgorithm.SHA1) as [->|_]; [cbn; tauto|].
  destruct (String.eqb_spec name HashAlgorithm.SHA224) as [->|_]; [cbn; tauto|].
  destruct (String.eqb_spec name HashAlgorithm.SHA256) as [->|_]; [cbn; tauto|].
  destruct (String.eqb_spec name HashAlgorithm.SHA384) as [->|_]; [cbn; tauto|].
  destruct (String.eqb_spec name HashAlgorithm.SHA512) as [->|_]; [cbn; tauto|].
  discriminate.
Qed.

(** The stamp of a known algorithm gives the algorithm back. *)
Lemma get_hash_function_stamp name h rest :
  createHash name = Some h ->
  GTime.get_hash_function (name ++ "|" ++ rest) = name.
Proof.
  intros H. apply known_algorithm_names in H. cbn [In] in H.
  repeat (destruct H as [<-|H]; [reflexivity|]). contradiction.
Qed.

(** The cards the constructor builds are well formed: the engine can rebuild
    them from their rows. *)
Lemma MCard_new_well_formed {St} (w w' : World St) c hashFunction card :
  hashFunction <> Null ->
  createHash (chosen_algorithm hashFunction) <> None ->
  MCard_new c hashFunction None w = (Returned card, w') ->
  well_formed card.
Proof.
  intros Hf Hk H.
  destruct (@MCard_new_returned St w w' c hashFunction card Hf Hk H)
    as (data & h & _ & Hd & Hh & -> & _).
  destruct (HashFacts.createHash_digest _ Hh) as (n & Hn & Hdig).
  destruct (Hdig data) as [Hlen _]. apply HASH_LENGTHS_positive in Hn.
  unfold well_formed, well_formed_row.
  cbn [MemoryEngine.row_of MemoryEngine.row_content MemoryEngine.row_hash
       MemoryEngine.row_g_time fresh_card content hash g_time].
  split; [assumption|]. split.
  - intros E. rewrite E in Hlen. cbn [String.length Z.of_nat] in Hlen. lia.
  - rewrite (@get_hash_function_stamp _ h _ Hh). congruence.
Qed.






(** ** The in-memory engine *)

Module MemoryFacts.
Import MemoryEngine.

Lemma lookup_hash h rows r : lookup h rows = Some r -> row_hash r = h.
Proof.
  unfold lookup. intros H. apply find_some in H. destruct H as [_ H].
  now apply String.eqb_eq.
Qed.

Lemma lookup_app h rows r :
  lookup h (rows ++ [r])%list =
  match lookup h rows with
  | Some x => Some x
  | None => if has_hash h r then Some r else None
  end.
Proof.
  unfold lookup. induction rows as [|x rows IH]; cbn.
  - destruct (has_hash h r); reflexivity.
  - destruct (has_hash h x); [reflexivity | exact IH].
Qed.

Lemma lookup_app_found h rows r x :
  lookup h rows = Some x -> lookup h (rows ++ [r])%list = Some x.
Proof. intros H. now rewrite lookup_app, H. Qed.

Lemma lookup_app_new rows c :
  lookup (hash c) rows = None ->
  lookup (hash c) (rows ++ [row_of c])%list = Some (row_of c).
Proof.
  intros H. rewrite lookup_app, H. unfold has_hash. cbn [row_of row_hash].
  now rewrite String.eqb_refl.
Qed.

Lemma lookup_app_other h rows c :
  lookup h rows = None -> hash c <> h ->
  lookup h (rows ++ [row_of c])%list = None.
Proof.
  intros H N. rewrite lookup_app, H. unfold has_hash. cbn [row_of row_hash].
  destruct (String.eqb_spec (hash c) h); [contradiction | reflexivity].
Qed.

Lemma add_fresh c (w : World Rows) :
  lookup (hash c) (store w) = None ->
  add c w = (Returned tt, set_store w (store w ++ [row_of c])%list).
Proof. intros H. unfold add. now rewrite H. Qed.

Lemma add_conflict c (w : World Rows) r :
  lookup (hash c) (store w) = Some r ->
  add c w =
  (Thrown (MkError HashConflict "Card with this hash already exists"), w).
Proof. intros H. unfold add. now rewrite H. Qed.

Lemma MCard_new_buffer_returned {St} data hashFunction forceHashAlgorithm
      (w w' : World St) parent :
  MCard_new (CBuffer data) hashFunction forceHashAlgorithm w = (Returned parent, w') ->
  content parent = data /\ data <> [] /\ w' = tick w.
Proof.
  destruct hashFunction as [| |f]; [|discriminate|];
    (unfold MCard_new, bind, lift; cbn [to_buffer];
     destruct data as [|b data]; [discriminate|]; cbn [length Nat.eqb];
     destruct (hash_fields _ _) as [ha|e]; [|discriminate];
     unfold GTime.stamp_now, now, bind, ret; intros E; inversion E;
     repeat split; discriminate).
Qed.

Lemma card_from_row_returned r (w w' : World Rows) c :
  card_from_row r w = (Returned c, w') ->
  content c = row_content r /\ hash c = row_hash r /\ g_time c = row_g_time r /\
  w' = tick w.
Proof.
  unfold card_from_row, MCardFromData.
  cbn [falsy_content falsy_string given_string].
  destruct (row_hash r =? ""); [discriminate|].
  destruct (row_g_time r =? ""); [discriminate|].
  unfold bind.
  destruct (MCard_new _ _ _ w) as [[parent|e] w2] eqn:E; [|discriminate].
  apply MCard_new_buffer_returned in E. destruct E as (Ec & _ & ->).
  unfold ret. intros H. inversion H. cbn. now repeat split.
Qed.

Lemma card_from_row_store r (w : World Rows) :
  store (snd (card_from_row r w)) = store w.
Proof.
  unfold card_from_row, MCardFromData.
  cbn [falsy_content falsy_string given_string].
  destruct (row_hash r =? ""); [reflexivity|].
  destruct (row_g_time r =? ""); [reflexivity|].
  unfold bind.
  pose proof (CardFacts.MCard_new_store (CBuffer (row_content r))
                (Given (GTime.get_hash_function (row_g_time r))) None w) as S.
  cbv zeta in S.
  destruct (MCard_new _ _ _ w) as [[parent|e] w2]; cbn in *; tauto.
Qed.

Lemma well_formed_stamp r : well_formed_row r -> row_g_time r <> "".
Proof.
  intros (_ & _ & H) E. rewrite E in H. now apply H.
Qed.

Lemma card_from_row_ok r (w : World Rows) :
  well_formed_row r -> card_from_row r w = (Returned (card_of_row r), tick w).
Proof.
  intros Hr. pose proof (well_formed_stamp Hr) as Hg.
  destruct Hr as (Hc & Hh & Hk).
  destruct (createHash (GTime.get_hash_function (row_g_time r))) as [h|] eqn:E;
    [clear Hk | congruence].
  unfold card_from_row, MCardFromData.
  cbn [falsy_content falsy_string given_string].
  destruct (String.eqb_spec (row_hash r) ""); [contradiction|].
  destruct (String.eqb_spec (row_g_time r) ""); [contradiction|].
  unfold bind.
  rewrite (@CardFacts.MCard_new_known Rows (CBuffer (row_content r))
             (Given (GTime.get_hash_function (row_g_time r)))
             (row_content r) h w ltac:(discriminate) eq_refl Hc E).
  reflexivity.
Qed.

(** [get] reads the store and the clock and writes nothing. *)
Lemma get_store h (w : World Rows) : store (snd (get h w)) = store w.
Proof.
  unfold get. destruct (lookup h (store w)) as [r|]; [|reflexivity].
  unfold bind. pose proof (card_from_row_store r w) as S.
  destruct (card_from_row r w) as [[c|e] w2]; exact S.
Qed.

Lemma get_some h (w w' : World Rows) c :
  get h w = (Returned (Some c), w') ->
  exists r, lookup h (store w) = Some r /\
            content c = row_content r /\ hash c = h /\ w' = tick w.
Proof.
  unfold get. destruct (lookup h (store w)) as [r|] eqn:L; [|discriminate].
  unfold bind. destruct (card_from_row r w) as [[c'|e] w2] eqn:E; [|discriminate].
  unfold ret. intros H. inversion H. subst c' w2.
  apply card_from_row_returned in E. destruct E as (Ec & Eh & _ & ->).
  exists r. rewrite Eh, (lookup_hash _ _ L). now repeat split.
Qed.

Lemma get_none h (w w' : World Rows) :
  get h w = (Returned None, w') -> lookup h (store w) = None /\ w' = w.
Proof.
  unfold get. destruct (lookup h (store w)) as [r|] eqn:L.
  - unfold bind. destruct (card_from_row r w) as [[c'|e] w2]; discriminate.
  - intros H. inversion H. now split.
Qed.

Lemma get_missing h (w : World Rows) :
  lookup h (store w) = None -> get h w = (Returned None, w).
Proof. intros L. unfold get. now rewrite L. Qed.

Lemma get_found h (w : World Rows) r :
  lookup h (store w) = Some r -> well_formed_row r ->
  get h w = (Returned (Some (card_of_row r)), tick w).
Proof.
  intros L Hr. unfold get. rewrite L. unfold bind.
  now rewrite (card_from_row_ok w Hr).
Qed.

End MemoryFacts.

(** ** The collection's [add] *)

Module AddFacts.
Import MemoryEngine.

Section AnyEngine.
Variable hierarchy : string -> option string.
Variable St : Type.
Variable engine : Engine St.

Lemma add_missing (card : Card) (w w1 : World St) :
  engine_get engine (hash card) w = (Returned None, w1) ->
  CardCollection.add hierarchy engine (Some card) w =
  bind (engine_add engine card) (fun _ => ret (hash card)) w1.
Proof.
  intros H. unfold CardCollection.add, CardCollection.get.
  now rewrite (bind_returned _ _ _ H).
Qed.

Lemma add_found_equal (card existing : Card) (w w1 : World St) :
  engine_get engine (hash card) w = (Returned (Some existing), w1) ->
  content existing = content card ->
  CardCollection.add hierarchy engine (Some card) w =
  CardCollection.add_duplicate engine existing w1.
Proof.
  intros H Hc. unfold CardCollection.add, CardCollection.get.
  rewrite (bind_returned _ _ _ H).
  now rewrite SafeBufferFacts.compare_eqb_true.
Qed.

Lemma add_found_differs (card existing : Card) (w w1 : World St) :
  engine_get engine (hash card) w = (Returned (Some existing), w1) ->
  content existing <> content card ->
  CardCollection.add hierarchy engine (Some card) w =
  CardCollection.add_collision hierarchy engine card existing w1.
Proof.
  intros H Hc. unfold CardCollection.add, CardCollection.get.
  rewrite (bind_returned _ _ _ H).
  now rewrite SafeBufferFacts.compare_eqb_false.
Qed.

Lemma add_get_thrown (card : Card) (w w1 : World St) e :
  engine_get engine (hash card) w = (Thrown e, w1) ->
  CardCollection.add hierarchy engine (Some card) w = (Thrown e, w1).
Proof.
  intros H. unfold CardCollection.add, CardCollection.get.
  now rewrite (bind_thrown _ _ _ H).
Qed.

(** The bytes of an event payload are not empty. *)
Lemma payload_nonempty props :
  SafeBuffer.from (JSON_stringify (JObject props)) <> [].
Proof. cbn. discriminate. Qed.

Lemma event_card_returns props (w : World St) :
  CardCollection.event_card (JSON_stringify (JObject props)) w =
  (Returned (event_card_at (JObject props) (wall_clock w (reads w)) (region w)),
   tick w).
Proof.
  unfold CardCollection.event_card.
  now rewrite (CardFacts.MCard_new_default_buffer w (@payload_nonempty props)).
Qed.

End AnyEngine.

(** The duplicate branch on the in-memory engine: one event card is written,
    unless its hash is taken. *)
Lemma add_duplicate_memory (existing : Card) (w1 : World Rows) :
  let event :=
    event_card_at
      (EventProducer.duplication_event existing (wall_clock w1 (reads w1)))
      (wall_clock w1 (S (reads w1))) (region w1) in
  CardCollection.add_duplicate engine existing w1 =
  match lookup (hash event) (store w1) with
  | None =>
      (Returned (hash event),
       set_store (tick (tick w1)) (store w1 ++ [row_of event])%list)
  | Some _ =>
      (Thrown (MkError HashConflict "Card with this hash already exists"),
       tick (tick w1))
  end.
Proof.
  intros event. unfold CardCollection.add_duplicate.
  unfold EventProducer.generateDuplicationEvent, now, bind at 1 2, ret at 1.
  unfold EventProducer.duplication_event at 1.
  rewrite (bind_returned _ _ _ (event_card_returns _ (tick w1))).
  fold (EventProducer.duplication_event existing (wall_clock w1 (reads w1))).
  change (event_card_at _ (wall_clock (tick w1) (reads (tick w1))) (region (tick w1)))
    with event.
  cbn [engine_add engine].
  destruct (lookup (hash event) (store w1)) as [r|] eqn:L.
  - rewrite (bind_thrown _ _ _ (MemoryFacts.add_conflict event (tick (tick w1)) L)).
    reflexivity.
  - rewrite (bind_returned _ _ _ (MemoryFacts.add_fresh event (tick (tick w1)) L)).
    reflexivity.
Qed.

End AddFacts.

(** C1 (as amended): when the hash of the incoming card is present with the
    same bytes, [add] builds the duplicate event card of the stored card under
    the default algorithm; if that card's hash is not yet a key of the store,
    [add] writes this one row, leaves every stored row as it was and returns
    the event card's hash, which is not the incoming card's; if it is a key,
    the engine refuses the event card with HashConflict and nothing is
    written.  Hence, from a store without the hash of a well-formed card [c]:
    [add(c)] returns [c]'s hash, and a following [add(c')] of a card with
    that hash and the same bytes, whose event card's hash is free, leaves two
    rows more than at the start and [get(c.hash)] still gives [c]'s bytes. *)
Theorem duplicate_add_writes_one_event_card :
  (forall (hierarchy : string -> option string)
          (w w1 : World MemoryEngine.Rows) (card existing : Card),
      MemoryEngine.get (hash card) w = (Returned (Some existing), w1) ->
      content existing = content card ->
      let event :=
        event_card_at
          (EventProducer.duplication_event existing (wall_clock w1 (reads w1)))
          (wall_clock w1 (S (reads w1))) (region w1) in
      let result := CardCollection.add hierarchy MemoryEngine.engine (Some card) w in
      hash_algorithm event = HashAlgorithm.DEFAULT /\
      digest_hex HashAlgorithm.DEFAULT (content event) = Returned (hash event) /\
      (MemoryEngine.lookup (hash event) (store w) = None ->
       fst result = Returned (hash event) /\
       hash event <> hash card /\
       store (snd result) = (store w ++ [MemoryEngine.row_of event])%list /\
       row_count (snd result) = (row_count w + 1)%Z /\
       MemoryEngine.lookup (hash card) (store (snd result))
       = MemoryEngine.lookup (hash card) (store w)) /\
      (MemoryEngine.lookup (hash event) (store w) <> None ->
       thrown result = Some HashConflict /\ store (snd result) = store w)) /\
  (forall (hierarchy : string -> option string)
          (w : World MemoryEngine.Rows) (c c' : Card),
      well_formed c ->
      MemoryEngine.lookup (hash c) (store w) = None ->
      hash c' = hash c ->
      content c' = content c ->
      let first := CardCollection.add hierarchy MemoryEngine.engine (Some c) w in
      let second :=
        CardCollection.add hierarchy MemoryEngine.engine (Some c') (snd first) in
      let event :=
        event_card_at
          (EventProducer.duplication_event
             (card_of_row (MemoryEngine.row_of c)) (wall_clock w (S (reads w))))
          (wall_clock w (S (S (reads w)))) (region w) in
      fst first = Returned (hash c) /\
      (MemoryEngine.lookup (hash event) (store w) = None ->
       hash event <> hash c ->
       fst second = Returned (hash event) /\
       row_count (snd second) = (row_count w + 2)%Z /\
       exists got w',
         CardCollection.get MemoryEngine.engine (hash c) (snd second)
         = (Returned (Some got), w') /\
         content got = content c)).
Proof.
  split.
  - intros hierarchy w w1 card existing Hget Hc event result.
    destruct (MemoryFacts.get_some _ _ Hget) as (r & Lr & _ & _ & Hw1).
    assert (Hs : store w1 = store w) by (subst w1; reflexivity).
    split; [reflexivity|].
    split; [reflexivity|].
    assert (Hres : result = CardCollection.add_duplicate MemoryEngine.engine existing w1).
    { unfold result. now apply AddFacts.add_found_equal. }
    pose proof (AddFacts.add_duplicate_memory existing w1) as Hd.
    cbv zeta in Hd. fold event in Hd. rewrite Hs in Hd.
    split.
    + intros L. rewrite L in Hd. rewrite Hres, Hd. cbn [fst snd set_store store].
      split; [reflexivity|].
      split; [intros E; rewrite E in L; congruence|].
      split; [reflexivity|].
      split.
      * unfold row_count, set_store. cbn [store].
        rewrite length_app. cbn [length]. lia.
      * rewrite (MemoryFacts.lookup_app_found _ _ _ Lr). now rewrite Lr.
    + intros L. destruct (MemoryEngine.lookup (hash event) (store w)) as [x|];
        [|congruence].
      rewrite Hres, Hd. split; [reflexivity | exact Hs].
  - intros hierarchy w c c' Hwf Lc Hh Hcc first second event.
    assert (H1 : first = (Returned (hash c),
                          set_store w (store w ++ [MemoryEngine.row_of c])%list)).
    { unfold first.
      rewrite (@AddFacts.add_missing hierarchy _ MemoryEngine.engine c w w
                 (MemoryFacts.get_missing _ _ Lc)).
      cbn [engine_add MemoryEngine.engine].
      now rewrite (bind_returned _ _ _ (MemoryFacts.add_fresh c w Lc)). }
    split; [now rewrite H1|].
    intros Le Hne.
    set (w1 := set_store w (store w ++ [MemoryEngine.row_of c])%list) in *.
    assert (Lc1 : MemoryEngine.lookup (hash c') (store w1)
                  = Some (MemoryEngine.row_of c)).
    { rewrite Hh. unfold w1. cbn [store set_store].
      now apply MemoryFacts.lookup_app_new. }
    pose proof (MemoryFacts.get_found _ _ Lc1 Hwf) as Hget.
    assert (H2 : second = CardCollection.add_duplicate MemoryEngine.engine
                            (card_of_row (MemoryEngine.row_of c)) (tick w1)).
    { unfold second. rewrite H1. cbn [snd]. fold w1.
      apply (@AddFacts.add_found_equal hierarchy _ MemoryEngine.engine c'
               (card_of_row (MemoryEngine.row_of c)) w1 (tick w1) Hget).
      now rewrite Hcc. }
    pose proof (AddFacts.add_duplicate_memory
                  (card_of_row (MemoryEngine.row_of c)) (tick w1)) as Hd.
    cbv zeta in Hd.
    change (wall_clock (tick w1) (reads (tick w1))) with (wall_clock w (S (reads w))) in Hd.
    change (wall_clock (tick w1) (S (reads (tick w1))))
      with (wall_clock w (S (S (reads w)))) in Hd.
    change (region (tick w1)) with (region w) in Hd.
    fold event in Hd.
    change (store (tick w1)) with (store w ++ [MemoryEngine.row_of c])%list in Hd.
    rewrite (MemoryFacts.lookup_app_other _ _ Le (not_eq_sym Hne)) in Hd.
    rewrite H2, Hd. cbn [fst snd].
    split; [reflexivity|].
    split.
    + unfold row_count, set_store, w1, set_store. cbn [store].
      rewrite !length_app. cbn [length]. lia.
    + exists (card_of_row (MemoryEngine.row_of c)). eexists. split; [|reflexivity].
      unfold CardCollection.get. cbn [engine_get MemoryEngine.engine].
      apply MemoryFacts.get_found; [|exact Hwf].
      unfold set_store. cbn [store].
      apply MemoryFacts.lookup_app_found. now apply MemoryFacts.lookup_app_new.
Qed.

Module CollisionFacts.
Import MemoryEngine.

Lemma upgrade_some hierarchy name up :
  CardCollection.upgrade hierarchy name = Some up ->
  hierarchy name = Some up /\ up <> "".
Proof.
  unfold CardCollection.upgrade. destruct (hierarchy name) as [u|]; [|discriminate].
  destruct (String.eqb_spec u ""); [discriminate|].
  intros E. inversion E. subst. now split.
Qed.

Lemma hash_fields_unknown name data :
  createHash name = None -> name <> "" ->
  hash_fields data name =
  Thrown (MkError UnknownAlgorithm "Digest method not supported").
Proof.
  intros H N. unfold hash_fields, HashAlgorithm_call, computeHash, digest_hex.
  cbv zeta. rewrite H.
  destruct (String.eqb_spec name ""); [contradiction|]. now rewrite H.
Qed.

Lemma MCard_new_unknown {St} data name (w : World St) :
  data <> [] -> createHash name = None -> name <> "" ->
  MCard_new (CBuffer data) (Given name) None w =
  (Thrown (MkError UnknownAlgorithm "Digest method not supported"), w).
Proof.
  intros Hd Hn Hne.
  rewrite CardFacts.MCard_new_unfold by discriminate.
  unfold bind, lift. cbn [to_buffer]. rewrite (CardFacts.nonempty_length Hd).
  cbn [forced_algorithm chosen_algorithm].
  now rewrite (hash_fields_unknown data Hn Hne).
Qed.

(** The collision branch on the in-memory engine, case by case. *)
Lemma add_collision_memory hierarchy (card existing : Card) (w1 : World Rows) :
  CardCollection.add_collision hierarchy engine card existing w1 =
  match CardCollection.upgrade hierarchy (hash_algorithm card) with
  | None =>
      (Thrown (MkError NoStrongerAlgorithm "No stronger hash algorithm available"),
       tick w1)
  | Some up =>
      if Nat.eqb (length (content card)) 0 then
        (Thrown (MkError EmptyContent
                   "Content cannot be empty after conversion to Buffer."),
         tick w1)
      else
        match createHash up with
        | None =>
            (Thrown (MkError UnknownAlgorithm "Digest method not supported"),
             tick w1)
        | Some h =>
            let upgraded :=
              fresh_card (content card) (h (content card)) up
                (wall_clock w1 (S (reads w1))) (region w1) "object" in
            if up =? hash_algorithm card then
              (Thrown (MkError UpgradeFailed "Hash algorithm did not upgrade"),
               tick (tick w1))
            else if (hash_length_or_0 up <=? hash_length_or_0 (hash_algorithm card))%Z
            then
              (Thrown (MkError UpgradeFailed
                         "Hash algorithm upgrade did not increase hash length"),
               tick (tick w1))
            else
              match lookup (hash upgraded) (store w1) with
              | Some _ =>
                  (Thrown (MkError HashConflict "Card with this hash already exists"),
                   tick (tick w1))
              | None =>
                  let event :=
                    event_card_at
                      (EventProducer.collision_event hierarchy card existing
                         (wall_clock w1 (reads w1)))
                      (wall_clock w1 (S (S (reads w1)))) (region w1) in
                  let rows := (store w1 ++ [row_of upgraded])%list in
                  match lookup (hash event) rows with
                  | Some _ =>
                      (Thrown (MkError HashConflict
                                 "Card with this hash already exists"),
                       set_store (tick (tick (tick w1))) rows)
                  | None =>
                      (Returned (hash event),
                       set_store (tick (tick (tick w1)))
                         (rows ++ [row_of event])%list)
                  end
              end
        end
  end.
Proof.
  unfold CardCollection.add_collision.
  unfold EventProducer.generateCollisionEvent, now, bind at 1 2, ret at 1.
  destruct (CardCollection.upgrade hierarchy (hash_algorithm card)) as [up|] eqn:U;
    [|reflexivity].
  destruct (upgrade_some _ _ U) as [_ Hup].
  destruct (content card) as [|b data] eqn:C.
  { cbn [length Nat.eqb].
    now rewrite (bind_thrown _ _ _
      (@CardFacts.MCard_new_empty Rows (CBuffer []) (Given up) None (tick w1)
         ltac:(discriminate) eq_refl)). }
  cbn [length Nat.eqb].
  assert (Hd : b :: data <> []) by discriminate.
  destruct (createHash up) as [h|] eqn:K.
  2:{ now rewrite (bind_thrown _ _ _ (MCard_new_unknown (tick w1) Hd K Hup)). }
  rewrite (bind_returned _ _ _
    (@CardFacts.MCard_new_known Rows (CBuffer (b :: data)) (Given up) (b :: data) h
       (tick w1) ltac:(discriminate) eq_refl Hd K)).
  cbn [chosen_algorithm typeof fresh_card hash_algorithm].
  change (wall_clock (tick w1) (reads (tick w1))) with (wall_clock w1 (S (reads w1))).
  change (region (tick w1)) with (region w1).
  cbv zeta.
  destruct (up =? hash_algorithm card); [reflexivity|].
  destruct (hash_length_or_0 up <=? hash_length_or_0 (hash_algorithm card))%Z;
    [reflexivity|].
  cbn [engine_add engine].
  set (upgraded := fresh_card (b :: data) (h (b :: data)) up
                     (wall_clock w1 (S (reads w1))) (region w1) "object").
  change {| content := b :: data; hash := h (b :: data); hash_algorithm := up;
            g_time := up ++ "|" ++ wall_clock w1 (S (reads w1)) ++ "|" ++ region w1;
            originalContentType := "object"; hash_function := None;
            content_type := None |} with upgraded.
  destruct (lookup (hash upgraded) (store w1)) as [r|] eqn:L.
  { now rewrite (bind_thrown _ _ _ (MemoryFacts.add_conflict upgraded (tick (tick w1)) L)). }
  rewrite (bind_returned _ _ _ (MemoryFacts.add_fresh upgraded (tick (tick w1)) L)).
  unfold EventProducer.collision_event at 1.
  rewrite (bind_returned _ _ _ (AddFacts.event_card_returns _ _)).
  fold (EventProducer.collision_event hierarchy card existing
          (wall_clock w1 (reads w1))).
  set (event := event_card_at _ _ _).
  set (w3 := set_store (tick (tick w1)) _).
  change (store (tick (tick w1)) ++ [row_of upgraded])%list
    with (store w1 ++ [row_of upgraded])%list in *.
  destruct (lookup (hash event) (store w1 ++ [row_of upgraded])%list) as [r|] eqn:L2.
  - assert (L3 : lookup (hash event) (store (tick w3)) = Some r) by exact L2.
    now rewrite (bind_thrown _ _ _ (MemoryFacts.add_conflict event (tick w3) L3)).
  - assert (L3 : lookup (hash event) (store (tick w3)) = None) by exact L2.
    now rewrite (bind_returned _ _ _ (MemoryFacts.add_fresh event (tick w3) L3)).
Qed.

End CollisionFacts.

(** The hierarchy of section 3 leads from each algorithm to a known one
    with a strictly longer digest. *)
Lemma spec_hierarchy_upgrades (a up : string) :
  CardCollection.upgrade HASH_ALGORITHM_HIERARCHY a = Some up ->
  exists h n m,
    createHash up = Some h /\
    HASH_LENGTHS a = Some n /\ HASH_LENGTHS up = Some m /\ (n < m)%Z /\
    up <> a /\
    (up =? a) = false /\
    (hash_length_or_0 up <=? hash_length_or_0 a)%Z = false /\
    (a = "sha256" -> up = "sha384" /\ m = 48%Z).
Proof.
  intros U. destruct (CollisionFacts.upgrade_some _ _ U) as [H _].
  unfold HASH_ALGORITHM_HIERARCHY in H.
  repeat
    (match type of H with
     | context [String.eqb a ?s] =>
         destruct (String.eqb_spec a s) as [->|]
     end;
     [ inversion H; subst up; do 3 eexists;
       repeat split;
       try reflexivity; try discriminate; try lia;
       try (intros E; discriminate E) | ]).
  discriminate.
Qed.

(** C2 (as amended): when the hash of the incoming card is present with other
    bytes, the incoming bytes are not empty and the hierarchy has a stronger
    algorithm, that algorithm differs from the card's and has a strictly
    longer digest in the length table (sha384, 48 bytes, after sha256).
    The collision event card holds the bytes of a payload that references
    both algorithms: its field [algorithms] names the algorithm of the
    existing card and the upgraded algorithm, its field [hashes] the hash of
    the existing card, which is the incoming card's, and the hash of the
    upgraded card.  If the hash of the card built from the incoming bytes
    under the upgraded algorithm is free, and the hash of the event card is
    free after that, [add] writes the upgraded card, then the event card, and
    returns the event card's hash: two rows more (three after one).  If the
    upgraded card's hash is taken, the engine refuses it with HashConflict
    and nothing is written; if the event card's hash is taken, only the
    upgraded card is. *)
Theorem collision_add_upgrades :
  forall (w w1 : World MemoryEngine.Rows) (card existing : Card) (up : string),
    MemoryEngine.get (hash card) w = (Returned (Some existing), w1) ->
    content existing <> content card ->
    content card <> [] ->
    CardCollection.upgrade HASH_ALGORITHM_HIERARCHY (hash_algorithm card) = Some up ->
    exists h n m,
      createHash up = Some h /\
      HASH_LENGTHS (hash_algorithm card) = Some n /\
      HASH_LENGTHS up = Some m /\ (n < m)%Z /\
      up <> hash_algorithm card /\
      (hash_algorithm card = "sha256" -> up = "sha384" /\ m = 48%Z) /\
      let upgraded :=
        fresh_card (content card) (h (content card)) up
          (wall_clock w1 (S (reads w1))) (region w1) "object" in
      let payload :=
        EventProducer.collision_event HASH_ALGORITHM_HIERARCHY card existing
          (wall_clock w1 (reads w1)) in
      let event :=
        event_card_at payload (wall_clock w1 (S (S (reads w1)))) (region w1) in
      let rows := (store w ++ [MemoryEngine.row_of upgraded])%list in
      let result :=
        CardCollection.add HASH_ALGORITHM_HIERARCHY MemoryEngine.engine
          (Some card) w in
      digest_hex up (content card) = Returned (hash upgraded) /\
      Z.of_nat (String.length (hash upgraded)) = (2 * m)%Z /\
      content event = utf8_encode (JSON_stringify payload) /\
      get_property payload (js "algorithms")
      = Some (JArray [JString (js (hash_algorithm existing)); JString (js up)]) /\
      get_property payload (js "hashes")
      = Some (JArray [JString (js (hash existing));
                      JString (js (hash upgraded))]) /\
      hash existing = hash card /\
      (MemoryEngine.lookup (hash upgraded) (store w) = None ->
       MemoryEngine.lookup (hash event) rows = None ->
       fst result = Returned (hash event) /\
       store (snd result) = (rows ++ [MemoryEngine.row_of event])%list /\
       row_count (snd result) = (row_count w + 2)%Z) /\
      (MemoryEngine.lookup (hash upgraded) (store w) <> None ->
       thrown result = Some HashConflict /\ store (snd result) = store w) /\
      (MemoryEngine.lookup (hash upgraded) (store w) = None ->
       MemoryEngine.lookup (hash event) rows <> None ->
       thrown result = Some HashConflict /\ store (snd result) = rows).
Proof.
  intros w w1 card existing up Hget Hc Hne U.
  destruct (spec_hierarchy_upgrades _ U)
    as (h & n & m & Hh & Hn & Hm & Hlt & Hup & Heq & Hlen & H256).
  exists h, n, m.
  do 6 (split; [assumption|]).
  intros upgraded payload event rows result.
  destruct (HashFacts.createHash_digest _ Hh) as (m' & Hm' & Hdig).
  assert (m' = m) by congruence. subst m'.
  pose proof (HashFacts.digest_hex_known _ (content card) Hh) as Hdigest.
  split; [exact Hdigest|].
  split; [exact (proj1 (Hdig (content card)))|].
  destruct (MemoryFacts.get_some _ _ Hget) as (r & Lr & _ & Hhash & Hw1).
  assert (Href : EventProducer.upgraded_reference HASH_ALGORITHM_HIERARCHY card
                 = Some (hash upgraded, up)).
  { unfold EventProducer.upgraded_reference.
    rewrite (proj1 (CollisionFacts.upgrade_some _ _ U)), Hdigest. reflexivity. }
  split; [reflexivity|].
  split; [unfold payload, EventProducer.collision_event; rewrite Href; reflexivity|].
  split; [unfold payload, EventProducer.collision_event; rewrite Href; reflexivity|].
  split; [exact Hhash|].
  assert (Hs : store w1 = store w) by (subst w1; reflexivity).
  assert (Hres : result = CardCollection.add_collision HASH_ALGORITHM_HIERARCHY
                            MemoryEngine.engine card existing w1).
  { unfold result. now apply AddFacts.add_found_differs. }
  pose proof (CollisionFacts.add_collision_memory HASH_ALGORITHM_HIERARCHY
                card existing w1) as Hcol.
  rewrite U, (CardFacts.nonempty_length Hne), Hh in Hcol.
  cbv zeta in Hcol. rewrite Heq, Hlen, Hs in Hcol.
  fold upgraded in Hcol. fold payload in Hcol. fold event in Hcol.
  fold rows in Hcol.
  rewrite Hres, Hcol.
  split; [|split].
  - intros L1 L2. rewrite L1, L2. cbn [fst snd].
    split; [reflexivity|]. split; [reflexivity|].
    unfold row_count, set_store, rows. cbn [store].
    rewrite !length_app. cbn [length]. lia.
  - intros L1.
    destruct (MemoryEngine.lookup (hash upgraded) (store w)); [|congruence].
    split; [reflexivity | exact Hs].
  - intros L1 L2. rewrite L1.
    destruct (MemoryEngine.lookup (hash event) rows); [|congruence].
    split; reflexivity.
Qed.

(** ** Failed calls of [add] *)

Module ErrorFacts.
Import MemoryEngine.

Lemma hash_fields_thrown data name e :
  hash_fields data name = Thrown e -> kind e = UnknownAlgorithm.
Proof.
  unfold hash_fields, HashAlgorithm_call, computeHash, digest_hex. cbv zeta.
  destruct (createHash name) eqn:K; cbn; rewrite ?K; cbn; [discriminate|].
  clear K. destruct (createHash _); cbn; [discriminate|].
  intros E. inversion E. reflexivity.
Qed.

Lemma to_buffer_thrown c e : to_buffer c = Thrown e -> kind e = InvalidContent.
Proof.
  destruct c as [| |b|s|props|props|elements|z|b]; cbn; try discriminate;
    try (intros E; inversion E; reflexivity).
  destruct (Nat.eqb _ _); [|discriminate]. intros E. inversion E. reflexivity.
Qed.

Lemma MCard_new_thrown {St} c hashFunction forceHashAlgorithm (w w' : World St) e :
  MCard_new c hashFunction forceHashAlgorithm w = (Thrown e, w') ->
  construction_kind (kind e) /\ w' = w.
Proof.
  unfold construction_kind.
  destruct c eqn:C; try (intros E; inversion E; cbn; tauto);
    (destruct hashFunction; try (intros E; inversion E; cbn; tauto);
     unfold MCard_new, bind, lift;
     (destruct (to_buffer _) as [data|e0] eqn:B;
      [|intros E; inversion E; subst; apply to_buffer_thrown in B; rewrite B; tauto]);
     (destruct (Nat.eqb (length data) 0); [intros E; inversion E; cbn; tauto|]);
     (destruct (hash_fields _ _) as [ha|e0] eqn:F;
      [discriminate
      |intros E; inversion E; subst; apply hash_fields_thrown in F; rewrite F; tauto])).
Qed.

Lemma card_from_row_thrown r (w w' : World Rows) e :
  card_from_row r w = (Thrown e, w') -> construction_kind (kind e) /\ w' = w.
Proof.
  unfold card_from_row, MCardFromData.
  cbn [falsy_content falsy_string given_string].
  destruct (row_hash r =? "");
    [intros E; inversion E; unfold construction_kind; cbn; tauto|].
  destruct (row_g_time r =? "");
    [intros E; inversion E; unfold construction_kind; cbn; tauto|].
  unfold bind.
  destruct (MCard_new _ _ _ w) as [[parent|e0] w2] eqn:E0; [discriminate|].
  intros E. inversion E. subst. eapply MCard_new_thrown; eassumption.
Qed.

Lemma get_thrown h (w w' : World Rows) e :
  get h w = (Thrown e, w') -> construction_kind (kind e) /\ w' = w.
Proof.
  unfold get. destruct (lookup h (store w)) as [r|]; [|discriminate].
  unfold bind. destruct (card_from_row r w) as [[c|e0] w2] eqn:E0; [discriminate|].
  intros E. inversion E. subst. eapply card_from_row_thrown; eassumption.
Qed.

End ErrorFacts.


Section FailedAdd.
Import MemoryEngine.

Ltac same_card :=
  match goal with
  | H : Some _ = Some _ |- _ => inversion H; subst; clear H
  end.

Ltac same_path G :=
  match goal with
  | H : collides _ _ _ _ |- _ =>
      let Hg := fresh "Hg" in
      let Hd := fresh "Hd" in
      destruct H as [Hg Hd]; rewrite G in Hg; inversion Hg; subst
  end.

(** C3: when [add] fails, either no row has been written, or the call took
    the collision branch and the one row written is the card of the incoming
    bytes under the upgraded algorithm, the engine having refused the event
    card: no event card is written by a failed call.  The failure is
    NoStrongerAlgorithm exactly when the call is a collision and the
    hierarchy has no successor for the incoming card's algorithm; it is
    UpgradeFailed exactly when the call is a collision whose upgraded card
    could be built and whose successor is the same algorithm or has no longer
    a digest in the length table. *)
Theorem failed_add_writes_no_event_card :
  forall (hierarchy : string -> option string) (w w' : World Rows)
         (card : option Card) (e : Error),
    CardCollection.add hierarchy engine card w = (Thrown e, w') ->
    (store w' = store w \/
     exists c existing w1 up h,
       card = Some c /\ collides w c existing w1 /\
       CardCollection.upgrade hierarchy (hash_algorithm c) = Some up /\
       createHash up = Some h /\
       kind e = HashConflict /\
       store w' =
       (store w ++
        [row_of (fresh_card (content c) (h (content c)) up
                   (wall_clock w1 (S (reads w1))) (region w1) "object")])%list) /\
    (kind e = NoStrongerAlgorithm <->
     exists c existing w1,
       card = Some c /\ collides w c existing w1 /\
       CardCollection.upgrade hierarchy (hash_algorithm c) = None) /\
    (kind e = UpgradeFailed <->
     exists c existing w1 up,
       card = Some c /\ collides w c existing w1 /\
       CardCollection.upgrade hierarchy (hash_algorithm c) = Some up /\
       content c <> [] /\ createHash up <> None /\
       (up = hash_algorithm c \/
        (hash_length_or_0 up <= hash_length_or_0 (hash_algorithm c))%Z)).
Proof.
  intros hierarchy w w' [c|] e H.
  2:{ inversion H. subst. cbn [kind].
      split; [now left|].
      split; (split; [discriminate|]).
      - intros (c & ? & ? & [=] & _).
      - intros (c & ? & ? & ? & [=] & _). }
  destruct (get (hash c) w) as [[[existing|]|e0] w1] eqn:G.
  - (* a card with this hash is stored *)
    destruct (MemoryFacts.get_some _ _ G) as (r & Lr & _ & _ & Hw1).
    assert (Hs : store w1 = store w) by (subst w1; reflexivity).
    destruct (list_eq_dec Byte.byte_eq_dec (content existing) (content c)) as [Hc|Hc].
    + (* duplicate *)
      rewrite (@AddFacts.add_found_equal hierarchy _ engine c existing w w1 G Hc) in H.
      rewrite AddFacts.add_duplicate_memory in H. cbv zeta in H.
      destruct (lookup _ (store w1)); [|discriminate].
      inversion H. subst e w'. cbn [kind].
      split; [left; exact Hs|].
      split; (split; [discriminate|]).
      * intros (c' & ex' & w1' & E & Hco & _). same_card. same_path G. contradiction.
      * intros (c' & ex' & w1' & up & E & Hco & _). same_card. same_path G.
        contradiction.
    + (* collision *)
      rewrite (@AddFacts.add_found_differs hierarchy _ engine c existing w w1 G Hc) in H.
      rewrite CollisionFacts.add_collision_memory in H.
      destruct (CardCollection.upgrade hierarchy (hash_algorithm c)) as [up|] eqn:U.
      2:{ inversion H. subst e w'. cbn [kind].
          split; [left; exact Hs|].
          split; split.
          - intros _. exists c, existing, w1. repeat split; assumption.
          - reflexivity.
          - discriminate.
          - intros (c' & ex' & w1' & up & E & Hco & U' & _). same_card. congruence. }
      destruct (content c) as [|b data] eqn:C.
      { cbn [length Nat.eqb] in H. inversion H. subst e w'. cbn [kind].
        split; [left; exact Hs|].
        split; (split; [discriminate|]).
        - intros (c' & ex' & w1' & E & Hco & U'). same_card. congruence.
        - intros (c' & ex' & w1' & up' & E & Hco & U' & Hne & _). same_card.
          congruence. }
      cbn [length Nat.eqb] in H. rewrite <- C in *.
      destruct (createHash up) as [h|] eqn:K.
      2:{ inversion H. subst e w'. cbn [kind].
          split; [left; exact Hs|].
          split; (split; [discriminate|]).
          - intros (c' & ex' & w1' & E & Hco & U'). same_card. congruence.
          - intros (c' & ex' & w1' & up' & E & Hco & U' & Hne & Hk & _). same_card.
            congruence. }
      cbv zeta in H.
      destruct (String.eqb_spec up (hash_algorithm c)) as [Ea|Na].
      { inversion H. subst e w'. cbn [kind].
        split; [left; exact Hs|].
        split; split.
        - discriminate.
        - intros (c' & ex' & w1' & E & Hco & U'). same_card. congruence.
        - intros _. exists c, existing, w1, up.
          repeat split; try assumption; try congruence. now left.
        - reflexivity. }
      destruct (Z.leb_spec (hash_length_or_0 up) (hash_length_or_0 (hash_algorithm c)))
        as [Hle|Hgt].
      { inversion H. subst e w'. cbn [kind].
        split; [left; exact Hs|].
        split; split.
        - discriminate.
        - intros (c' & ex' & w1' & E & Hco & U'). same_card. congruence.
        - intros _. exists c, existing, w1, up.
          repeat split; try assumption; try congruence. now right.
        - reflexivity. }
      destruct (lookup _ (store w1)) as [x|] eqn:L1.
      { inversion H. subst e w'. cbn [kind].
        split; [left; exact Hs|].
        split; (split; [discriminate|]).
        - intros (c' & ex' & w1' & E & Hco & U'). same_card. congruence.
        - intros (c' & ex' & w1' & up' & E & Hco & U' & Hne & Hk & Hor).
          same_card. assert (up' = up) by congruence. subst up'.
          destruct Hor; [contradiction | lia]. }
      destruct (lookup _ (store w1 ++ _)%list) as [x|] eqn:L2; [|discriminate].
      inversion H. subst e w'. cbn [kind].
      split.
      { right. exists c, existing, w1, up, h.
        split; [reflexivity|]. split; [split; assumption|].
        split; [assumption|]. split; [assumption|]. split; [reflexivity|].
        unfold set_store. cbn [store]. now rewrite Hs. }
      split; (split; [discriminate|]).
      * intros (c' & ex' & w1' & E & Hco & U'). same_card. congruence.
      * intros (c' & ex' & w1' & up' & E & Hco & U' & Hne & Hk & Hor).
        same_card. assert (up' = up) by congruence. subst up'.
        destruct Hor; [contradiction | lia].
  - (* no card with this hash *)
    destruct (MemoryFacts.get_none _ _ G) as [L ->].
    rewrite (@AddFacts.add_missing hierarchy _ engine c w w G) in H.
    cbn [engine_add engine] in H.
    rewrite (bind_returned _ _ _ (MemoryFacts.add_fresh c w L)) in H.
    discriminate.
  - (* the lookup itself failed *)
    rewrite (@AddFacts.add_get_thrown hierarchy _ engine c w w1 e0 G) in H.
    inversion H. subst e0 w1.
    pose proof G as G'. apply ErrorFacts.get_thrown in G'. destruct G' as [Hk ->].
    split; [now left|].
    unfold construction_kind in Hk.
    split; (split;
            [intros Ek; rewrite Ek in Hk; intuition discriminate|]).
    + intros (c' & ex' & w1' & E & [Hg _] & _). same_card. congruence.
    + intros (c' & ex' & w1' & up & E & [Hg _] & _). same_card. congruence.
Qed.

End FailedAdd.

(** ** Pages *)

Module PageFacts.
Local Open Scope Z_scope.

Lemma ceil_div_bounds a b :
  0 < b -> (ceil_div a b - 1) * b < a <= ceil_div a b * b.
Proof.
  intros Hb. unfold ceil_div.
  pose proof (Z.div_mod (- a) b ltac:(lia)) as E.
  pose proof (Z.mod_pos_bound (- a) b Hb) as R.
  nia.
Qed.


Lemma has_next_iff n size total :
  1 <= n -> 1 <= size -> 0 <= total ->
  ((n - 1) * size + size <? total) = true <->
  n < (if 0 <? total then ceil_div total size else 0).
Proof.
  intros Hn Hs Ht. rewrite Z.ltb_lt.
  destruct (Z.ltb_spec 0 total) as [Hp|Hz].
  - pose proof (@ceil_div_bounds total size ltac:(lia)). nia.
  - nia.
Qed.

Lemma memory_get_page_returned n size (w w' : World MemoryEngine.Rows) r :
  MemoryEngine.get_page n size w = (Returned r, w') ->
  1 <= n /\ 1 <= size /\
  r_total_items r = Z.of_nat (length (store w)) /\
  r_page_number r = n /\ r_page_size r = size /\
  r_has_next r = ((n - 1) * size + size <? Z.of_nat (length (store w))) /\
  r_has_previous r = (1 <? n).
Proof.
  unfold MemoryEngine.get_page.
  destruct (Z.ltb_spec n 1); [discriminate|].
  destruct (Z.ltb_spec size 1); [discriminate|].
  destruct (_ && _); [discriminate|].
  unfold bind.
  destruct (MemoryEngine.cards_from_rows _ w) as [[cards|e] w2]; [|discriminate].
  intros E. inversion E. cbn. repeat split; lia.
Qed.

End PageFacts.

(** C6: every page [get_page] returns has [total_pages] equal to the ceiling
    of [total_items / page_size] when there are items and 0 when there are
    none; [has_next] holds exactly when [page_number < total_pages] and
    [has_previous] exactly when [page_number > 1]; [next_page] is
    [page_number + 1] when [has_next] and null otherwise, [previous_page] is
    [page_number - 1] when [has_previous] and null otherwise. *)
Theorem page_fields_of_get_page :
  forall (w w' : World MemoryEngine.Rows) (n size : option Z) (page : Page),
    CardCollection.get_page MemoryEngine.engine n size w = (Returned page, w') ->
    page_number page = or_default n 1%Z /\
    page_size page = or_default size DEFAULT_PAGE_SIZE /\
    total_items page = row_count w /\
    total_pages page =
      (if (0 <? total_items page)%Z
       then ceil_div (total_items page) (page_size page) else 0%Z) /\
    ((0 < total_items page)%Z ->
     ((total_pages page - 1) * page_size page < total_items page
      <= total_pages page * page_size page)%Z) /\
    (has_next page = true <-> (page_number page < total_pages page)%Z) /\
    (has_previous page = true <-> (page_number page > 1)%Z) /\
    next_page page =
      (if has_next page then Some (page_number page + 1)%Z else None) /\
    previous_page page =
      (if has_previous page then Some (page_number page - 1)%Z else None).
Proof.
  intros w w' n size page. unfold CardCollection.get_page.
  set (pn := or_default n 1%Z). set (ps := or_default size DEFAULT_PAGE_SIZE).
  destruct (Z.ltb_spec pn 1); [discriminate|].
  destruct (Z.ltb_spec ps 1); [discriminate|].
  unfold bind. cbn [engine_get_page MemoryEngine.engine].
  destruct (MemoryEngine.get_page pn ps w) as [[r|e] w1] eqn:G; [|discriminate].
  apply PageFacts.memory_get_page_returned in G.
  destruct G as (_ & _ & Ht & Hn & Hs & Hnext & Hprev).
  destruct (_ && _); [discriminate|].
  unfold ret. intros E. inversion E. subst page w1. clear E.
  unfold Page_new. cbn [or_default pd_items pd_total_items pd_page_number pd_page_size
    pd_has_next pd_has_previous pd_total_pages items total_items page_number
    page_size has_next has_previous total_pages previous_page next_page].
  rewrite Hn, Hs, Ht, Hnext, Hprev. fold (row_count w).
  assert (Hc : (0 <= row_count w)%Z) by (unfold row_count; lia).
  split; [reflexivity|]. split; [reflexivity|]. split; [reflexivity|].
  split; [reflexivity|].
  split.
  { intros Hp. destruct (Z.ltb_spec 0 (row_count w)); [|lia].
    apply PageFacts.ceil_div_bounds. lia. }
  split; [apply PageFacts.has_next_iff; lia|].
  split; [rewrite Z.ltb_lt; lia|].
  split; reflexivity.
Qed.

(** C7 (as amended): [get_all] is not [get_page]: it hands its arguments,
    unvalidated, to the engine's [get_all]; a failure of the engine is its
    own failure, and a result of the engine is wrapped in a page with the
    engine's items, total, [has_next] and [has_previous] (page number and
    size falling back to the arguments when the engine's are 0), with
    [next_page] and [previous_page] derived from them and with
    [total_pages] left at 0, not recomputed. *)
Theorem get_all_passes_through :
  forall (St : Type) (engine : Engine St) (n size : option Z) (w : World St),
    let page_number' := or_default n 1%Z in
    let page_size' := or_default size DEFAULT_PAGE_SIZE in
    match engine_get_all engine page_number' page_size' w with
    | (Thrown e, w') => CardCollection.get_all engine n size w = (Thrown e, w')
    | (Returned r, w') =>
        exists page,
          CardCollection.get_all engine n size w = (Returned page, w') /\
          items page = r_items r /\
          total_items page = r_total_items r /\
          page_number page =
            (if (r_page_number r =? 0)%Z then page_number' else r_page_number r) /\
          page_size page =
            (if (r_page_size r =? 0)%Z then page_size' else r_page_size r) /\
          has_next page = r_has_next r /\
          has_previous page = r_has_previous r /\
          total_pages page = 0%Z /\
          next_page page =
            (if has_next page then Some (page_number page + 1)%Z else None) /\
          previous_page page =
            (if has_previous page then Some (page_number page - 1)%Z else None)
    end.
Proof.
  intros St engine n size w page_number' page_size'.
  unfold CardCollection.get_all, bind.
  fold page_number'. fold page_size'.
  destruct (engine_get_all engine page_number' page_size' w) as [[r|e] w'];
    [|reflexivity].
  eexists. split; [reflexivity|].
  unfold Page_new. cbn. rewrite !orb_false_r. repeat split; reflexivity.
Qed.

(** C9 (as amended): for a hash that is not empty, [update] gives [false]
    when no card with the hash exists (over the in-memory engine, with the
    world as it was) and otherwise forwards to the engine's [update], whose
    result it returns; an error the engine's [update] raises, an
    EngineFailure among them, is caught and answered with [false].  An empty
    hash is refused with InvalidArgument. *)
Theorem update_swallows_engine_errors :
  (forall (St : Type) (engine : Engine St) (h : string) (newContent : Buffer)
          (w : World St),
      h <> "" ->
      match engine_get engine h w with
      | (Thrown e, w1) =>
          CardCollection.update engine h newContent w = (Thrown e, w1)
      | (Returned None, w1) =>
          CardCollection.update engine h newContent w = (Returned false, w1)
      | (Returned (Some _), w1) =>
          match engine_update engine h newContent w1 with
          | (Returned b, w2) =>
              CardCollection.update engine h newContent w = (Returned b, w2)
          | (Thrown _, w2) =>
              CardCollection.update engine h newContent w = (Returned false, w2)
          end
      end) /\
  (forall (h : string) (newContent : Buffer) (w : World MemoryEngine.Rows),
      h <> "" ->
      MemoryEngine.lookup h (store w) = None ->
      CardCollection.update MemoryEngine.engine h newContent w = (Returned false, w)) /\
  (forall (St : Type) (engine : Engine St) (newContent : Buffer) (w : World St),
      CardCollection.update engine "" newContent w =
      (Thrown (MkError InvalidArgument "Hash cannot be empty"), w)).
Proof.
  split; [|split].
  - intros St engine h newContent w Hh. unfold CardCollection.update.
    destruct (String.eqb_spec h ""); [contradiction|].
    unfold CardCollection.get, bind, try_catch, ret.
    destruct (engine_get engine h w) as [[[c|]|e] w1]; try reflexivity.
    destruct (engine_update engine h newContent w1) as [[b|e] w2]; reflexivity.
  - intros h newContent w Hh L. unfold CardCollection.update.
    destruct (String.eqb_spec h ""); [contradiction|].
    unfold CardCollection.get. cbn [engine_get MemoryEngine.engine].
    now rewrite (bind_returned _ _ _ (MemoryFacts.get_missing _ _ L)).
  - reflexivity.
Qed.

(** ** The statements at concrete inputs *)

Example card_A_is_constructed :
  MCard_new (CString (js "A")) (Given "sha256") None empty_world
  = (Returned card_A, tick empty_world).
Proof. vm_compute. reflexivity. Qed.

Lemma well_formed_card_A : well_formed card_A.
Proof.
  apply (@MCard_new_well_formed _ empty_world (tick empty_world)
           (CString (js "A")) (Given "sha256") card_A);
    [discriminate | discriminate | exact card_A_is_constructed].
Qed.

Lemma duplicate_add_witness :
  MemoryEngine.get (hash card_A) world_A = (Returned (Some stored_A), tick world_A) /\
  content stored_A = content card_A /\
  MemoryEngine.lookup (hash event_A) (store world_A) = None /\
  fst (CardCollection.add HASH_ALGORITHM_HIERARCHY MemoryEngine.engine
         (Some card_A) world_A) = Returned (hash event_A) /\
  row_count (snd (CardCollection.add HASH_ALGORITHM_HIERARCHY MemoryEngine.engine
                    (Some card_A) world_A)) = 2%Z /\
  row_count
    (snd (CardCollection.add HASH_ALGORITHM_HIERARCHY MemoryEngine.engine
            (Some card_A)
            (snd (CardCollection.add HASH_ALGORITHM_HIERARCHY MemoryEngine.engine
                    (Some card_A) empty_world)))) = 2%Z.
Proof.
  assert (Hget : MemoryEngine.get (hash card_A) world_A
                 = (Returned (Some stored_A), tick world_A))
    by (vm_compute; reflexivity).
  assert (Hc : content stored_A = content card_A) by reflexivity.
  pose proof (proj1 duplicate_add_writes_one_event_card HASH_ALGORITHM_HIERARCHY
                world_A (tick world_A) card_A stored_A Hget Hc) as T.
  cbv zeta in T. destruct T as (_ & _ & Hfresh & _).
  pose proof (Hfresh ltac:(vm_compute; reflexivity)) as (Hr & _ & _ & Hn & _).
  pose proof (proj2 duplicate_add_writes_one_event_card HASH_ALGORITHM_HIERARCHY
                empty_world card_A card_A well_formed_card_A eq_refl eq_refl eq_refl)
    as T2.
  cbv zeta in T2. destruct T2 as (_ & Htwice).
  pose proof (Htwice ltac:(vm_compute; reflexivity) ltac:(vm_compute; discriminate))
    as (_ & Hn2 & _).
  split; [exact Hget|]. split; [exact Hc|].
  split; [vm_compute; reflexivity|].
  split; [vm_cast_no_check Hr|].
  split; [vm_cast_no_check Hn | vm_cast_no_check Hn2].
Defined.

Lemma duplicate_add_counterexample :
  let w2 := world_of [MemoryEngine.row_of card_A; MemoryEngine.row_of event_A] in
  let add := CardCollection.add HASH_ALGORITHM_HIERARCHY MemoryEngine.engine in
  store (snd (add (Some card_A) (snd (add (Some card_A) empty_world)))) = store w2 /\
  MemoryEngine.get (hash card_A) w2 = (Returned (Some stored_A), tick w2) /\
  content stored_A = content card_A /\
  thrown (add (Some card_A) w2) = Some HashConflict /\
  store (snd (add (Some card_A) w2)) = store w2.
Proof. vm_compute. repeat split. Qed.

Lemma collision_add_witness :
  MemoryEngine.get (hash card_B_forged) world_A
  = (Returned (Some stored_A), tick world_A) /\
  content stored_A <> content card_B_forged /\
  content card_B_forged <> [] /\
  CardCollection.upgrade HASH_ALGORITHM_HIERARCHY (hash_algorithm card_B_forged)
  = Some "sha384" /\
  (exists n m, HASH_LENGTHS "sha256" = Some n /\ HASH_LENGTHS "sha384" = Some m /\
               (n < m)%Z /\ m = 48%Z) /\
  get_property
    (EventProducer.collision_event HASH_ALGORITHM_HIERARCHY card_B_forged stored_A
       noon)
    (js "algorithms")
  = Some (JArray [JString (js "sha256"); JString (js "sha384")]) /\
  CardCollection.add HASH_ALGORITHM_HIERARCHY MemoryEngine.engine
    (Some card_B_forged) world_A
  = (Returned (hash collision_event_AB),
     set_store (tick (tick (tick (tick world_A)))) (store world_AB)).
Proof.
  assert (Hget : MemoryEngine.get (hash card_B_forged) world_A
                 = (Returned (Some stored_A), tick world_A))
    by (vm_compute; reflexivity).
  assert (Hc : content stored_A <> content card_B_forged) by discriminate.
  assert (Hne : content card_B_forged <> []) by discriminate.
  assert (U : CardCollection.upgrade HASH_ALGORITHM_HIERARCHY
                (hash_algorithm card_B_forged) = Some "sha384") by reflexivity.
  destruct (@collision_add_upgrades world_A (tick world_A) card_B_forged stored_A
              "sha384" Hget Hc Hne U)
    as (h & n & m & _ & Hn & Hm & Hlt & _ & H256 & Hrest).
  cbv zeta in Hrest. destruct Hrest as (_ & _ & _ & Halgorithms & _).
  destruct (H256 eq_refl) as [_ H48].
  split; [exact Hget|]. split; [exact Hc|]. split; [exact Hne|].
  split; [exact U|].
  split; [exists n, m; repeat split; assumption|].
  split; [exact Halgorithms|].
  vm_compute. reflexivity.
Defined.

Lemma collision_add_counterexample :
  let add := CardCollection.add HASH_ALGORITHM_HIERARCHY MemoryEngine.engine in
  store (snd (add (Some card_B_forged) (snd (add (Some card_A) empty_world))))
  = store world_AB /\
  MemoryEngine.get (hash card_B_forged) world_AB
  = (Returned (Some stored_A), tick world_AB) /\
  content stored_A <> content card_B_forged /\
  CardCollection.upgrade HASH_ALGORITHM_HIERARCHY (hash_algorithm card_B_forged)
  = Some "sha384" /\
  thrown (add (Some card_B_forged) world_AB) = Some HashConflict /\
  store (snd (add (Some card_B_forged) world_AB)) = store world_AB /\
  row_count world_AB = 3%Z /\
  MemoryEngine.get (hash card_emptied) world_A
  = (Returned (Some stored_A), tick world_A) /\
  content stored_A <> content card_emptied /\
  thrown (add (Some card_emptied) world_A) = Some EmptyContent /\
  store (snd (add (Some card_emptied) world_A)) = store world_A.
Proof.
  cbv zeta.
  split; [vm_compute; reflexivity|].
  split; [vm_compute; reflexivity|].
  split; [discriminate|].
  split; [reflexivity|].
  split; [vm_compute; reflexivity|].
  split; [vm_compute; reflexivity|].
  split; [reflexivity|].
  split; [vm_compute; reflexivity|].
  split; [discriminate|].
  vm_compute. repeat split.
Qed.

Lemma failed_add_witness :
  let stopped :=
    CardCollection.add no_hierarchy MemoryEngine.engine (Some card_B_forged) world_A in
  let halfway :=
    CardCollection.add HASH_ALGORITHM_HIERARCHY MemoryEngine.engine
      (Some card_B_forged)
      (world_of [MemoryEngine.row_of card_A; MemoryEngine.row_of collision_event_AB]) in
  let refused :=
    CardCollection.add downward_hierarchy MemoryEngine.engine (Some card_B_forged)
      world_A in
  thrown stopped = Some NoStrongerAlgorithm /\
  store (snd stopped) = store world_A /\
  thrown halfway = Some HashConflict /\
  store (snd halfway)
  = [MemoryEngine.row_of card_A; MemoryEngine.row_of collision_event_AB;
     MemoryEngine.row_of upgraded_B] /\
  thrown refused = Some UpgradeFailed /\
  store (snd refused) = store world_A.
Proof.
  intros stopped halfway refused.
  assert (H1 : stopped
               = (Thrown (MkError NoStrongerAlgorithm
                            "No stronger hash algorithm available"),
                  tick (tick world_A)))
    by (vm_compute; reflexivity).
  assert (H2 : halfway
               = (Thrown (MkError HashConflict "Card with this hash already exists"),
                  set_store
                    (tick (tick (tick (tick
                       (world_of [MemoryEngine.row_of card_A;
                                  MemoryEngine.row_of collision_event_AB])))))
                    [MemoryEngine.row_of card_A;
                     MemoryEngine.row_of collision_event_AB;
                     MemoryEngine.row_of upgraded_B]))
    by (vm_compute; reflexivity).
  assert (H3 : refused
               = (Thrown (MkError UpgradeFailed
                            "Hash algorithm upgrade did not increase hash length"),
                  tick (tick (tick world_A))))
    by (vm_compute; reflexivity).
  pose proof (@failed_add_writes_no_event_card _ _ _ _ _ H1) as (_ & [N1 _] & _).
  pose proof (@failed_add_writes_no_event_card _ _ _ _ _ H2) as ([S2|S2] & _).
  { exfalso. revert S2. vm_compute. discriminate. }
  pose proof (@failed_add_writes_no_event_card _ _ _ _ _ H3) as (_ & _ & [N3 _]).
  rewrite H1, H2, H3. repeat split.
Defined.

Lemma page_fields_witness :
  exists page w',
    CardCollection.get_page MemoryEngine.engine (Some 1%Z) (Some 2%Z) world_AB
    = (Returned page, w') /\
    total_items page = 3%Z /\ total_pages page = 2%Z /\
    has_next page = true /\ has_previous page = false /\
    next_page page = Some 2%Z /\ previous_page page = None.
Proof.
  destruct (CardCollection.get_page MemoryEngine.engine (Some 1%Z) (Some 2%Z) world_AB)
    as [[page|e] w'] eqn:E.
  2:{ exfalso. revert E. vm_compute. discriminate. }
  exists page, w'. split; [reflexivity|].
  destruct (@page_fields_of_get_page _ _ _ _ _ E)
    as (Hn & Hs & Ht & Hp & _ & Hnext & Hprev & Hnp & Hpp).
  cbn [or_default] in Hn, Hs.
  assert (Ht' : total_items page = 3%Z) by (rewrite Ht; reflexivity).
  assert (Hp' : total_pages page = 2%Z) by (rewrite Hp, Ht', Hs; reflexivity).
  assert (Hnext' : has_next page = true) by (apply Hnext; lia).
  assert (Hprev' : has_previous page = false).
  { destruct (has_previous page); [|reflexivity].
    assert (page_number page > 1)%Z by now apply Hprev. lia. }
  repeat split; try assumption.
  - rewrite Hnp, Hnext', Hn. reflexivity.
  - rewrite Hpp, Hprev'. reflexivity.
Defined.

Lemma get_all_counterexample :
  option_map total_items
    (returned (CardCollection.get_all MemoryEngine.engine (Some 1%Z) (Some 2%Z) world_AB))
  = Some 3%Z /\
  option_map total_pages
    (returned (CardCollection.get_all MemoryEngine.engine (Some 1%Z) (Some 2%Z) world_AB))
  = Some 0%Z /\
  option_map total_pages
    (returned (CardCollection.get_page MemoryEngine.engine (Some 1%Z) (Some 2%Z) world_AB))
  = Some 2%Z /\
  ceil_div 3 2 = 2%Z.
Proof. vm_compute. repeat split. Qed.

Lemma row_card_content_type_witness :
  exists card w',
    MCardFromData (CBuffer (png_magic ++ [x0d; x0a])%list) (Given "abc")
      (Given row_stamp) empty_world = (Returned card, w') /\
    content_type card = Some "image/png".
Proof.
  destruct (MCardFromData (CBuffer (png_magic ++ [x0d; x0a])%list) (Given "abc")
              (Given row_stamp) empty_world) as [[card|e] w'] eqn:E.
  2:{ exfalso. revert E. vm_compute. discriminate. }
  exists card, w'. split; [reflexivity|].
  destruct (@row_card_content_type _ _ _ _ _ _ _ E) as (Ht & _ & _ & _ & Hpng).
  exact (eq_trans Ht (f_equal Some (Hpng [x0d; x0a] eq_refl))).
Defined.

Lemma row_card_content_type_counterexample :
  option_map content_type
    (returned (MCardFromData (CBuffer nearly_text) (Given "abc") (Given row_stamp)
                 empty_world))
  = Some (Some "text/plain") /\
  forallb ContentTypeInterpreter.printable nearly_text = false /\
  option_map content_type
    (returned (MCardFromData (CBuffer short_text) (Given "abc") (Given row_stamp)
                 empty_world))
  = Some (Some "application/octet-stream") /\
  forallb ContentTypeInterpreter.printable short_text = true /\
  existsb (fun b => (byte_val b =? 0)%Z) short_text = false.
Proof. vm_compute. repeat split. Qed.

Lemma update_witness :
  digest_A <> "" /\
  CardCollection.update MemoryEngine.engine digest_A (bytes_of_string "Z") world_A
  = (Returned true,
     set_store (tick world_A)
       [MemoryEngine.MkRow digest_A (g_time card_A) (bytes_of_string "Z")]) /\
  CardCollection.update MemoryEngine.engine digest_A (bytes_of_string "Z") empty_world
  = (Returned false, empty_world).
Proof.
  assert (H : digest_A <> "") by discriminate.
  split; [exact H|]. split.
  - vm_cast_no_check
      (proj1 update_swallows_engine_errors _ MemoryEngine.engine digest_A
         (bytes_of_string "Z") world_A H).
  - exact (proj1 (proj2 update_swallows_engine_errors) digest_A
             (bytes_of_string "Z") empty_world H eq_refl).
Defined.

Lemma update_counterexample :
  thrown (engine_update MemoryEngine.engine_with_failing_update digest_A
            (bytes_of_string "Z") (tick world_A)) = Some EngineFailure /\
  CardCollection.update MemoryEngine.engine_with_failing_update digest_A
    (bytes_of_string "Z") world_A = (Returned false, tick world_A) /\
  MemoryEngine.lookup "" (store world_A) = None /\
  thrown (CardCollection.update MemoryEngine.engine "" (bytes_of_string "Z") world_A)
  = Some InvalidArgument.
Proof. vm_compute. repeat split. Qed.

Lemma compare_is_byte_equality_witness :
  SafeBuffer.compare (content stored_A) (content card_A) = 0%Z /\
  SafeBuffer.compare (content stored_A) (content card_B_forged) = (-1)%Z /\
  CardCollection.add HASH_ALGORITHM_HIERARCHY MemoryEngine.engine (Some card_A) world_A
  = CardCollection.add_duplicate MemoryEngine.engine stored_A (tick world_A) /\
  CardCollection.add HASH_ALGORITHM_HIERARCHY MemoryEngine.engine
    (Some card_B_forged) world_A
  = CardCollection.add_collision HASH_ALGORITHM_HIERARCHY MemoryEngine.engine
      card_B_forged stored_A (tick world_A).
Proof.
  assert (GA : engine_get MemoryEngine.engine (hash card_A) world_A
               = (Returned (Some stored_A), tick world_A))
    by (vm_compute; reflexivity).
  assert (GB : engine_get MemoryEngine.engine (hash card_B_forged) world_A
               = (Returned (Some stored_A), tick world_A))
    by (vm_compute; reflexivity).
  destruct compare_is_byte_equality as [Hcmp Hadd].
  split; [apply (Hcmp (content stored_A) (content card_A)); reflexivity|].
  split.
  { apply (Hcmp (content stored_A) (content card_B_forged)).
    apply lex_lt_head. vm_compute. reflexivity. }
  split.
  - destruct (Hadd HASH_ALGORITHM_HIERARCHY _ MemoryEngine.engine card_A stored_A
                world_A (tick world_A) GA) as [Hdup _].
    exact (Hdup eq_refl).
  - destruct (Hadd HASH_ALGORITHM_HIERARCHY _ MemoryEngine.engine card_B_forged
                stored_A world_A (tick world_A) GB) as [_ Hcol].
    apply Hcol. discriminate.
Defined.

(* ================================================================== *)
(** * Part IV: further properties of the code *)
(* ================================================================== *)

(** ** UTF-8: decoding what was encoded *)

Module Utf8Facts.
Local Open Scope Z_scope.

Lemma byte_val_of_Z z : 0 <= z < 256 -> byte_val (byte_of_Z z) = z.
Proof.
  intros H. unfold byte_of_Z, byte_val.
  rewrite Z.mod_small by lia.
  destruct (Byte.of_N (Z.to_N z)) as [b|] eqn:E.
  - apply Byte.to_of_N in E. rewrite E. lia.
  - apply Byte.of_N_None_iff in E. lia.
Qed.

Lemma map_byte_val_of_Z l :
  Forall (fun z => 0 <= z < 256) l -> map byte_val (map byte_of_Z l) = l.
Proof.
  induction 1 as [|z l Hz _ IH]; [reflexivity|].
  cbn [map]. now rewrite byte_val_of_Z, IH.
Qed.

(** The decoder's bit operations as arithmetic. *)
Lemma shift_or c b :
  Z.lor (Z.shiftl c 6) (Z.land b 63) = c * 64 + b mod 64.
Proof.
  rewrite Z.shiftl_mul_pow2 by lia.
  change 63 with (Z.ones 6). rewrite Z.land_ones by lia.
  change (2 ^ 6) with 64.
  pose proof (Z.add_lor_land (c * 64) (b mod 64)) as E.
  assert (L : Z.land (c * 64) (b mod 64) = 0).
  { apply Z.bits_inj'. intros n Hn. rewrite Z.land_spec, Z.bits_0.
    destruct (Z.lt_ge_cases n 6) as [Hlt|Hge].
    - change 64 with (2 ^ 6). now rewrite Z.mul_pow2_bits_low.
    - change 64 with (2 ^ 6). rewrite Z.mod_pow2_bits_high by lia.
      apply andb_false_r. }
  lia.
Qed.

Lemma land_31 b : Z.land b 31 = b mod 32.
Proof. change 31 with (Z.ones 5). now rewrite Z.land_ones by lia. Qed.
Lemma land_15 b : Z.land b 15 = b mod 16.
Proof. change 15 with (Z.ones 4). now rewrite Z.land_ones by lia. Qed.
Lemma land_7 b : Z.land b 7 = b mod 8.
Proof. change 7 with (Z.ones 3). now rewrite Z.land_ones by lia. Qed.

(** A Unicode scalar value: a code point that is not a surrogate. *)
Definition scalar (cp : Z) : Prop :=
  0 <= cp < 1114112 /\ ~ (55296 <= cp <= 57343).

Ltac arith := Z.div_mod_to_equations; lia.

Ltac decide_tests :=
  repeat match goal with
  | |- context [?a <=? ?b] =>
      destruct (Z.leb_spec a b); try (exfalso; arith)
  | |- context [?a <? ?b] =>
      destruct (Z.ltb_spec a b); try (exfalso; arith)
  | |- context [?a =? ?b] =>
      destruct (Z.eqb_spec a b); try (exfalso; arith)
  end.

Lemma code_point_bytes cp :
  scalar cp -> Forall (fun z => 0 <= z < 256) (utf8_code_point cp).
Proof.
  intros [R S]. unfold utf8_code_point.
  decide_tests; repeat constructor; arith.
Qed.

(** One step of the decoder inside a sequence, on a byte within bounds. *)
Lemma continue p b rest :
  pending_lower p <= b <= pending_upper p ->
  utf8_decode_from (Some p) (b :: rest) =
  match pending_needed p with
  | S (S n) =>
      utf8_decode_from
        (Some (MkPending (pending_code_point p * 64 + b mod 64) (S n) 128 191)) rest
  | _ => (utf16_units (pending_code_point p * 64 + b mod 64)
          ++ utf8_decode_from None rest)%list
  end.
Proof.
  intros H. cbn [utf8_decode_from].
  destruct (Z.leb_spec (pending_lower p) b); [|lia].
  destruct (Z.leb_spec b (pending_upper p)); [|lia].
  cbn [andb]. cbv zeta. now rewrite shift_or.
Qed.

Lemma start b rest :
  utf8_decode_from None (b :: rest) =
  (fst (utf8_lead b) ++ utf8_decode_from (snd (utf8_lead b)) rest)%list.
Proof. reflexivity. Qed.

Lemma decode_code_point cp tail :
  scalar cp ->
  utf8_decode_from None (utf8_code_point cp ++ tail)%list =
  (utf16_units cp ++ utf8_decode_from None tail)%list.
Proof.
  intros [R S]. unfold utf8_code_point.
  destruct (Z.ltb_spec cp 128) as [H1|H1].
  { cbn [app]. rewrite start. unfold utf8_lead, utf16_units.
    decide_tests. reflexivity. }
  destruct (Z.ltb_spec cp 2048) as [H2|H2].
  { cbn [app]. rewrite start.
    assert (L : utf8_lead (192 + cp / 64)
                = ([], Some (MkPending (cp / 64) 1 128 191))).
    { unfold utf8_lead. rewrite land_31. decide_tests. cbn [andb].
      do 3 f_equal. arith. }
    rewrite L. cbn [fst snd app].
    rewrite continue by (cbn [pending_lower pending_upper]; arith). cbn [pending_needed pending_code_point].
    do 2 f_equal. arith. }
  destruct (Z.ltb_spec cp 65536) as [H3|H3].
  { cbn [app]. rewrite start.
    assert (L : utf8_lead (224 + cp / 4096)
                = ([], Some (MkPending (cp / 4096) 2
                               (if cp / 4096 =? 0 then 160 else 128)
                               (if cp / 4096 =? 13 then 159 else 191)))).
    { unfold utf8_lead. rewrite land_15.
      destruct (Z.leb_spec (224 + cp / 4096) 127); [exfalso; arith|].
      destruct (Z.leb_spec 194 (224 + cp / 4096)); [|exfalso; arith].
      destruct (Z.leb_spec (224 + cp / 4096) 223); [exfalso; arith|].
      destruct (Z.leb_spec 224 (224 + cp / 4096)); [|exfalso; arith].
      destruct (Z.leb_spec (224 + cp / 4096) 239); [|exfalso; arith].
      cbn [andb].
      replace ((224 + cp / 4096) mod 16) with (cp / 4096) by arith.
      replace (224 + cp / 4096 =? 224) with (cp / 4096 =? 0)
        by (destruct (Z.eqb_spec (cp / 4096) 0), (Z.eqb_spec (224 + cp / 4096) 224);
            reflexivity || lia).
      replace (224 + cp / 4096 =? 237) with (cp / 4096 =? 13)
        by (destruct (Z.eqb_spec (cp / 4096) 13), (Z.eqb_spec (224 + cp / 4096) 237);
            reflexivity || lia).
      reflexivity. }
    rewrite L. cbn [fst snd app].
    rewrite continue
      by (cbn [pending_lower pending_upper];
          destruct (Z.eqb_spec (cp / 4096) 0), (Z.eqb_spec (cp / 4096) 13); arith).
    cbn [pending_needed pending_code_point].
    rewrite continue by (cbn [pending_lower pending_upper]; arith). cbn [pending_needed pending_code_point].
    do 2 f_equal. arith. }
  cbn [app]. rewrite start.
  assert (L : utf8_lead (240 + cp / 262144)
              = ([], Some (MkPending (cp / 262144) 3
                             (if cp / 262144 =? 0 then 144 else 128)
                             (if cp / 262144 =? 4 then 143 else 191)))).
  { unfold utf8_lead. rewrite land_7.
    destruct (Z.leb_spec (240 + cp / 262144) 127); [exfalso; arith|].
    destruct (Z.leb_spec 194 (240 + cp / 262144)); [|exfalso; arith].
    destruct (Z.leb_spec (240 + cp / 262144) 223); [exfalso; arith|].
    destruct (Z.leb_spec 224 (240 + cp / 262144)); [|exfalso; arith].
    destruct (Z.leb_spec (240 + cp / 262144) 239); [exfalso; arith|].
    destruct (Z.leb_spec 240 (240 + cp / 262144)); [|exfalso; arith].
    destruct (Z.leb_spec (240 + cp / 262144) 244); [|exfalso; arith].
    cbn [andb].
    replace ((240 + cp / 262144) mod 8) with (cp / 262144) by arith.
    replace (240 + cp / 262144 =? 240) with (cp / 262144 =? 0)
      by (destruct (Z.eqb_spec (cp / 262144) 0), (Z.eqb_spec (240 + cp / 262144) 240);
          reflexivity || lia).
    replace (240 + cp / 262144 =? 244) with (cp / 262144 =? 4)
      by (destruct (Z.eqb_spec (cp / 262144) 4), (Z.eqb_spec (240 + cp / 262144) 244);
          reflexivity || lia).
    reflexivity. }
  rewrite L. cbn [fst snd app].
  rewrite continue
    by (cbn [pending_lower pending_upper];
        destruct (Z.eqb_spec (cp / 262144) 0), (Z.eqb_spec (cp / 262144) 4); arith).
  cbn [pending_needed pending_code_point].
  rewrite continue by (cbn [pending_lower pending_upper]; arith). cbn [pending_needed pending_code_point].
  rewrite continue by (cbn [pending_lower pending_upper]; arith). cbn [pending_needed pending_code_point].
  do 2 f_equal. arith.
Qed.

Lemma high_surrogate_iff u : is_high_surrogate u = true <-> 55296 <= u <= 56319.
Proof. unfold is_high_surrogate. rewrite andb_true_iff, !Z.leb_le. tauto. Qed.

Lemma low_surrogate_iff u : is_low_surrogate u = true <-> 56320 <= u <= 57343.
Proof. unfold is_low_surrogate. rewrite andb_true_iff, !Z.leb_le. tauto. Qed.

Lemma scalar_replacement : scalar replacement_character.
Proof. unfold scalar, replacement_character. lia. Qed.

Lemma scalar_pair u v :
  is_high_surrogate u = true -> is_low_surrogate v = true ->
  scalar (65536 + (u - 55296) * 1024 + (v - 56320)).
Proof.
  intros Hu%high_surrogate_iff Hv%low_surrogate_iff. unfold scalar. lia.
Qed.

Lemma scalar_unit u :
  code_unit u -> is_high_surrogate u = false -> is_low_surrogate u = false ->
  scalar u.
Proof.
  intros Hc Hh Hl. unfold scalar, code_unit in *. split; [lia|].
  intros R.
  destruct (Z.le_gt_cases u 56319).
  - assert (is_high_surrogate u = true) by (apply high_surrogate_iff; lia).
    congruence.
  - assert (is_low_surrogate u = true) by (apply low_surrogate_iff; lia).
    congruence.
Qed.

Lemma utf16_pair u v :
  is_high_surrogate u = true -> is_low_surrogate v = true ->
  utf16_units (65536 + (u - 55296) * 1024 + (v - 56320)) = [u; v].
Proof.
  intros Hu%high_surrogate_iff Hv%low_surrogate_iff. unfold utf16_units.
  destruct (Z.ltb_spec (65536 + (u - 55296) * 1024 + (v - 56320)) 65536); [lia|].
  f_equal; [|f_equal]; arith.
Qed.

Lemma utf16_unit u : code_unit u -> utf16_units u = [u].
Proof.
  intros H. unfold utf16_units, code_unit in *.
  destruct (Z.ltb_spec u 65536); [reflexivity | lia].
Qed.

Theorem decode_units s :
  Forall code_unit s ->
  utf8_decode_from None (utf8_units s) = toWellFormed s.
Proof.
  assert (G : forall n s, (length s <= n)%nat -> Forall code_unit s ->
              utf8_decode_from None (utf8_units s) = toWellFormed s).
  { induction n as [|n IH]; intros [|u rest] Hn Hs; try reflexivity;
      cbn [length] in Hn; [lia|].
    inversion Hs as [|? ? Hu Hrest]; subst.
    cbn [utf8_units toWellFormed].
    destruct (is_high_surrogate u) eqn:Hh.
    - destruct rest as [|v rest'].
      + change utf8_replacement with (utf8_code_point replacement_character ++ [])%list.
        rewrite decode_code_point by apply scalar_replacement. reflexivity.
      + inversion Hrest as [|? ? Hv Hrest']; subst.
        destruct (is_low_surrogate v) eqn:Hl.
        * rewrite decode_code_point by now apply scalar_pair.
          rewrite utf16_pair by assumption.
          rewrite IH; [reflexivity | cbn [length] in Hn; lia | assumption].
        * change utf8_replacement with (utf8_code_point replacement_character).
          rewrite decode_code_point by apply scalar_replacement.
          rewrite IH; [reflexivity | lia | assumption].
    - destruct (is_low_surrogate u) eqn:Hl.
      + change utf8_replacement with (utf8_code_point replacement_character).
        rewrite decode_code_point by apply scalar_replacement.
        rewrite IH; [reflexivity | lia | assumption].
      + rewrite decode_code_point by now apply scalar_unit.
        rewrite utf16_unit by assumption.
        rewrite IH; [reflexivity | lia | assumption]. }
  intros H. now apply (G (length s)).
Qed.

Lemma units_bytes s :
  Forall code_unit s -> Forall (fun z => 0 <= z < 256) (utf8_units s).
Proof.
  assert (R : Forall (fun z => 0 <= z < 256) utf8_replacement)
    by (repeat constructor; lia).
  assert (G : forall n s, (length s <= n)%nat -> Forall code_unit s ->
              Forall (fun z => 0 <= z < 256) (utf8_units s)).
  { induction n as [|n IH]; intros [|u rest] Hn Hs; try constructor;
      cbn [length] in Hn; [lia|].
    inversion Hs as [|? ? Hu Hrest]; subst.
    cbn [utf8_units].
    destruct (is_high_surrogate u) eqn:Hh.
    - destruct rest as [|v rest']; [exact R|].
      inversion Hrest as [|? ? Hv Hrest']; subst.
      destruct (is_low_surrogate v) eqn:Hl; apply Forall_app; split.
      + apply code_point_bytes. now apply scalar_pair.
      + apply IH; [cbn [length] in Hn; lia | assumption].
      + exact R.
      + apply IH; [lia | assumption].
    - destruct (is_low_surrogate u) eqn:Hl; apply Forall_app; split.
      + exact R.
      + apply IH; [lia | assumption].
      + apply code_point_bytes. now apply scalar_unit.
      + apply IH; [lia | assumption]. }
  intros H. now apply (G (length s)).
Qed.

Lemma toWellFormed_id s : isWellFormed s = true -> toWellFormed s = s.
Proof.
  assert (G : forall n s, (length s <= n)%nat -> isWellFormed s = true ->
              toWellFormed s = s).
  { induction n as [|n IH]; intros [|u rest] Hn Hs; try reflexivity;
      cbn [length] in Hn; [lia|].
    cbn [isWellFormed toWellFormed] in *.
    destruct (is_high_surrogate u).
    - destruct rest as [|v rest']; [discriminate|].
      destruct (is_low_surrogate v); [|discriminate].
      rewrite IH; [reflexivity | cbn [length] in Hn; lia | assumption].
    - destruct (is_low_surrogate u); [discriminate|].
      rewrite IH; [reflexivity | lia | assumption]. }
  intros H. now apply (G (length s)).
Qed.

Lemma strip_bom_other a l : a <> 239 -> strip_bom (a :: l) = a :: l.
Proof.
  intros H. unfold strip_bom. destruct l as [|b [|c l]]; try reflexivity.
  destruct (Z.eqb_spec a 239); [contradiction | reflexivity].
Qed.

Lemma strip_bom_code_point cp tail :
  scalar cp -> cp <> 65279 ->
  strip_bom (utf8_code_point cp ++ tail) = (utf8_code_point cp ++ tail)%list.
Proof.
  intros [R S] N. unfold utf8_code_point.
  destruct (Z.ltb_spec cp 128); [apply strip_bom_other; lia|].
  destruct (Z.ltb_spec cp 2048); [apply strip_bom_other; arith|].
  destruct (Z.ltb_spec cp 65536); [|apply strip_bom_other; arith].
  cbn [app strip_bom].
  destruct (Z.eqb_spec (224 + cp / 4096) 239); [|reflexivity].
  destruct (Z.eqb_spec (128 + (cp / 64) mod 64) 187); [|reflexivity].
  destruct (Z.eqb_spec (128 + cp mod 64) 191); [|reflexivity].
  exfalso. arith.
Qed.

Lemma strip_bom_units s :
  Forall code_unit s ->
  strip_bom (utf8_units s) =
  match s with
  | u :: rest => if u =? 65279 then utf8_units rest else utf8_units s
  | [] => []
  end.
Proof.
  intros Hs. destruct s as [|u rest]; [reflexivity|].
  inversion Hs as [|? ? Hu Hrest]; subst.
  destruct (Z.eqb_spec u 65279) as [->|N]; [reflexivity|].
  cbn [utf8_units].
  destruct (is_high_surrogate u) eqn:Hh.
  - destruct rest as [|v rest']; [reflexivity|].
    destruct (is_low_surrogate v) eqn:Hl.
    + apply strip_bom_code_point; [now apply scalar_pair|].
      apply high_surrogate_iff in Hh. apply low_surrogate_iff in Hl. lia.
    + reflexivity.
  - destruct (is_low_surrogate u) eqn:Hl; [reflexivity|].
    apply strip_bom_code_point; [now apply scalar_unit | assumption].
Qed.

Lemma toWellFormed_head u rest :
  u = 65279 -> toWellFormed (u :: rest) = u :: toWellFormed rest.
Proof. intros ->. reflexivity. Qed.

(** Decoding the encoding of a text gives the text with each lone
    surrogate replaced and without a byte order mark at its start. *)
Theorem decode_encode s :
  Forall code_unit s ->
  TextDecoder_decode (utf8_encode s) = drop_bom (toWellFormed s).
Proof.
  intros Hs. unfold TextDecoder_decode, utf8_encode.
  rewrite map_byte_val_of_Z by now apply units_bytes.
  rewrite strip_bom_units by assumption.
  destruct s as [|u rest]; [reflexivity|].
  inversion Hs as [|? ? Hu Hrest]; subst.
  destruct (Z.eqb_spec u 65279) as [->|N].
  - rewrite decode_units by assumption. reflexivity.
  - rewrite decode_units by assumption.
    cbn [toWellFormed].
    destruct (is_high_surrogate u) eqn:Hh.
    + apply high_surrogate_iff in Hh.
      destruct rest as [|v rest']; [reflexivity|].
      destruct (is_low_surrogate v); cbn [drop_bom].
      * destruct (Z.eqb_spec u 65279); [lia | reflexivity].
      * reflexivity.
    + destruct (is_low_surrogate u); cbn [drop_bom]; [reflexivity|].
      destruct (Z.eqb_spec u 65279); [lia | reflexivity].
Qed.

Lemma decode_encode_well_formed s :
  Forall code_unit s -> isWellFormed s = true -> hd 0 s <> 65279 ->
  TextDecoder_decode (utf8_encode s) = s.
Proof.
  intros Hu Hw Hd. rewrite decode_encode by assumption.
  rewrite (toWellFormed_id _ Hw).
  destruct s as [|u rest]; [reflexivity|]. cbn [hd] in Hd. cbn [drop_bom].
  destruct (Z.eqb_spec u 65279); [contradiction | reflexivity].
Qed.

End Utf8Facts.

(** ** The methods of a card *)

Lemma MCard_new_content {St} (w w' : World St) c hashFunction forceHashAlgorithm card :
  MCard_new c hashFunction forceHashAlgorithm w = (Returned card, w') ->
  to_buffer c = Returned (content card) /\ content card <> [] /\
  originalContentType card = typeof c.
Proof.
  intros H.
  assert (Hc : c <> CNull) by (intros ->; discriminate).
  assert (Hf : hashFunction <> Null)
    by (intros ->; destruct c; discriminate).
  rewrite CardFacts.MCard_new_unfold in H by assumption.
  unfold bind, lift in H.
  destruct (to_buffer c) as [data|e]; [|discriminate].
  destruct data as [|b data]; [discriminate|]. cbn [length Nat.eqb] in H.
  destruct (hash_fields _ _) as [ha|e]; [|discriminate].
  unfold GTime.stamp_now, now, bind, ret in H. inversion H. cbn.
  repeat split. discriminate.
Qed.

(** X1: [get_content()] of a card built from a text gives the text back with
    each lone surrogate replaced by U+FFFD and without a byte order mark at
    its start, hence the text itself when it is well formed and does not
    begin with U+FEFF; of a card built from a buffer it gives the buffer, and
    of a card built from an object the bytes of the JSON text, not the
    object. *)
Theorem get_content_round_trip :
  forall (St : Type) (w w' : World St) (c : Content) (hashFunction : Arg string)
         (forceHashAlgorithm : option string) (card : Card),
    MCard_new c hashFunction forceHashAlgorithm w = (Returned card, w') ->
    (forall text,
        c = CString text -> Forall code_unit text ->
        get_content card = TextValue (drop_bom (toWellFormed text)) /\
        (isWellFormed text = true -> hd 0%Z text <> 65279%Z ->
         get_content card = TextValue text)) /\
    (forall data, c = CBuffer data -> get_content card = BufferValue data) /\
    (forall props,
        c = CObject props ->
        get_content card
        = BufferValue (utf8_encode (JSON_stringify (JObject props)))).
Proof.
  intros St w w' c hashFunction forceHashAlgorithm card H.
  destruct (MCard_new_content _ _ _ _ H) as (Hb & _ & Ht).
  unfold get_content. rewrite Ht.
  split; [|split].
  - intros text -> Hu. cbn [typeof String.eqb Ascii.eqb Bool.eqb].
    cbn [to_buffer] in Hb. injection Hb as Hc. rewrite <- Hc.
    split; [now rewrite Utf8Facts.decode_encode|].
    intros Hw Hd. now rewrite Utf8Facts.decode_encode_well_formed.
  - intros data ->. cbn [to_buffer] in Hb. injection Hb as Hc. now rewrite <- Hc.
  - intros props ->. cbn [to_buffer] in Hb.
    destruct (Nat.eqb (length props) 0); [discriminate|].
    injection Hb as Hc. now rewrite <- Hc.
Qed.

Lemma get_content_round_trip_witness :
  MCard_new (CString hello_world) (Given "sha256") None empty_world
  = (Returned hello_card, tick empty_world) /\
  get_content hello_card = TextValue hello_world.
Proof.
  assert (H : MCard_new (CString hello_world) (Given "sha256") None empty_world
              = (Returned hello_card, tick empty_world))
    by (vm_compute; reflexivity).
  split; [exact H|].
  destruct (@get_content_round_trip _ _ _ _ _ _ _ H) as (T & _).
  assert (U : Forall code_unit hello_world)
    by (repeat constructor; unfold code_unit; cbn; lia).
  destruct (T hello_world eq_refl U) as [_ T2].
  apply T2; [reflexivity | discriminate].
Defined.

(** X8: in the implementation the file gives for a [Uint8Array],
    [SafeBuffer.toString] of [SafeBuffer.from(text)] under an encoding other
    than hex and base64 is the text with each lone surrogate replaced by
    U+FFFD and without a byte order mark at its start, hence the text itself
    when it is well formed and does not begin with U+FEFF.  Under hex and
    base64 it is the same fixed text for every buffer, and of a missing
    buffer it is the empty text. *)
Theorem toString_reads_back_text :
  forall (text : jsstring) (encoding : option string),
    Forall code_unit text ->
    encoding <> Some "hex" -> encoding <> Some "base64" ->
    SafeBuffer.toString (Some (SafeBuffer.from text)) encoding
    = drop_bom (toWellFormed text) /\
    (isWellFormed text = true -> hd 0%Z text <> 65279%Z ->
     SafeBuffer.toString (Some (SafeBuffer.from text)) encoding = text) /\
    (forall data : Buffer,
        SafeBuffer.toString (Some data) (Some "hex") = js "01020304" /\
        SafeBuffer.toString (Some data) (Some "base64") = js "AQIDBA==") /\
    SafeBuffer.toString None encoding = [].
Proof.
  intros text encoding Hu Hh Hb.
  assert (E : SafeBuffer.toString (Some (SafeBuffer.from text)) encoding
              = TextDecoder_decode (utf8_encode text)).
  { unfold SafeBuffer.toString, SafeBuffer.from.
    destruct encoding as [e|]; [|reflexivity].
    destruct (String.eqb_spec e "hex"); [congruence|].
    destruct (String.eqb_spec e "base64"); [congruence | reflexivity]. }
  rewrite E. split; [now apply Utf8Facts.decode_encode|].
  split; [intros; now apply Utf8Facts.decode_encode_well_formed|].
  split; [intros data; split; reflexivity | reflexivity].
Qed.

Lemma toString_reads_back_text_witness :
  SafeBuffer.toString (Some (SafeBuffer.from hello_world)) None = hello_world.
Proof.
  assert (U : Forall code_unit hello_world)
    by (repeat constructor; unfold code_unit; cbn; lia).
  destruct (@toString_reads_back_text hello_world None U ltac:(discriminate)
              ltac:(discriminate)) as (_ & T & _).
  apply T; [reflexivity | discriminate].
Defined.

(** ** Contents without bytes *)

Module EmptyFacts.
Local Open Scope Z_scope.

Lemma code_point_nonempty cp : utf8_code_point cp <> [].
Proof.
  unfold utf8_code_point.
  destruct (cp <? 128); [discriminate|].
  destruct (cp <? 2048); [discriminate|].
  destruct (cp <? 65536); discriminate.
Qed.

Lemma app_nonempty {A} (a b : list A) : a <> [] -> (a ++ b)%list <> [].
Proof. destruct a; [congruence | discriminate]. Qed.

Lemma utf8_units_nonempty u rest : utf8_units (u :: rest) <> [].
Proof.
  cbn [utf8_units].
  destruct (is_high_surrogate u).
  - destruct rest as [|v rest']; [discriminate|].
    destruct (is_low_surrogate v); apply app_nonempty;
      [apply code_point_nonempty | discriminate].
  - destruct (is_low_surrogate u); apply app_nonempty;
      [discriminate | apply code_point_nonempty].
Qed.

Lemma utf8_encode_empty text : utf8_encode text = [] <-> text = [].
Proof.
  split; [|intros ->; reflexivity].
  destruct text as [|u rest]; [reflexivity|].
  unfold utf8_encode. intros H. apply map_eq_nil in H.
  now apply utf8_units_nonempty in H.
Qed.

(** The contents whose bytes are none: the empty text and the empty
    buffer. *)
Lemma to_buffer_empty c :
  to_buffer c = Returned [] <-> c = CString [] \/ c = CBuffer [].
Proof.
  split.
  - destruct c as [| |b|text|props|props|elements|z|b]; cbn [to_buffer];
      try discriminate.
    + intros H. injection H as ->. now right.
    + intros H. injection H as H. apply utf8_encode_empty in H. subst. now left.
    + destruct (Nat.eqb (length props) 0); [discriminate|].
      intros H. injection H as H. apply utf8_encode_empty in H. discriminate.
  - intros [->| ->]; reflexivity.
Qed.

End EmptyFacts.

(** X2: the constructor refuses a content with EmptyContent exactly when it
    is the empty text or the empty buffer (the hash function not being
    [null]): an object or an array always has bytes, and so has every text
    that is not empty. *)
Theorem empty_content_is_empty_text_or_buffer :
  forall (St : Type) (w : World St) (c : Content) (hashFunction : Arg string)
         (forceHashAlgorithm : option string),
    hashFunction <> Null ->
    (thrown (MCard_new c hashFunction forceHashAlgorithm w) = Some EmptyContent
     <-> c = CString [] \/ c = CBuffer []) /\
    (c = CString [] \/ c = CBuffer [] ->
     MCard_new c hashFunction forceHashAlgorithm w
     = (Thrown (MkError EmptyContent
                  "Content cannot be empty after conversion to Buffer."), w)).
Proof.
  intros St w c hashFunction forceHashAlgorithm Hf.
  assert (G : c = CString [] \/ c = CBuffer [] ->
              MCard_new c hashFunction forceHashAlgorithm w
              = (Thrown (MkError EmptyContent
                           "Content cannot be empty after conversion to Buffer."), w)).
  { intros H. apply EmptyFacts.to_buffer_empty in H.
    now apply CardFacts.MCard_new_empty. }
  split; [|exact G]. split; [|intros H; now rewrite (G H)].
  destruct c as [| |b|text|props|props|elements|z|b']; try discriminate;
    (rewrite CardFacts.MCard_new_unfold by (discriminate || assumption);
     unfold bind, lift;
     destruct (to_buffer _) as [data|e] eqn:B;
       [|cbn [to_buffer] in B;
         try (destruct (Nat.eqb (length props) 0)); inversion B; discriminate];
     destruct data as [|x data];
       [intros _; now apply EmptyFacts.to_buffer_empty|];
     cbn [length Nat.eqb];
     destruct (hash_fields _ _) as [ha|e] eqn:F;
       [discriminate|];
     cbn [thrown fst]; intros K; exfalso;
     apply ErrorFacts.hash_fields_thrown in F; rewrite F in K; discriminate).
Qed.

Lemma empty_content_is_empty_text_or_buffer_witness :
  thrown (MCard_new (CString []) Absent None empty_world) = Some EmptyContent /\
  thrown (MCard_new (CObject []) Absent None empty_world) = Some InvalidContent.
Proof.
  destruct (@empty_content_is_empty_text_or_buffer _ empty_world (CString []) Absent
              None ltac:(discriminate)) as (T & _).
  split; [apply T; now left | reflexivity].
Defined.

(** ** Cards rebuilt from stored data *)

Module FromDataFacts.

Lemma falsy_string_iff (a : Arg string) :
  falsy_string a = true <-> a = Absent \/ a = Null \/ a = Given "".
Proof.
  destruct a as [| |s]; cbn; [tauto | tauto |].
  destruct (String.eqb_spec s ""); split; try tauto; try discriminate.
  - intros _. subst. tauto.
  - intros [H|[H|H]]; try discriminate. inversion H. contradiction.
Qed.

Lemma falsy_string_given (a : Arg string) :
  falsy_string a = false -> a = Given (given_string a) /\ given_string a <> "".
Proof.
  destruct a as [| |s]; cbn; try discriminate.
  destruct (String.eqb_spec s ""); [discriminate | now split].
Qed.

(** The hash and the algorithm of a new card are those of [hash_fields]. *)
Lemma MCard_new_fields {St} (w w' : World St) c hashFunction forceHashAlgorithm card :
  MCard_new c hashFunction forceHashAlgorithm w = (Returned card, w') ->
  exists data,
    to_buffer c = Returned data /\ data <> [] /\ content card = data /\
    hash_fields data (forced_algorithm forceHashAlgorithm (chosen_algorithm hashFunction))
    = Returned (hash card, hash_algorithm card) /\
    g_time card
    = hash_algorithm card ++ "|" ++ wall_clock w (reads w) ++ "|" ++ region w /\
    originalContentType card = typeof c /\
    hash_function card = None /\ content_type card = None /\
    w' = tick w.
Proof.
  intros H.
  assert (Hc : c <> CNull) by (intros ->; discriminate).
  assert (Hf : hashFunction <> Null)
    by (intros ->; destruct c; discriminate).
  rewrite CardFacts.MCard_new_unfold in H by assumption.
  unfold bind, lift in H.
  destruct (to_buffer c) as [data|e]; [|discriminate].
  destruct data as [|b data]; [discriminate|]. cbn [length Nat.eqb] in H.
  destruct (hash_fields _ _) as [[h a]|e] eqn:F; [|discriminate].
  unfold GTime.stamp_now, now, bind, ret in H. inversion H. cbn.
  exists (b :: data). repeat split; discriminate || reflexivity || exact F.
Qed.

(** Rebuilding a card from well-formed stored data, in any world. *)
Lemma MCardFromData_row {St} (w : World St) (r : MemoryEngine.Row) :
  well_formed_row r ->
  MCardFromData (CBuffer (MemoryEngine.row_content r))
    (Given (MemoryEngine.row_hash r)) (Given (MemoryEngine.row_g_time r)) w
  = (Returned (card_of_row r), tick w).
Proof.
  intros Hr. pose proof (MemoryFacts.well_formed_stamp Hr) as Hg.
  destruct Hr as (Hc & Hh & Hk).
  destruct (createHash (GTime.get_hash_function (MemoryEngine.row_g_time r)))
    as [h|] eqn:E; [clear Hk | congruence].
  unfold MCardFromData.
  cbn [falsy_content falsy_string given_string].
  destruct (String.eqb_spec (MemoryEngine.row_hash r) ""); [contradiction|].
  destruct (String.eqb_spec (MemoryEngine.row_g_time r) ""); [contradiction|].
  unfold bind.
  rewrite (@CardFacts.MCard_new_known St (CBuffer (MemoryEngine.row_content r))
             (Given (GTime.get_hash_function (MemoryEngine.row_g_time r)))
             (MemoryEngine.row_content r) h w ltac:(discriminate) eq_refl Hc E).
  reflexivity.
Qed.

Lemma MCardFromData_returned {St} (w w' : World St) c hash_value g_time_str card :
  MCardFromData c hash_value g_time_str w = (Returned card, w') ->
  exists data h g,
    c = CBuffer data /\ data <> [] /\
    hash_value = Given h /\ h <> "" /\ g_time_str = Given g /\ g <> "" /\
    content card = data /\ hash card = h /\ g_time card = g /\
    hash_function card = Some (GTime.get_hash_function g) /\
    content_type card = Some (ContentTypeInterpreter.detectType data) /\
    w' = tick w.
Proof.
  unfold MCardFromData.
  destruct (falsy_content c) eqn:Ec; [discriminate|].
  destruct c as [| |data|s|props|props|elements|z|b]; try discriminate.
  destruct (falsy_string hash_value) eqn:Eh; [discriminate|].
  destruct (falsy_string g_time_str) eqn:Eg; [discriminate|].
  apply falsy_string_given in Eh, Eg.
  destruct Eh as [Eh Nh], Eg as [Eg Ng].
  unfold bind.
  destruct (MCard_new _ _ _ w) as [[parent|e] w1] eqn:P; [|discriminate].
  apply MemoryFacts.MCard_new_buffer_returned in P. destruct P as (Pc & Pd & ->).
  unfold ret. intros H. inversion H. cbn.
  exists data, (given_string hash_value), (given_string g_time_str).
  repeat split; assumption.
Qed.

End FromDataFacts.

(** X4: [new MCardFromData(content, hash_value, g_time_str)] checks its
    arguments in this order and reads no clock before they pass: a falsy
    content and a content that is not a buffer are refused, then a missing
    or empty hash, then a missing or empty time stamp; an empty buffer
    passes these checks and is refused by the parent constructor.  A card
    that is returned carries the given bytes, hash and stamp: the digest the
    parent constructor computed is overwritten and never compared. *)
Theorem reconstruction_checks_its_arguments :
  forall (St : Type) (w : World St) (c : Content) (hash_value g_time_str : Arg string),
    let result := MCardFromData c hash_value g_time_str w in
    let missing (a : Arg string) := a = Absent \/ a = Null \/ a = Given "" in
    (In c [CNull; CUndefined; CString []; CNumber 0; CBoolean false] ->
     result = (Thrown (MkError InvalidContent "Content cannot be null or empty"), w)) /\
    ((exists s, c = CString s /\ s <> []) \/ (exists z, c = CNumber z /\ z <> 0%Z) \/
     c = CBoolean true \/ (exists props, c = CObject props) \/
     (exists elements, c = CArray elements) ->
     result =
     (Thrown (MkError InvalidContent
                "Content must be a Buffer when initializing from existing data."), w)) /\
    (forall data,
        c = CBuffer data ->
        (missing hash_value ->
         result =
         (Thrown (MkError InvalidArgument "Hash value cannot be None or empty"), w)) /\
        (~ missing hash_value -> missing g_time_str ->
         result =
         (Thrown (MkError InvalidArgument "g_time string cannot be None or empty"), w)) /\
        (~ missing hash_value -> ~ missing g_time_str -> data = [] ->
         result =
         (Thrown (MkError EmptyContent
                    "Content cannot be empty after conversion to Buffer."), w))) /\
    (forall card w',
        result = (Returned card, w') ->
        exists data h g,
          c = CBuffer data /\ data <> [] /\
          hash_value = Given h /\ h <> "" /\ g_time_str = Given g /\ g <> "" /\
          content card = data /\ hash card = h /\ g_time card = g /\
          hash_function card = Some (GTime.get_hash_function g) /\
          content_type card = Some (ContentTypeInterpreter.detectType data) /\
          w' = tick w).
Proof.
  intros St w c hash_value g_time_str result missing.
  split; [|split; [|split]].
  - cbn [In]. intros [<-|[<-|[<-|[<-|[<-|[]]]]]]; reflexivity.
  - intros [(s & -> & Hs)|[(z & -> & Hz)|[->|[(props & ->)|(elements & ->)]]]];
      try reflexivity.
    + destruct s; [congruence | reflexivity].
    + unfold result, MCardFromData. cbn [falsy_content].
      destruct (Z.eqb_spec z 0); [contradiction | reflexivity].
  - intros data ->. unfold result, MCardFromData. cbn [falsy_content].
    split; [|split].
    + intros H. apply FromDataFacts.falsy_string_iff in H. now rewrite H.
    + intros Hh Hg.
      destruct (falsy_string hash_value) eqn:Eh;
        [now apply FromDataFacts.falsy_string_iff in Eh|].
      apply FromDataFacts.falsy_string_iff in Hg. now rewrite Hg.
    + intros Hh Hg ->.
      destruct (falsy_string hash_value) eqn:Eh;
        [now apply FromDataFacts.falsy_string_iff in Eh|].
      destruct (falsy_string g_time_str) eqn:Eg;
        [now apply FromDataFacts.falsy_string_iff in Eg|].
      reflexivity.
  - intros card w'. apply FromDataFacts.MCardFromData_returned.
Qed.

(** X5: the dictionary of a card is enough to rebuild it: for a card the
    constructor built under an algorithm of the closed set,
    [new MCardFromData(d.content, d.hash, d.g_time)] of its dictionary [d]
    returns a card with the same bytes, hash, stamp and algorithm, equal to
    the first under [equals]; its own dictionary repeats the three stored
    fields, names the detected content type and has no [hash_algorithm].
    The rebuilt card does not read back as text: its [get_content()] is the
    buffer, also when the first card was built from a string. *)
Theorem dictionary_rebuilds_card :
  forall (St St' : Type) (w w' : World St) (w2 : World St') (c : Content)
         (hashFunction : Arg string) (card : Card),
    hashFunction <> Null ->
    createHash (chosen_algorithm hashFunction) <> None ->
    MCard_new c hashFunction None w = (Returned card, w') ->
    let d := to_dict card in
    exists rebuilt,
      MCardFromData (CBuffer (dict_content d)) (Given (dict_hash d))
        (Given (dict_g_time d)) w2 = (Returned rebuilt, tick w2) /\
      content rebuilt = content card /\ hash rebuilt = hash card /\
      g_time rebuilt = g_time card /\
      hash_algorithm rebuilt = hash_algorithm card /\
      hash_function rebuilt = Some (hash_algorithm card) /\
      equals rebuilt card = true /\
      get_content rebuilt = BufferValue (content card) /\
      MCardFromData_to_dict rebuilt =
      {| dict_content := dict_content d; dict_hash := dict_hash d;
         dict_g_time := dict_g_time d; dict_hash_algorithm := None;
         dict_content_type :=
           Some (Some (ContentTypeInterpreter.detectType (content card))) |}.
Proof.
  intros St St' w w' w2 c hashFunction card Hf Hk H d.
  pose proof (@MCard_new_well_formed St w w' c hashFunction card Hf Hk H) as Hw.
  destruct (@MCard_new_returned St w w' c hashFunction card Hf Hk H)
    as (data & h & _ & Hd & Hh & Hcard & _).
  exists (card_of_row (MemoryEngine.row_of card)). split.
  { exact (FromDataFacts.MCardFromData_row w2 Hw). }
  assert (Ha : GTime.get_hash_function (g_time card) = hash_algorithm card).
  { rewrite Hcard. cbn [fresh_card g_time hash_algorithm].
    exact (@get_hash_function_stamp _ h _ Hh). }
  unfold card_of_row, MCardFromData_to_dict, equals, get_content.
  cbn [MemoryEngine.row_of MemoryEngine.row_content MemoryEngine.row_hash
       MemoryEngine.row_g_time content hash g_time hash_algorithm hash_function
       content_type originalContentType d to_dict dict_content dict_hash
       dict_g_time].
  rewrite Ha, String.eqb_refl. repeat split.
Qed.

(** X3: [equals] compares hashes and nothing else.  It is an equivalence on
    cards; two cards the constructor builds from contents with the same
    bytes under the same algorithm are equal whenever and wherever they are
    built; and a card rebuilt from stored data with the hash of a card is
    equal to that card whatever its bytes are. *)
Theorem equals_compares_hashes :
  (forall a b c : Card,
      equals a a = true /\ equals a b = equals b a /\
      (equals a b = true -> equals b c = true -> equals a c = true)) /\
  (forall (St St' : Type) (w1 w1' : World St) (w2 w2' : World St')
          (c1 c2 : Content) (hashFunction : Arg string)
          (forceHashAlgorithm : option string) (card1 card2 : Card),
      to_buffer c1 = to_buffer c2 ->
      MCard_new c1 hashFunction forceHashAlgorithm w1 = (Returned card1, w1') ->
      MCard_new c2 hashFunction forceHashAlgorithm w2 = (Returned card2, w2') ->
      equals card1 card2 = true) /\
  (forall (St : Type) (w w' : World St) (card rebuilt : Card) (data : Buffer)
          (g_time_str : Arg string),
      MCardFromData (CBuffer data) (Given (hash card)) g_time_str w
      = (Returned rebuilt, w') ->
      equals rebuilt card = true).
Proof.
  split; [|split].
  - intros a b c. unfold equals. split; [apply String.eqb_refl|]. split.
    + apply String.eqb_sym.
    + rewrite !String.eqb_eq. congruence.
  - intros St St' w1 w1' w2 w2' c1 c2 hashFunction forceHashAlgorithm card1 card2
           Hb H1 H2.
    apply FromDataFacts.MCard_new_fields in H1, H2.
    destruct H1 as (d1 & B1 & _ & _ & F1 & _), H2 as (d2 & B2 & _ & _ & F2 & _).
    assert (d1 = d2) by congruence. subst d2.
    unfold equals. apply String.eqb_eq. congruence.
  - intros St w w' card rebuilt data g_time_str H.
    destruct (FromDataFacts.MCardFromData_returned _ _ _ _ H)
      as (d & h & g & _ & _ & Eh & _ & _ & _ & _ & Hh & _).
    inversion Eh. unfold equals. apply String.eqb_eq. congruence.
Qed.

Lemma reconstruction_checks_its_arguments_witness :
  MCardFromData (CString (js "Not a buffer")) (Given "test-hash-value")
    (Given row_stamp) empty_world
  = (Thrown (MkError InvalidContent
               "Content must be a Buffer when initializing from existing data."),
     empty_world) /\
  MCardFromData (CBuffer (bytes_of_string "Content")) Null (Given row_stamp)
    empty_world
  = (Thrown (MkError InvalidArgument "Hash value cannot be None or empty"),
     empty_world) /\
  MCardFromData (CBuffer (bytes_of_string "Content")) (Given "test-hash-value") Null
    empty_world
  = (Thrown (MkError InvalidArgument "g_time string cannot be None or empty"),
     empty_world).
Proof.
  split; [|split].
  - destruct (reconstruction_checks_its_arguments empty_world
                (CString (js "Not a buffer")) (Given "test-hash-value")
                (Given row_stamp)) as (_ & T & _).
    apply T. left. exists (js "Not a buffer"). split; [reflexivity | discriminate].
  - destruct (reconstruction_checks_its_arguments empty_world
                (CBuffer (bytes_of_string "Content")) Null (Given row_stamp))
      as (_ & _ & T & _).
    destruct (T _ eq_refl) as (T1 & _). apply T1. right. now left.
  - destruct (reconstruction_checks_its_arguments empty_world
                (CBuffer (bytes_of_string "Content")) (Given "test-hash-value") Null)
      as (_ & _ & T & _).
    destruct (T _ eq_refl) as (_ & T2 & _). apply T2.
    + intros [H|[H|H]]; discriminate.
    + right. now left.
Defined.

Lemma dictionary_rebuilds_card_witness :
  MCard_new (CString hello_world) (Given "sha256") None empty_world
  = (Returned hello_card, tick empty_world) /\
  exists rebuilt,
    MCardFromData (CBuffer (bytes_of_string "Hello, World!")) (Given hello_digest)
      (Given (g_time hello_card)) empty_world
    = (Returned rebuilt, tick empty_world) /\
    hash rebuilt = hello_digest /\ hash_algorithm rebuilt = "sha256" /\
    equals rebuilt hello_card = true.
Proof.
  assert (Hf : Given "sha256" <> @Null string) by discriminate.
  assert (Hk : createHash (chosen_algorithm (Given "sha256")) <> None)
    by discriminate.
  assert (H : MCard_new (CString hello_world) (Given "sha256") None empty_world
              = (Returned hello_card, tick empty_world))
    by (vm_compute; reflexivity).
  split; [exact H|].
  destruct (@dictionary_rebuilds_card _ _ empty_world (tick empty_world) empty_world
              (CString hello_world) (Given "sha256") hello_card Hf Hk H)
    as (rebuilt & E & _ & Hh & _ & Ha & _ & He & _ & _).
  exists rebuilt. split; [exact E|]. split; [exact Hh|]. split; [exact Ha | exact He].
Defined.

Lemma equals_compares_hashes_witness :
  equals card_A (fresh_card (bytes_of_string "A") digest_A "sha256" noon "UTC" "object")
  = true /\
  equals card_A card_B_forged = true.
Proof.
  destruct equals_compares_hashes as (R & T & _).
  split.
  - assert (B : to_buffer (CString (js "A")) = to_buffer (CBuffer (bytes_of_string "A")))
      by (vm_compute; reflexivity).
    assert (H1 : MCard_new (CString (js "A")) (Given "sha256") None empty_world
                 = (Returned card_A, tick empty_world))
      by (vm_compute; reflexivity).
    assert (H2 : MCard_new (CBuffer (bytes_of_string "A")) (Given "sha256") None
                   (tick empty_world)
                 = (Returned (fresh_card (bytes_of_string "A") digest_A "sha256" noon
                                "UTC" "object"),
                    tick (tick empty_world)))
      by (vm_compute; reflexivity).
    exact (T _ _ _ _ _ _ _ _ _ _ _ _ B H1 H2).
  - destruct (R card_A card_B_forged card_A) as (_ & S & _).
    rewrite S. reflexivity.
Defined.

(** ** More on [SafeBuffer] *)

Module BufferOrder.
Import SafeBuffer.
Local Open Scope Z_scope.

Lemma compare_antisym a b : compare b a = - compare a b.
Proof.
  revert b. induction a as [|x a IH]; intros [|y b]; try reflexivity.
  rewrite !SafeBufferFacts.compare_cons.
  destruct (Z.ltb_spec (byte_val y) (byte_val x)),
           (Z.ltb_spec (byte_val x) (byte_val y)),
           (Z.gtb_spec (byte_val y) (byte_val x)),
           (Z.gtb_spec (byte_val x) (byte_val y));
    try lia; try reflexivity; apply IH.
Qed.

Lemma compare_trans a b c :
  compare a b = -1 -> compare b c = -1 -> compare a c = -1.
Proof.
  revert b c. induction a as [|x a IH]; intros [|y b] [|z c];
    rewrite ?SafeBufferFacts.compare_nil_l, ?SafeBufferFacts.compare_nil_r;
    try discriminate; try reflexivity.
  rewrite !SafeBufferFacts.compare_cons.
  destruct (Z.ltb_spec (byte_val x) (byte_val y)),
           (Z.ltb_spec (byte_val y) (byte_val z)),
           (Z.ltb_spec (byte_val x) (byte_val z)),
           (Z.gtb_spec (byte_val x) (byte_val y)),
           (Z.gtb_spec (byte_val y) (byte_val z)),
           (Z.gtb_spec (byte_val x) (byte_val z));
    try lia; try discriminate; try reflexivity; apply IH.
Qed.

Lemma compare_app p a b : compare (p ++ a)%list (p ++ b)%list = compare a b.
Proof.
  induction p as [|x p IH]; [reflexivity|].
  cbn [app]. rewrite SafeBufferFacts.compare_cons.
  destruct (Z.ltb_spec (byte_val x) (byte_val x)); [lia|].
  destruct (Z.gtb_spec (byte_val x) (byte_val x)); [lia | exact IH].
Qed.

End BufferOrder.

(** X6: [SafeBuffer.compare] is a total order on buffers: exchanging the
    arguments flips the sign, "before" is transitive, and a common prefix
    does not change the result. *)
Theorem compare_orders_buffers :
  forall a b c : Buffer,
    SafeBuffer.compare b a = (- SafeBuffer.compare a b)%Z /\
    (SafeBuffer.compare a b = (-1)%Z -> SafeBuffer.compare b c = (-1)%Z ->
     SafeBuffer.compare a c = (-1)%Z) /\
    SafeBuffer.compare (c ++ a)%list (c ++ b)%list = SafeBuffer.compare a b.
Proof.
  intros a b c. split; [apply BufferOrder.compare_antisym|].
  split; [apply BufferOrder.compare_trans | apply BufferOrder.compare_app].
Qed.

Lemma compare_orders_buffers_witness :
  SafeBuffer.compare (bytes_of_string "ab") (bytes_of_string "b") = (-1)%Z /\
  SafeBuffer.compare (bytes_of_string "b") (bytes_of_string "ba") = (-1)%Z /\
  SafeBuffer.compare (bytes_of_string "ab") (bytes_of_string "ba") = (-1)%Z /\
  SafeBuffer.compare (bytes_of_string "ba") (bytes_of_string "ab") = 1%Z.
Proof.
  assert (H1 : SafeBuffer.compare (bytes_of_string "ab") (bytes_of_string "b")
               = (-1)%Z) by reflexivity.
  assert (H2 : SafeBuffer.compare (bytes_of_string "b") (bytes_of_string "ba")
               = (-1)%Z) by reflexivity.
  destruct (compare_orders_buffers (bytes_of_string "ab") (bytes_of_string "b")
              (bytes_of_string "ba")) as (_ & T & _).
  pose proof (T H1 H2) as H3.
  destruct (compare_orders_buffers (bytes_of_string "ab") (bytes_of_string "ba") [])
    as (A & _).
  split; [exact H1|]. split; [exact H2|]. split; [exact H3|].
  rewrite A, H3. reflexivity.
Defined.

Module ConcatFacts.
Import SafeBuffer.

Lemma total_length (buffers : list Buffer) n :
  fold_left (fun acc buf => (acc + length buf)%nat) buffers n
  = (n + length (List.concat buffers))%nat.
Proof.
  revert n. induction buffers as [|buf buffers IH]; intros n; cbn [fold_left List.concat].
  - cbn. lia.
  - rewrite IH, length_app. lia.
Qed.

Lemma set_spec (pre old rest buf : Buffer) :
  length old = length buf ->
  Uint8Array_set (pre ++ old ++ rest)%list buf (length pre)
  = Some (pre ++ buf ++ rest)%list.
Proof.
  intros H. unfold Uint8Array_set.
  destruct (Nat.ltb_spec (length (pre ++ old ++ rest)%list) (length pre + length buf)) as [L|L].
  { rewrite !length_app in L. lia. }
  f_equal.
  rewrite firstn_app, firstn_all, Nat.sub_diag. cbn [firstn]. rewrite app_nil_r.
  f_equal. f_equal.
  rewrite skipn_app, skipn_all2 by lia.
  replace (length pre + length buf - length pre)%nat with (length old) by lia.
  cbn [app]. rewrite skipn_app, skipn_all, Nat.sub_diag. reflexivity.
Qed.

(** The loop writes the buffers one behind the other over the bytes that
    follow [offset], and never past the end of [result]. *)
Lemma concat_loop_spec buffers : forall pre old rest : Buffer,
  length old = length (List.concat buffers) ->
  concat_loop buffers (pre ++ old ++ rest)%list (length pre)
  = Some (pre ++ List.concat buffers ++ rest)%list.
Proof.
  induction buffers as [|buf buffers IH]; intros pre old rest H.
  - cbn [List.concat length] in *. destruct old; [reflexivity | discriminate].
  - cbn [concat_loop List.concat] in *. rewrite length_app in H.
    rewrite <- (firstn_skipn (length buf) old), <- app_assoc.
    rewrite set_spec by (rewrite length_firstn; lia).
    replace (length pre + length buf)%nat with (length (pre ++ buf)%list)
      by apply length_app.
    rewrite (app_assoc pre buf).
    rewrite IH by (rewrite length_skipn; lia).
    now rewrite <- !app_assoc.
Qed.

End ConcatFacts.

(** X7: [SafeBuffer.concat] never fails and returns the bytes of the buffers
    one behind the other, in order; its length is the sum of the lengths, an
    empty list gives the empty buffer, and concatenating in two steps is
    concatenating at once. *)
Theorem concat_joins_buffers :
  forall buffers : list Buffer,
    SafeBuffer.concat buffers = Some (List.concat buffers) /\
    (forall more : list Buffer,
        SafeBuffer.concat (List.concat buffers :: more)
        = SafeBuffer.concat (buffers ++ more)%list) /\
    (forall a b : Buffer,
        SafeBuffer.concat [a; b] = Some (a ++ b)%list /\
        SafeBuffer.compare (a ++ b)%list a
        = match b with [] => 0%Z | _ => 1%Z end).
Proof.
  assert (G : forall buffers, SafeBuffer.concat buffers = Some (List.concat buffers)).
  { intros buffers. unfold SafeBuffer.concat. cbv zeta.
    rewrite ConcatFacts.total_length. cbn [Nat.add].
    pose proof (@ConcatFacts.concat_loop_spec buffers []
                  (repeat x00 (length (List.concat buffers))) []
                  (repeat_length _ _)) as E.
    cbn [app length] in E. rewrite !app_nil_r in E. exact E. }
  intros buffers. split; [apply G|]. split.
  - intros more. rewrite !G. cbn [List.concat]. now rewrite concat_app.
  - intros a b. split.
    + rewrite G. cbn [List.concat]. now rewrite app_nil_r.
    + rewrite <- (app_nil_r a) at 2. rewrite BufferOrder.compare_app.
      apply SafeBufferFacts.compare_nil_r.
Qed.

(** ** More on content type detection *)

Module SignatureFacts.
Import ContentTypeInterpreter.
Local Open Scope Z_scope.

Lemma matches_app_true signature (data rest : Buffer) :
  matches signature data = true -> matches signature (data ++ rest)%list = true.
Proof.
  revert data. induction signature as [|s signature IH]; intros [|d data];
    cbn [matches app]; try reflexivity; try discriminate.
  rewrite !andb_true_iff. intros [H1 H2]. split; [assumption | now apply IH].
Qed.

Lemma matches_app_long signature (data rest : Buffer) :
  (length signature <= length data)%nat ->
  matches signature (data ++ rest)%list = matches signature data.
Proof.
  revert data. induction signature as [|s signature IH]; intros [|d data] H;
    cbn [matches app length] in *; try reflexivity; try lia.
  rewrite IH by lia. reflexivity.
Qed.

(** Every signature of the table has at most [n] bytes. *)
Definition short_table (table : list (string * list (list Z))) (n : nat) : Prop :=
  Forall (fun entry => Forall (fun signature => (length signature <= n)%nat) (snd entry))
         table.

Lemma short_table_le table n m :
  (n <= m)%nat -> short_table table n -> short_table table m.
Proof.
  intros Hnm H. unfold short_table in *.
  eapply Forall_impl; [|exact H]. intros entry He.
  eapply Forall_impl; [|exact He]. cbn. intros; lia.
Qed.

Lemma first_match_app_long table (data rest : Buffer) :
  short_table table (length data) ->
  first_match table (data ++ rest)%list = first_match table data.
Proof.
  induction 1 as [|[mime sigs] table Hs _ IH]; [reflexivity|].
  cbn [first_match]. rewrite IH.
  replace (existsb (fun signature => matches signature (data ++ rest)%list) sigs)
    with (existsb (fun signature => matches signature data) sigs); [reflexivity|].
  cbn [snd] in Hs. induction Hs as [|sig sigs Hsig _ IHs]; [reflexivity|].
  cbn [existsb]. now rewrite IHs, matches_app_long.
Qed.

(** The table around its one signature of more than four bytes. *)
Definition before_mp4 : list (string * list (list Z)) := firstn 8 signatures.
Definition mp4_signature : list Z := [0; 0; 0; 24; 102; 116; 121; 112].
Definition after_mp4 : list (string * list (list Z)) := skipn 9 signatures.

Lemma first_match_split (data : Buffer) :
  first_match signatures data =
  match first_match before_mp4 data with
  | Some mime => Some mime
  | None =>
      if matches mp4_signature data then Some "video/mp4"
      else first_match after_mp4 data
  end.
Proof.
  unfold before_mp4, after_mp4, mp4_signature, signatures.
  cbn [firstn skipn first_match existsb].
  rewrite !orb_false_r.
  repeat match goal with
         | |- context [if ?c then _ else _] => destruct c; try reflexivity
         end.
Qed.

Lemma short_before : short_table before_mp4 4.
Proof. repeat constructor. Qed.

Lemma short_after : short_table after_mp4 4.
Proof. repeat constructor. Qed.

Lemma mp4_starts_with_nul x (data : Buffer) :
  byte_val x <> 0 -> matches mp4_signature (x :: data) = false.
Proof.
  intros H. cbn [matches mp4_signature].
  destruct (Z.eqb_spec (byte_val x) 0); [contradiction | reflexivity].
Qed.

Lemma after_mp4_head x (data : Buffer) mime :
  first_match after_mp4 (x :: data) = Some mime -> byte_val x <> 0.
Proof.
  intros H E. unfold after_mp4, signatures in H.
  cbn [skipn first_match existsb matches] in H. rewrite E in H.
  cbn in H. discriminate.
Qed.

(** A type found by signature is kept when bytes are appended. *)
Lemma first_match_stable (data rest : Buffer) mime :
  (4 <= length data)%nat ->
  first_match signatures data = Some mime ->
  first_match signatures (data ++ rest)%list = Some mime.
Proof.
  intros Hl. rewrite !first_match_split.
  rewrite !first_match_app_long
    by (eapply short_table_le; [exact Hl | apply short_before || apply short_after]).
  destruct (first_match before_mp4 data); [trivial|].
  destruct (matches mp4_signature data) eqn:M.
  - now rewrite (matches_app_true _ _ _ M).
  - intros H. destruct data as [|x data]; [cbn in Hl; lia|].
    cbn [app]. now rewrite (@mp4_starts_with_nul x (data ++ rest)%list (@after_mp4_head x data mime H)).
Qed.

(** Without a NUL byte, no match stays no match. *)
Lemma first_match_none_stable (data rest : Buffer) :
  (4 <= length data)%nat ->
  (forall b, In b data -> byte_val b <> 0) ->
  first_match signatures data = None ->
  first_match signatures (data ++ rest)%list = None.
Proof.
  intros Hl Hn. rewrite !first_match_split.
  rewrite !first_match_app_long
    by (eapply short_table_le; [exact Hl | apply short_before || apply short_after]).
  destruct (first_match before_mp4 data); [trivial|].
  destruct data as [|x data]; [cbn in Hl; lia|].
  rewrite (@mp4_starts_with_nul x data (Hn x (or_introl eq_refl))).
  cbn [app]. now rewrite (@mp4_starts_with_nul x (data ++ rest)%list (Hn x (or_introl eq_refl))).
Qed.

Lemma text_app (a b : Buffer) :
  isTextContent a = true -> isTextContent b = true ->
  isTextContent (a ++ b)%list = true.
Proof.
  intros Ha Hb.
  destruct a as [|x a]; [exact Hb|].
  destruct b as [|y b]; [now rewrite app_nil_r|].
  apply DetectorFacts.isTextContent_iff in Ha; [|discriminate].
  apply DetectorFacts.isTextContent_iff in Hb; [|discriminate].
  apply DetectorFacts.isTextContent_iff; [discriminate|].
  destruct Ha as [Na Pa], Hb as [Nb Pb]. split.
  - intros c Hc. apply in_app_or in Hc. destruct Hc; [now apply Na | now apply Nb].
  - rewrite filter_app, !length_app. lia.
Qed.

End SignatureFacts.

(** X9: [detectType] answers with one of thirteen types and never with
    audio/wav: the signature of that entry is the one of image/webp, which
    comes first in the table, so every buffer that begins with the four
    bytes "RIFF" is image/webp. *)
Theorem detectType_never_wav :
  forall data : Buffer,
    In (ContentTypeInterpreter.detectType data)
       ["image/jpeg"; "image/png"; "image/gif"; "image/webp"; "image/bmp";
        "application/pdf"; "audio/mpeg"; "video/mp4"; "video/webm";
        "application/zip"; "application/gzip"; "text/plain";
        "application/octet-stream"] /\
    ContentTypeInterpreter.detectType data <> "audio/wav" /\
    (forall rest : Buffer,
        ContentTypeInterpreter.detectType (bytes_of_string "RIFF" ++ rest)%list
        = "image/webp").
Proof.
  intros data.
  assert (G : In (ContentTypeInterpreter.detectType data)
       ["image/jpeg"; "image/png"; "image/gif"; "image/webp"; "image/bmp";
        "application/pdf"; "audio/mpeg"; "video/mp4"; "video/webm";
        "application/zip"; "application/gzip"; "text/plain";
        "application/octet-stream"]).
  { unfold ContentTypeInterpreter.detectType.
    destruct (length data <? 4)%nat; [cbn; tauto|].
    unfold ContentTypeInterpreter.signatures.
    cbn [ContentTypeInterpreter.first_match].
    repeat match goal with
           | |- context [if existsb ?f ?l then _ else _] =>
               destruct (existsb f l); [cbn; tauto|]
           end.
    destruct (ContentTypeInterpreter.isTextContent data); cbn; tauto. }
  split; [exact G|]. split.
  - intros E. rewrite E in G. cbn in G. intuition discriminate.
  - reflexivity.
Qed.

(** X10: a type that [detectType] finds by signature is kept when bytes are
    appended to the buffer, whatever they are. *)
Theorem signature_type_survives_appending :
  forall (data rest : Buffer) (mime : string),
    ContentTypeInterpreter.detectType data = mime ->
    mime <> "text/plain" -> mime <> "application/octet-stream" ->
    ContentTypeInterpreter.detectType (data ++ rest)%list = mime.
Proof.
  intros data rest mime H Ht Hb.
  destruct (Nat.lt_ge_cases (length data) 4) as [Hs|Hl].
  { rewrite (DetectorFacts.detectType_short _ Hs) in H. congruence. }
  rewrite (DetectorFacts.detectType_long _ Hl) in H.
  rewrite DetectorFacts.detectType_long by (rewrite length_app; lia).
  destruct (ContentTypeInterpreter.first_match ContentTypeInterpreter.signatures data)
    as [m|] eqn:E.
  - now rewrite (SignatureFacts.first_match_stable _ rest Hl E).
  - destruct (ContentTypeInterpreter.isTextContent data); congruence.
Qed.

(** X11: text stays text when text is appended: if [detectType] finds a
    buffer to be text/plain and [isTextContent] holds of a second buffer,
    the two joined are text/plain. *)
Theorem text_survives_appending_text :
  forall a b : Buffer,
    ContentTypeInterpreter.detectType a = "text/plain" ->
    ContentTypeInterpreter.isTextContent b = true ->
    ContentTypeInterpreter.detectType (a ++ b)%list = "text/plain".
Proof.
  intros a b Ha Hb.
  apply DetectorFacts.detectType_text_iff in Ha. destruct Ha as (Hl & Hm & Hp).
  assert (Hne : a <> []) by (intros ->; cbn in Hl; lia).
  rewrite DetectorFacts.detectType_long by (rewrite length_app; lia).
  rewrite (SignatureFacts.first_match_none_stable _ b Hl (proj1 Hp) Hm).
  apply (DetectorFacts.isTextContent_iff Hne) in Hp.
  now rewrite (SignatureFacts.text_app _ _ Hp Hb).
Qed.

Lemma signature_type_survives_appending_witness :
  ContentTypeInterpreter.detectType png_magic = "image/png" /\
  ContentTypeInterpreter.detectType (png_magic ++ bytes_of_string "plain text")%list
  = "image/png".
Proof.
  assert (H : ContentTypeInterpreter.detectType png_magic = "image/png")
    by reflexivity.
  split; [exact H|].
  apply (@signature_type_survives_appending png_magic (bytes_of_string "plain text")
           "image/png" H); discriminate.
Defined.

Lemma text_survives_appending_text_witness :
  ContentTypeInterpreter.detectType (bytes_of_string "Hello") = "text/plain" /\
  ContentTypeInterpreter.isTextContent (bytes_of_string ", World!") = true /\
  ContentTypeInterpreter.detectType (bytes_of_string "Hello" ++ bytes_of_string ", World!")%list
  = "text/plain".
Proof.
  assert (H1 : ContentTypeInterpreter.detectType (bytes_of_string "Hello") = "text/plain")
    by reflexivity.
  assert (H2 : ContentTypeInterpreter.isTextContent (bytes_of_string ", World!") = true)
    by reflexivity.
  split; [exact H1|]. split; [exact H2|].
  exact (@text_survives_appending_text _ _ H1 H2).
Defined.

Module PrintableFacts.
Import ContentTypeInterpreter.
Local Open Scope Z_scope.

Definition printable_value (v : Z) : bool :=
  ((32 <=? v) && (v <=? 126)) || (v =? 9) || (v =? 10) || (v =? 13).

(** A signature that matches printable bytes is printable. *)
Lemma matches_printable signature (data : Buffer) :
  (forall b, In b data -> printable b = true) ->
  matches signature data = true ->
  forallb printable_value signature = true.
Proof.
  revert data. induction signature as [|s signature IH]; intros [|d data] Hp;
    cbn [matches forallb]; try reflexivity; try discriminate.
  rewrite !andb_true_iff, Z.eqb_eq. intros [<- Hm]. split.
  - exact (Hp d (or_introl eq_refl)).
  - apply (IH data); [|assumption]. intros b Hb. apply Hp. now right.
Qed.

Lemma no_match signature (data : Buffer) :
  (forall b, In b data -> printable b = true) ->
  forallb printable_value signature = false ->
  matches signature data = false.
Proof.
  intros Hp Hs. destruct (matches signature data) eqn:M; [|reflexivity].
  rewrite (@matches_printable signature data Hp M) in Hs. discriminate.
Qed.

Lemma printable_not_nul b : printable b = true -> byte_val b <> 0.
Proof.
  unfold printable. cbv zeta. intros H E. rewrite E in H. discriminate.
Qed.

Lemma filter_all {A} (f : A -> bool) l :
  (forall x, In x l -> f x = true) -> filter f l = l.
Proof.
  induction l as [|x l IH]; intros H; [reflexivity|].
  cbn [filter]. rewrite (H x (or_introl eq_refl)), IH; [reflexivity|].
  intros y Hy. apply H. now right.
Qed.

Lemma all_printable_is_text (data : Buffer) :
  (forall b, In b data -> printable b = true) -> isTextContent data = true.
Proof.
  intros Hp. destruct data as [|x data]; [reflexivity|].
  apply DetectorFacts.isTextContent_iff; [discriminate|]. split.
  - intros b Hb. apply printable_not_nul. now apply Hp.
  - rewrite (@filter_all _ printable (x :: data) Hp). cbn [length]. lia.
Qed.

End PrintableFacts.

(** X24: a buffer of at least four bytes, all of them printable ASCII, tab,
    LF or CR, is text/plain for [detectType] unless it begins with "GIF8",
    "RIFF", "BM", "%PDF" or "ID3", in which case it is image/gif,
    image/webp, image/bmp, application/pdf or audio/mpeg: the signatures of
    these five types are the only ones made of printable characters. *)
Theorem printable_text_is_text_unless_it_begins_like_a_file :
  forall data : Buffer,
    (4 <= length data)%nat ->
    (forall b, In b data -> ContentTypeInterpreter.printable b = true) ->
    ContentTypeInterpreter.detectType data =
    if begins_with "GIF8" data then "image/gif"
    else if begins_with "RIFF" data then "image/webp"
    else if begins_with "BM" data then "image/bmp"
    else if begins_with "%PDF" data then "application/pdf"
    else if begins_with "ID3" data then "audio/mpeg"
    else "text/plain".
Proof.
  intros data Hl Hp.
  rewrite (DetectorFacts.detectType_long _ Hl).
  rewrite (@PrintableFacts.all_printable_is_text data Hp).
  unfold ContentTypeInterpreter.signatures, begins_with.
  cbn [ContentTypeInterpreter.first_match existsb map bytes_of_string
       list_byte_of_string].
  rewrite (@PrintableFacts.no_match [255; 216; 255]%Z data Hp eq_refl).
  rewrite (@PrintableFacts.no_match [137; 80; 78; 71]%Z data Hp eq_refl).
  rewrite (@PrintableFacts.no_match [255; 251]%Z data Hp eq_refl).
  rewrite (@PrintableFacts.no_match [0; 0; 0; 24; 102; 116; 121; 112]%Z data Hp eq_refl).
  rewrite (@PrintableFacts.no_match [26; 69; 223; 163]%Z data Hp eq_refl).
  rewrite (@PrintableFacts.no_match [80; 75; 3; 4]%Z data Hp eq_refl).
  rewrite (@PrintableFacts.no_match [31; 139]%Z data Hp eq_refl).
  cbn [orb]. rewrite !orb_false_r.
  change (map byte_val (bytes_of_string "GIF8")) with [71; 73; 70; 56]%Z.
  change (map byte_val (bytes_of_string "RIFF")) with [82; 73; 70; 70]%Z.
  change (map byte_val (bytes_of_string "BM")) with [66; 77]%Z.
  change (map byte_val (bytes_of_string "%PDF")) with [37; 80; 68; 70]%Z.
  change (map byte_val (bytes_of_string "ID3")) with [73; 68; 51]%Z.
  destruct (ContentTypeInterpreter.matches [71; 73; 70; 56]%Z data); [reflexivity|].
  destruct (ContentTypeInterpreter.matches [82; 73; 70; 70]%Z data); [reflexivity|].
  destruct (ContentTypeInterpreter.matches [66; 77]%Z data); [reflexivity|].
  destruct (ContentTypeInterpreter.matches [37; 80; 68; 70]%Z data); [reflexivity|].
  destruct (ContentTypeInterpreter.matches [73; 68; 51]%Z data); reflexivity.
Qed.

Lemma printable_text_is_text_unless_it_begins_like_a_file_witness :
  ContentTypeInterpreter.detectType (bytes_of_string "Plain text content") = "text/plain" /\
  ContentTypeInterpreter.detectType (bytes_of_string "BMW is a car maker") = "image/bmp".
Proof.
  assert (P : forall text,
             forallb ContentTypeInterpreter.printable (bytes_of_string text) = true ->
             forall b, In b (bytes_of_string text) ->
                       ContentTypeInterpreter.printable b = true).
  { intros text H. now apply forallb_forall. }
  split.
  - rewrite (@printable_text_is_text_unless_it_begins_like_a_file
               (bytes_of_string "Plain text content") ltac:(cbn; lia)
               (P "Plain text content" eq_refl)).
    reflexivity.
  - rewrite (@printable_text_is_text_unless_it_begins_like_a_file
               (bytes_of_string "BMW is a car maker") ltac:(cbn; lia)
               (P "BMW is a car maker" eq_refl)).
    reflexivity.
Defined.

(** ** Slices and pages *)

Module SliceFacts.
Local Open Scope Z_scope.

(** The slice of a page: from a start that is not negative, [size] items
    or as many as are left. *)
Lemma slice_page {A} (l : list A) (start size : Z) :
  0 <= start -> 0 <= size ->
  Array_slice l start (start + size)
  = firstn (Z.to_nat size) (skipn (Z.to_nat start) l).
Proof.
  intros Hs Hz. unfold Array_slice. cbv zeta.
  destruct (Z.ltb_spec start 0); [lia|].
  destruct (Z.ltb_spec (start + size) 0); [lia|].
  destruct (Z.le_gt_cases (Z.of_nat (length l)) start) as [Hout|Hin].
  - rewrite (Z.min_r start) by lia.
    rewrite !skipn_all2 by lia. now rewrite !firstn_nil.
  - rewrite (Z.min_l start) by lia.
    destruct (Z.le_gt_cases (start + size) (Z.of_nat (length l))).
    + rewrite (Z.min_l (start + size)) by lia. f_equal. lia.
    + rewrite (Z.min_r (start + size)) by lia.
      rewrite firstn_all2 by (rewrite length_skipn; lia).
      symmetry. apply firstn_all2. rewrite length_skipn. lia.
Qed.

Lemma firstn_add {A} (a b : nat) (l : list A) :
  firstn (a + b) l = (firstn a l ++ firstn b (skipn a l))%list.
Proof.
  revert l. induction a as [|a IH]; intros l; [reflexivity|].
  destruct l as [|x l]; [cbn [skipn]; now rewrite !firstn_nil|].
  cbn [Nat.add firstn skipn app]. now rewrite IH.
Qed.

Lemma In_firstn {A} (x : A) n l : In x (firstn n l) -> In x l.
Proof.
  intros H. rewrite <- (firstn_skipn n l). apply in_or_app. now left.
Qed.

Lemma In_skipn {A} (x : A) n l : In x (skipn n l) -> In x l.
Proof.
  intros H. rewrite <- (firstn_skipn n l). apply in_or_app. now right.
Qed.

(** Pages of [size] items, read one after the other, give the list. *)
Lemma pages_cover {A} (l : list A) (size k : nat) :
  List.concat (map (fun i => firstn size (skipn (i * size) l)) (seq 0 k))
  = firstn (k * size) l.
Proof.
  induction k as [|k IH]; [reflexivity|].
  rewrite seq_S, map_app, concat_app, IH. cbn [map List.concat Nat.add].
  rewrite app_nil_r.
  replace (S k * size)%nat with (k * size + size)%nat by lia.
  now rewrite firstn_add.
Qed.

End SliceFacts.



(** X13: with a hash that is not empty and a page number and size of at least
    1, [search_by_hash] fails only if the engine's [get_all] does, and
    otherwise returns the page of the cards among the engine's items whose
    hash is the given one, in the engine's order: at most [page_size] items,
    each with that hash, the number of such cards as [total_items],
    [has_next] exactly when cards are left behind the page.  It computes no
    [total_pages] (the page says 0) and does not fail for a page behind the
    last one, which is empty. *)
Theorem search_by_hash_pages :
  forall (St : Type) (engine_get_all_items : M St (list Card)) (h : string)
         (n size : option Z) (w : World St),
    let pn := or_default n 1%Z in
    let ps := or_default size DEFAULT_PAGE_SIZE in
    let result :=
      CardCollection.search_by_hash engine_get_all_items (Given h) n size w in
    h <> "" -> (1 <= pn)%Z -> (1 <= ps)%Z ->
    match engine_get_all_items w with
    | (Thrown e, w') => result = (Thrown e, w')
    | (Returned all_items, w') =>
        let matching := filter (fun card => hash card =? h) all_items in
        exists page,
          result = (Returned page, w') /\
          items page
          = firstn (Z.to_nat ps) (skipn (Z.to_nat ((pn - 1) * ps)) matching) /\
          Forall (fun card => hash card = h /\ In card all_items) (items page) /\
          (Z.of_nat (length (items page)) <= ps)%Z /\
          total_items page = Z.of_nat (length matching) /\
          page_number page = pn /\ page_size page = ps /\
          (has_next page = true <-> (pn * ps < total_items page)%Z) /\
          (has_previous page = true <-> (1 < pn)%Z) /\
          next_page page = (if has_next page then Some (pn + 1)%Z else None) /\
          previous_page page = (if has_previous page then Some (pn - 1)%Z else None) /\
          total_pages page = 0%Z /\
          ((total_items page <= (pn - 1) * ps)%Z -> items page = [])
    end.
Proof.
  intros St engine_get_all_items h n size w pn ps result Hh Hn Hs.
  unfold result, CardCollection.search_by_hash.
  fold pn. fold ps. cbn [falsy_string given_string].
  destruct (String.eqb_spec h ""); [contradiction|].
  destruct (Z.ltb_spec pn 1); [lia|].
  destruct (Z.ltb_spec ps 1); [lia|].
  unfold bind.
  destruct (engine_get_all_items w) as [[all_items|e] w']; [|reflexivity].
  set (matching := filter (fun card => hash card =? h) all_items).
  eexists. split; [reflexivity|].
  unfold Page_new.
  cbn [or_default pd_items pd_total_items pd_page_number pd_page_size pd_has_next
       pd_has_previous pd_total_pages items total_items page_number page_size
       has_next has_previous total_pages previous_page next_page].
  rewrite SliceFacts.slice_page by nia.
  set (page_items := firstn (Z.to_nat ps) (skipn (Z.to_nat ((pn - 1) * ps)) matching)).
  assert (Hsub : forall card, In card page_items -> In card matching).
  { intros card Hc. unfold page_items in Hc.
    apply SliceFacts.In_firstn in Hc. now apply SliceFacts.In_skipn in Hc. }
  split; [reflexivity|]. split.
  { apply Forall_forall. intros card Hc. apply Hsub in Hc.
    unfold matching in Hc. apply filter_In in Hc. destruct Hc as [Hin Heq].
    apply String.eqb_eq in Heq. now split. }
  split.
  { unfold page_items. pose proof (firstn_le_length (Z.to_nat ps)
      (skipn (Z.to_nat ((pn - 1) * ps)) matching)). lia. }
  split; [reflexivity|]. split; [reflexivity|]. split; [reflexivity|].
  split; [rewrite Z.ltb_lt; lia|].
  split; [rewrite Z.ltb_lt; lia|].
  split; [reflexivity|]. split; [reflexivity|]. split; [reflexivity|].
  intros Hbeyond. unfold page_items.
  rewrite skipn_all2 by lia. apply firstn_nil.
Qed.

Lemma search_by_hash_pages_witness :
  exists page,
    CardCollection.search_by_hash three_cards (Given digest_A) (Some 1%Z) (Some 1%Z)
      empty_world = (Returned page, empty_world) /\
    items page = [card_A] /\ total_items page = 2%Z /\ has_next page = true /\
    total_pages page = 0%Z.
Proof.
  destruct (@search_by_hash_pages _ three_cards digest_A (Some 1%Z) (Some 1%Z)
              empty_world ltac:(discriminate) ltac:(cbn; lia) ltac:(cbn; lia))
    as (page & E & Hi & _ & _ & Ht & _ & _ & Hn & _ & _ & _ & Hp & _).
  exists page. split; [exact E|]. split; [exact Hi|]. split; [exact Ht|].
  split; [|exact Hp]. apply Hn. rewrite Ht. reflexivity.
Defined.

(** X14: the pages of [search_by_hash] read one after the other, over an
    engine whose [get_all] answers the same items every time, give every
    card with the hash, each once and in the engine's order: the first [k]
    pages hold the first [k * page_size] of them. *)
Theorem search_by_hash_pages_cover :
  forall (St : Type) (engine_get_all_items : M St (list Card))
         (all_items : list Card) (h : string) (size : Z) (k : nat) (w : World St),
    h <> "" -> (1 <= size)%Z ->
    (forall w0, engine_get_all_items w0 = (Returned all_items, w0)) ->
    List.concat
      (map (fun i =>
              items_of (CardCollection.search_by_hash engine_get_all_items
                          (Given h) (Some (Z.of_nat i + 1)%Z) (Some size) w))
           (seq 0 k))
    = firstn (k * Z.to_nat size) (filter (fun card => hash card =? h) all_items).
Proof.
  intros St engine_get_all_items all_items h size k w Hh Hs Hall.
  rewrite <- SliceFacts.pages_cover. f_equal.
  apply map_ext. intros i.
  unfold items_of, CardCollection.search_by_hash.
  cbn [or_default falsy_string given_string].
  destruct (String.eqb_spec h ""); [contradiction|].
  destruct (Z.ltb_spec (Z.of_nat i + 1) 1); [lia|].
  destruct (Z.ltb_spec size 1); [lia|].
  unfold bind. rewrite Hall. cbn [ret fst Page_new items or_default pd_items].
  rewrite SliceFacts.slice_page by nia.
  do 2 f_equal. nia.
Qed.

Lemma search_by_hash_pages_cover_witness :
  (items_of (CardCollection.search_by_hash three_cards (Given digest_A)
               (Some 1%Z) (Some 1%Z) empty_world)
   ++ items_of (CardCollection.search_by_hash three_cards (Given digest_A)
                  (Some 2%Z) (Some 1%Z) empty_world))%list
  = [card_A; card_B_forged].
Proof.
  pose proof (@search_by_hash_pages_cover _ three_cards
                [card_A; hello_card; card_B_forged] digest_A 1%Z 2 empty_world
                ltac:(discriminate) ltac:(lia) (fun w0 => eq_refl)) as C.
  cbn [seq map List.concat Z.of_nat Pos.of_succ_nat Z.add Pos.add Pos.succ] in C.
  rewrite app_nil_r in C. rewrite C. reflexivity.
Defined.

(** X15: [search_by_hash] and [search_by_content] refuse a missing or empty
    search value, then a page number below 1, then a page size below 1, with
    InvalidArgument and before the engine is asked; [search_by_content] then
    hands the three values to the engine and returns what it returns.
    [search_by_string] checks nothing: whatever it is given goes to the
    engine, the empty string and a page number of 0 included. *)
Theorem searches_check_before_the_engine :
  forall (St Found : Type) (engine_get_all_items : M St (list Card))
         (engine_search : Arg jsstring -> Z -> Z -> M St Found)
         (n size : option Z) (w : World St),
    let pn := or_default n 1%Z in
    let ps := or_default size DEFAULT_PAGE_SIZE in
    (forall hash_value,
        let result :=
          CardCollection.search_by_hash engine_get_all_items hash_value n size w in
        (falsy_string hash_value = true ->
         result = (Thrown (MkError InvalidArgument "Hash value cannot be empty"), w)) /\
        (falsy_string hash_value = false -> (pn < 1)%Z ->
         result =
         (Thrown (MkError InvalidArgument "Page number must be greater than 0"), w)) /\
        (falsy_string hash_value = false -> (1 <= pn)%Z -> (ps < 1)%Z ->
         result =
         (Thrown (MkError InvalidArgument "Page size must be greater than 0"), w))) /\
    (forall search_string,
        let result :=
          CardCollection.search_by_content engine_search search_string n size w in
        let missing :=
          search_string = Absent \/ search_string = Null \/ search_string = Given [] in
        (missing ->
         result = (Thrown (MkError InvalidArgument "Search string cannot be empty"), w)) /\
        (~ missing -> (pn < 1)%Z ->
         result =
         (Thrown (MkError InvalidArgument "Page number must be greater than 0"), w)) /\
        (~ missing -> (1 <= pn)%Z -> (ps < 1)%Z ->
         result =
         (Thrown (MkError InvalidArgument "Page size must be greater than 0"), w)) /\
        (~ missing -> (1 <= pn)%Z -> (1 <= ps)%Z ->
         result = engine_search search_string pn ps w)) /\
    (forall search_string,
        CardCollection.search_by_string engine_search search_string n size w
        = engine_search search_string pn ps w).
Proof.
  intros St Found engine_get_all_items engine_search n size w pn ps.
  split; [|split].
  - intros hash_value result. unfold result, CardCollection.search_by_hash.
    fold pn. fold ps. split; [|split].
    + intros ->. reflexivity.
    + intros -> H. destruct (Z.ltb_spec pn 1); [reflexivity | lia].
    + intros -> H1 H2. destruct (Z.ltb_spec pn 1); [lia|].
      destruct (Z.ltb_spec ps 1); [reflexivity | lia].
  - intros search_string result missing.
    assert (F : CardCollection.falsy_text search_string = true <-> missing).
    { unfold missing. destruct search_string as [| |[|u text]]; cbn;
        split; try tauto; try discriminate;
        intros [H|[H|H]]; discriminate. }
    unfold result, CardCollection.search_by_content. fold pn. fold ps.
    destruct (CardCollection.falsy_text search_string).
    + assert (missing) by now apply F.
      repeat split; intros; tauto || reflexivity.
    + assert (~ missing) by (intros H; apply F in H; discriminate).
      split; [tauto|]. split; [|split].
      * intros _ H1. destruct (Z.ltb_spec pn 1); [reflexivity | lia].
      * intros _ H1 H2. destruct (Z.ltb_spec pn 1); [lia|].
        destruct (Z.ltb_spec ps 1); [reflexivity | lia].
      * intros _ H1 H2. destruct (Z.ltb_spec pn 1); [lia|].
        destruct (Z.ltb_spec ps 1); [lia | reflexivity].
  - reflexivity.
Qed.

Lemma searches_check_before_the_engine_witness :
  CardCollection.search_by_content
    (fun (_ : Arg jsstring) (_ _ : Z) => @three_cards MemoryEngine.Rows)
    (Given []) None None empty_world
  = (Thrown (MkError InvalidArgument "Search string cannot be empty"), empty_world) /\
  CardCollection.search_by_hash three_cards (Given digest_A) (Some 0%Z) None empty_world
  = (Thrown (MkError InvalidArgument "Page number must be greater than 0"),
     empty_world).
Proof.
  destruct (@searches_check_before_the_engine _ _ three_cards
              (fun (_ : Arg jsstring) (_ _ : Z) => @three_cards MemoryEngine.Rows)
              None None empty_world) as (_ & C & _).
  destruct (@searches_check_before_the_engine _ _ three_cards
              (fun (_ : Arg jsstring) (_ _ : Z) => @three_cards MemoryEngine.Rows)
              (Some 0%Z) None empty_world) as (Hh & _).
  split.
  - destruct (C (Given [])) as (T & _). apply T. right. now right.
  - destruct (Hh (Given digest_A)) as (_ & T & _). apply T; [reflexivity | cbn; lia].
Defined.

(** X12: [get_page] refuses a page number below 1 and then a page size below 1
    before the engine is asked; a failure of the engine's [get_page] is its
    own; and whatever the engine answers, a page number above the number of
    pages the total needs is refused with PageOutOfRange when the total is
    positive.  A page it returns has the engine's items, and with a total of
    0 every page number from 1 on is accepted, with [total_pages] 0. *)
Theorem get_page_checks_the_range :
  forall (St : Type) (engine : Engine St) (n size : option Z) (w : World St),
    let pn := or_default n 1%Z in
    let ps := or_default size DEFAULT_PAGE_SIZE in
    let result := CardCollection.get_page engine n size w in
    ((pn < 1)%Z -> thrown result = Some InvalidArgument /\ snd result = w) /\
    ((1 <= pn)%Z -> (ps < 1)%Z ->
     thrown result = Some InvalidArgument /\ snd result = w) /\
    ((1 <= pn)%Z -> (1 <= ps)%Z ->
     match engine_get_page engine pn ps w with
     | (Thrown e, w') => result = (Thrown e, w')
     | (Returned r, w') =>
         let pages := ceil_div (r_total_items r) ps in
         ((0 < r_total_items r)%Z -> (pages < pn)%Z ->
          thrown result = Some PageOutOfRange /\ snd result = w') /\
         ((0 < r_total_items r)%Z -> (pn <= pages)%Z ->
          exists page,
            result = (Returned page, w') /\ items page = r_items r /\
            total_items page = r_total_items r /\ total_pages page = pages /\
            ((pages - 1) * ps < r_total_items r <= pages * ps)%Z) /\
         ((r_total_items r <= 0)%Z ->
          exists page,
            result = (Returned page, w') /\ items page = r_items r /\
            total_pages page = 0%Z)
     end).
Proof.
  intros St engine n size w pn ps result.
  unfold result, CardCollection.get_page. fold pn. fold ps.
  split; [|split].
  - intros H. destruct (Z.ltb_spec pn 1); [now split | lia].
  - intros H1 H2. destruct (Z.ltb_spec pn 1); [lia|].
    destruct (Z.ltb_spec ps 1); [now split | lia].
  - intros H1 H2. destruct (Z.ltb_spec pn 1); [lia|].
    destruct (Z.ltb_spec ps 1); [lia|].
    unfold bind.
    destruct (engine_get_page engine pn ps w) as [[r|e] w']; [|reflexivity].
    cbv zeta. split; [|split].
    + intros Hp Hb. destruct (Z.ltb_spec 0 (r_total_items r)); [|lia].
      destruct (Z.ltb_spec (ceil_div (r_total_items r) ps) pn); [|lia].
      now split.
    + intros Hp Hb. destruct (Z.ltb_spec 0 (r_total_items r)); [|lia].
      destruct (Z.ltb_spec (ceil_div (r_total_items r) ps) pn); [lia|].
      eexists. split; [reflexivity|]. cbn.
      repeat split; try apply PageFacts.ceil_div_bounds; lia.
    + intros Hz. destruct (Z.ltb_spec 0 (r_total_items r)); [lia|].
      cbn [andb]. eexists. split; [reflexivity|]. now split.
Qed.

Lemma get_page_checks_the_range_witness :
  thrown (CardCollection.get_page MemoryEngine.engine (Some 0%Z) (Some 2%Z) world_AB)
  = Some InvalidArgument /\
  thrown (CardCollection.get_page MemoryEngine.engine (Some 1%Z) (Some 0%Z) world_AB)
  = Some InvalidArgument.
Proof.
  split.
  - destruct (get_page_checks_the_range MemoryEngine.engine (Some 0%Z) (Some 2%Z)
                world_AB) as (T & _).
    apply T. cbn. lia.
  - destruct (get_page_checks_the_range MemoryEngine.engine (Some 1%Z) (Some 0%Z)
                world_AB) as (_ & T & _).
    apply T; cbn; lia.
Defined.

(** ** The collection over the engine double of the tests *)


Module MockFacts.
Import MockEngine.

Lemma Map_get_set_same key value cards :
  Map_get key (Map_set key value cards) = Some value.
Proof.
  unfold Map_get. induction cards as [|[k v] cards IH]; cbn [Map_set find fst].
  - now rewrite String.eqb_refl.
  - destruct (String.eqb_spec k key) as [->|N]; cbn [find fst].
    + now rewrite String.eqb_refl.
    + destruct (String.eqb_spec k key); [contradiction | exact IH].
Qed.

Lemma Map_get_set_other k key value cards :
  k <> key -> Map_get k (Map_set key value cards) = Map_get k cards.
Proof.
  intros N. unfold Map_get.
  induction cards as [|[k' v] cards IH]; cbn [Map_set find fst].
  - destruct (String.eqb_spec key k); [congruence | reflexivity].
  - destruct (String.eqb_spec k' key) as [->|N']; cbn [find fst].
    + destruct (String.eqb_spec key k); [congruence | reflexivity].
    + destruct (String.eqb_spec k' k); [reflexivity | exact IH].
Qed.

Lemma Map_get_none key cards :
  Map_get key cards = None <-> ~ In key (map fst cards).
Proof.
  unfold Map_get. induction cards as [|[k v] cards IH]; cbn [find map fst In].
  - tauto.
  - destruct (String.eqb_spec k key) as [->|N].
    + split; [discriminate | tauto].
    + rewrite IH. tauto.
Qed.

Lemma Map_set_absent key value cards :
  Map_get key cards = None ->
  Map_set key value cards = (cards ++ [(key, value)])%list.
Proof.
  unfold Map_get. induction cards as [|[k v] cards IH]; cbn [Map_set find fst app].
  - reflexivity.
  - destruct (String.eqb_spec k key); [discriminate|].
    intros H. now rewrite IH.
Qed.

Lemma Map_set_present key value cards old :
  Map_get key cards = Some old ->
  length (Map_set key value cards) = length cards /\
  map fst (Map_set key value cards) = map fst cards.
Proof.
  unfold Map_get. induction cards as [|[k v] cards IH]; cbn [Map_set find fst].
  - discriminate.
  - destruct (String.eqb_spec k key) as [->|N].
    + intros _. now split.
    + intros H. destruct (IH H) as [L K]. cbn [length map fst]. split; congruence.
Qed.

Lemma Map_get_keyed key cards card :
  keyed cards -> Map_get key cards = Some card -> hash card = key.
Proof.
  intros [_ K]. unfold Map_get.
  destruct (find _ cards) as [[k v]|] eqn:F; [|discriminate].
  apply find_some in F. destruct F as [Hin Hk]. cbn [fst] in Hk.
  apply String.eqb_eq in Hk. intros E. inversion E. subst.
  rewrite Forall_forall in K. symmetry. exact (K _ Hin).
Qed.

Lemma keyed_set card cards : keyed cards -> keyed (Map_set (hash card) card cards).
Proof.
  intros [N K].
  destruct (Map_get (hash card) cards) as [old|] eqn:G.
  - split.
    + now rewrite (proj2 (@Map_set_present (hash card) card cards old G)).
    + clear N G. induction cards as [|[k v] cards IH]; cbn [Map_set].
      * now repeat constructor.
      * inversion K; subst.
        destruct (k =? hash card); constructor; auto.
  - rewrite (@Map_set_absent (hash card) card cards G). split.
    + rewrite map_app. cbn [map fst].
      apply Map_get_none in G.
      apply (NoDup_Add (Add_app (hash card) (map fst cards) [])).
      rewrite app_nil_r. now split.
    + apply Forall_app. split; [assumption | now repeat constructor].
Qed.

(** The pieces a call is made of keep what the engine keeps. *)
Section Keeps.
Variable St : Type.
Variable P : St -> Prop.

Lemma keeps_bind {A B} (m : M St A) (k : A -> M St B) :
  keeps P m -> (forall a, keeps P (k a)) -> keeps P (bind m k).
Proof.
  intros Hm Hk w Hw. unfold bind. specialize (Hm w Hw).
  destruct (m w) as [[a|e] w1]; cbn [snd] in *; [now apply Hk | assumption].
Qed.

Lemma keeps_ret {A} (a : A) : keeps P (ret a).
Proof. intros w Hw. exact Hw. Qed.

Lemma keeps_throw {A} k msg : keeps P (@throw St A k msg).
Proof. intros w Hw. exact Hw. Qed.

Lemma keeps_now : keeps P (@now St).
Proof. intros w Hw. exact Hw. Qed.

Lemma keeps_try {A} (m : M St A) handler :
  keeps P m -> (forall e, keeps P (handler e)) -> keeps P (try_catch m handler).
Proof.
  intros Hm Hh w Hw. unfold try_catch. specialize (Hm w Hw).
  destruct (m w) as [[a|e] w1]; cbn [snd] in *; [assumption | now apply Hh].
Qed.

Lemma keeps_MCard_new c hashFunction forceHashAlgorithm :
  keeps P (@MCard_new St c hashFunction forceHashAlgorithm).
Proof.
  intros w Hw.
  pose proof (CardFacts.MCard_new_store c hashFunction forceHashAlgorithm w) as S.
  cbv zeta in S. destruct S as [S _]. now rewrite S.
Qed.

Variable hierarchy : string -> option string.
Variable engine : Engine St.
Hypothesis keeps_add : forall card, keeps P (engine_add engine card).
Hypothesis keeps_get : forall h, keeps P (engine_get engine h).

Lemma keeps_event_card payload : keeps P (CardCollection.event_card (St := St) payload).
Proof. apply keeps_MCard_new. Qed.

Lemma keeps_collection_add card : keeps P (CardCollection.add hierarchy engine card).
Proof.
  unfold CardCollection.add. destruct card as [card|]; [|apply keeps_throw].
  apply keeps_bind; [apply keeps_get|]. intros [existing|].
  - destruct (_ =? _)%Z.
    + unfold CardCollection.add_duplicate.
      apply keeps_bind; [apply keeps_bind; [apply keeps_now | intros; apply keeps_ret]|].
      intros payload. apply keeps_bind; [apply keeps_event_card|].
      intros ev. apply keeps_bind; [apply keeps_add | intros; apply keeps_ret].
    + unfold CardCollection.add_collision.
      apply keeps_bind; [apply keeps_bind; [apply keeps_now | intros; apply keeps_ret]|].
      intros payload. destruct (CardCollection.upgrade _ _); [|apply keeps_throw].
      apply keeps_bind; [apply keeps_MCard_new|]. intros up.
      destruct (_ =? _); [apply keeps_throw|].
      destruct (_ <=? _)%Z; [apply keeps_throw|].
      apply keeps_bind; [apply keeps_add|]. intros _.
      apply keeps_bind; [apply keeps_event_card|]. intros ev.
      apply keeps_bind; [apply keeps_add | intros; apply keeps_ret].
  - apply keeps_bind; [apply keeps_add | intros; apply keeps_ret].
Qed.

End Keeps.

Lemma engine_add_run card (w : World Cards) :
  engine_add engine card w
  = (Returned tt, set_store w (Map_set (hash card) card (store w))).
Proof. reflexivity. Qed.

Lemma keyed_engine_add card : keeps keyed (engine_add engine card).
Proof. intros w Hw. rewrite engine_add_run. cbn. now apply keyed_set. Qed.

Lemma keyed_engine_get h : keeps keyed (engine_get engine h).
Proof. intros w Hw. exact Hw. Qed.

(** A call of [add] that returns has stored, last, a card under the hash it
    returns. *)
Definition ends_with_add (r : Outcome string * World Cards) : Prop :=
  match fst r with
  | Returned h =>
      exists card cards, hash card = h /\ store (snd r) = Map_set h card cards
  | Thrown _ => True
  end.

Lemma tail_ends_with_add card (w : World Cards) :
  ends_with_add (bind (engine_add engine card) (fun _ => ret (hash card)) w).
Proof.
  unfold bind. rewrite engine_add_run. cbn. now exists card, (store w).
Qed.

Lemma bind_ends_with_add {A} (m : M Cards A) k :
  (forall a w, ends_with_add (k a w)) -> forall w, ends_with_add (bind m k w).
Proof.
  intros H w. unfold bind. destruct (m w) as [[a|e] w1]; [apply H | exact I].
Qed.

Lemma add_ends_with_add hierarchy card (w : World Cards) :
  ends_with_add (CardCollection.add hierarchy engine card w).
Proof.
  unfold CardCollection.add. destruct card as [card|]; [|exact I].
  apply bind_ends_with_add. intros [existing|] w1.
  - destruct (_ =? _)%Z.
    + unfold CardCollection.add_duplicate.
      apply bind_ends_with_add. intros payload w2.
      apply bind_ends_with_add. intros ev w3. apply tail_ends_with_add.
    + unfold CardCollection.add_collision.
      apply bind_ends_with_add. intros payload w2.
      destruct (CardCollection.upgrade _ _); [|exact I].
      apply bind_ends_with_add. intros up w3.
      destruct (_ =? _); [exact I|].
      destruct (_ <=? _)%Z; [exact I|].
      apply bind_ends_with_add. intros _ w4.
      apply bind_ends_with_add. intros ev w5. apply tail_ends_with_add.
  - apply tail_ends_with_add.
Qed.

End MockFacts.

(** X16: over the engine double, a call of [add] that returns a hash has
    stored a card with that hash, and [get] of the hash returns this card;
    when the hash of the incoming card was not in the map, that card is the
    incoming card itself, put behind the others. *)
Theorem add_then_get_over_double :
  forall (hierarchy : string -> option string) (w w' : World MockEngine.Cards)
         (card : Card) (h : string),
    CardCollection.add hierarchy MockEngine.engine (Some card) w = (Returned h, w') ->
    (exists stored,
        CardCollection.get MockEngine.engine h w' = (Returned (Some stored), w') /\
        hash stored = h) /\
    (MockEngine.Map_get (hash card) (store w) = None ->
     h = hash card /\
     store w' = (store w ++ [(hash card, card)])%list /\
     CardCollection.get MockEngine.engine h w' = (Returned (Some card), w')).
Proof.
  intros hierarchy w w' card h H. split.
  - pose proof (MockFacts.add_ends_with_add hierarchy (Some card) w) as E.
    unfold MockFacts.ends_with_add in E. rewrite H in E. cbn [fst snd] in E.
    destruct E as (stored & cards & Hs & Hst).
    exists stored. split; [|assumption].
    unfold CardCollection.get. cbn [engine_get MockEngine.engine].
    unfold MockEngine.get. now rewrite Hst, MockFacts.Map_get_set_same.
  - intros G. unfold CardCollection.add, CardCollection.get in H.
    cbn [engine_get MockEngine.engine] in H. unfold bind at 1 in H.
    unfold MockEngine.get at 1 in H. rewrite G in H.
    unfold bind in H. rewrite MockFacts.engine_add_run in H.
    unfold ret in H. inversion H. subst h w'. clear H.
    cbn [store set_store]. rewrite (@MockFacts.Map_set_absent (hash card) card (store w) G).
    repeat split.
    unfold CardCollection.get. cbn [engine_get MockEngine.engine].
    unfold MockEngine.get. cbn [store set_store].
    now rewrite <- (@MockFacts.Map_set_absent (hash card) card (store w) G), MockFacts.Map_get_set_same.
Qed.

Lemma add_then_get_over_double_witness :
  CardCollection.add HASH_ALGORITHM_HIERARCHY MockEngine.engine (Some card_A)
    empty_double = (Returned digest_A, double_A) /\
  CardCollection.get MockEngine.engine digest_A double_A
  = (Returned (Some card_A), double_A).
Proof.
  assert (H : CardCollection.add HASH_ALGORITHM_HIERARCHY MockEngine.engine
                (Some card_A) empty_double = (Returned digest_A, double_A))
    by reflexivity.
  split; [exact H|].
  destruct (@add_then_get_over_double _ _ _ _ _ H) as (_ & T).
  destruct (T eq_refl) as (_ & _ & G). exact G.
Defined.

(** X17: over the engine double, [add], [get], [count] and [clear] keep the
    map keyed by the hashes of its cards with one entry for a hash; hence
    [get(h)] returns only cards whose hash is [h]. *)
Theorem double_stays_keyed :
  forall (hierarchy : string -> option string) (w : World MockEngine.Cards),
    keyed (store w) ->
    (forall card,
        keyed (store (snd (CardCollection.add hierarchy MockEngine.engine card w)))) /\
    (forall h, keyed (store (snd (CardCollection.get MockEngine.engine h w)))) /\
    keyed (store (snd (CardCollection.count MockEngine.engine w))) /\
    keyed (store (snd (CardCollection.clear MockEngine.engine w))) /\
    (forall h card w',
        CardCollection.get MockEngine.engine h w = (Returned (Some card), w') ->
        hash card = h /\ w' = w).
Proof.
  intros hierarchy w K. split; [|split; [|split; [|split]]].
  - intros card.
    apply (@MockFacts.keeps_collection_add _ keyed hierarchy MockEngine.engine
             MockFacts.keyed_engine_add MockFacts.keyed_engine_get card w K).
  - intros h. exact K.
  - exact K.
  - split; constructor.
  - intros h card w' H. unfold CardCollection.get in H.
    cbn [engine_get MockEngine.engine] in H. unfold MockEngine.get in H.
    inversion H. split; [|reflexivity].
    match goal with E : MockEngine.Map_get _ _ = Some _ |- _ =>
      exact (@MockFacts.Map_get_keyed _ _ _ K E) end.
Qed.

Lemma double_stays_keyed_witness :
  keyed (store empty_double) /\
  keyed (store (snd (CardCollection.add HASH_ALGORITHM_HIERARCHY MockEngine.engine
                       (Some card_A) empty_double))).
Proof.
  assert (K : keyed (store empty_double)) by (split; constructor).
  split; [exact K|].
  destruct (@double_stays_keyed HASH_ALGORITHM_HIERARCHY empty_double K) as (T & _).
  apply T.
Defined.

(** X18: over the engine double a duplicate never fails.  When the map holds
    a card with the hash and the bytes of the incoming card, [add] builds
    the event card, sets it in the map under its hash and returns that hash:
    one entry more when the hash of the event card is new, and the entry of
    that hash replaced, with the count unchanged, when it is not. *)
Theorem duplicate_add_over_double :
  forall (hierarchy : string -> option string) (w : World MockEngine.Cards)
         (card existing : Card),
    MockEngine.Map_get (hash card) (store w) = Some existing ->
    content existing = content card ->
    exists event w',
      CardCollection.add hierarchy MockEngine.engine (Some card) w
      = (Returned (hash event), w') /\
      store w' = MockEngine.Map_set (hash event) event (store w) /\
      MockEngine.Map_get (hash event) (store w') = Some event /\
      hash_algorithm event = HashAlgorithm.DEFAULT /\
      (MockEngine.Map_get (hash event) (store w) = None ->
       length (store w') = S (length (store w))) /\
      (MockEngine.Map_get (hash event) (store w) <> None ->
       length (store w') = length (store w)).
Proof.
  intros hierarchy w card existing G Hc.
  assert (Hget : engine_get MockEngine.engine (hash card) w
                 = (Returned (Some existing), w)).
  { cbn [engine_get MockEngine.engine]. unfold MockEngine.get. now rewrite G. }
  rewrite (@AddFacts.add_found_equal hierarchy _ MockEngine.engine card existing w w Hget Hc).
  unfold CardCollection.add_duplicate.
  unfold EventProducer.generateDuplicationEvent, now, bind at 1 2, ret at 1.
  unfold EventProducer.duplication_event at 1.
  rewrite (bind_returned _ _ _ (AddFacts.event_card_returns _ (tick w))).
  set (event := event_card_at _ _ _).
  exists event, (set_store (tick (tick w))
                   (MockEngine.Map_set (hash event) event (store w))).
  split; [reflexivity|]. cbn [store set_store].
  split; [reflexivity|].
  split; [apply MockFacts.Map_get_set_same|].
  split; [reflexivity|]. split.
  - intros N. rewrite (@MockFacts.Map_set_absent (hash event) event (store w) N).
    rewrite length_app. cbn [length]. lia.
  - intros N. destruct (MockEngine.Map_get (hash event) (store w)) as [old|] eqn:E;
      [|congruence].
    exact (proj1 (@MockFacts.Map_set_present (hash event) event (store w) old E)).
Qed.

Lemma duplicate_add_over_double_witness :
  exists event w',
    CardCollection.add HASH_ALGORITHM_HIERARCHY MockEngine.engine (Some card_A)
      double_A = (Returned (hash event), w') /\
    MockEngine.Map_get (hash event) (store w') = Some event /\
    length (store w') = 2%nat.
Proof.
  destruct (@duplicate_add_over_double HASH_ALGORITHM_HIERARCHY double_A card_A card_A
              eq_refl eq_refl) as (event & w' & E & Hs & Hg & _ & Hn & _).
  exists event, w'. split; [exact E|]. split; [exact Hg|].
  apply Hn.
  assert (R : CardCollection.add HASH_ALGORITHM_HIERARCHY MockEngine.engine
                (Some card_A) double_A
              = (Returned (hash event_A),
                 set_store (tick (tick double_A))
                   (MockEngine.Map_set (hash event_A) event_A (store double_A))))
    by (vm_compute; reflexivity).
  assert (Eh : hash event = hash event_A) by congruence.
  rewrite Eh. vm_compute. reflexivity.
Defined.

Module SearchFacts.
Local Open Scope Z_scope.

Lemma units_prefix_refl s : units_prefix s s = true.
Proof. induction s as [|u s IH]; [reflexivity|]. cbn. now rewrite Z.eqb_refl. Qed.

Lemma includes_refl s : String_includes s s = true.
Proof. destruct s; cbn; [reflexivity|]. now rewrite Z.eqb_refl, units_prefix_refl. Qed.

Lemma units_prefix_nil s : units_prefix [] s = true.
Proof. reflexivity. Qed.

Lemma includes_nil s : String_includes s [] = true.
Proof. destruct s; reflexivity. Qed.

End SearchFacts.


(** X19: [search_by_string] of the collection over the engine double changes
    nothing and returns the page of the cards whose decoded content includes
    the search string, in the order of the map; the empty string is included
    in every text, so it lists every card.  After [add] of a card built from
    a well-formed text that does not begin with U+FEFF, under a hash the map
    did not hold, a search for that text finds one card more than before,
    and in a map that was empty it finds exactly this card, whose content
    reads as the text. *)
Theorem search_by_string_over_double :
  (forall (search_string : jsstring) (n size : option Z) (w : World MockEngine.Cards),
      let pn := or_default n 1%Z in
      let ps := or_default size DEFAULT_PAGE_SIZE in
      exists r,
        CardCollection.search_by_string double_search (Given search_string) n size w
        = (Returned r, w) /\
        r_items r
        = Array_slice (matching_cards search_string (store w))
            ((pn - 1) * ps) ((pn - 1) * ps + ps) /\
        r_total_items r
        = Z.of_nat (length (matching_cards search_string (store w))) /\
        (search_string = [] ->
         matching_cards search_string (store w) = MockEngine.Map_values (store w))) /\
  (forall (hierarchy : string -> option string) (text : jsstring)
          (hashFunction : Arg string) (forceHashAlgorithm : option string)
          (w0 w1 : World MockEngine.Cards) (card : Card),
      Forall code_unit text -> isWellFormed text = true ->
      hd 0%Z text <> 65279%Z ->
      MCard_new (CString text) hashFunction forceHashAlgorithm w0 = (Returned card, w1) ->
      MockEngine.Map_get (hash card) (store w0) = None ->
      exists w2 r,
        CardCollection.add hierarchy MockEngine.engine (Some card) w1
        = (Returned (hash card), w2) /\
        CardCollection.search_by_string double_search (Given text) None None w2
        = (Returned r, w2) /\
        text_of card = text /\
        r_total_items r
        = (Z.of_nat (length (matching_cards text (store w0))) + 1)%Z /\
        (store w0 = [] -> r_items r = [card])).
Proof.
  split.
  - intros search_string n size w pn ps.
    eexists. split; [reflexivity|].
    cbn [r_items r_total_items or_default]. fold pn. fold ps.
    split; [reflexivity|]. split; [reflexivity|].
    intros ->. unfold matching_cards.
    induction (MockEngine.Map_values (store w)) as [|c l IH]; [reflexivity|].
    cbn [filter]. rewrite SearchFacts.includes_nil. now rewrite IH.
  - intros hierarchy text hashFunction forceHashAlgorithm w0 w1 card Hu Hw Hb H G.
    assert (Ht : text_of card = text).
    { destruct (MCard_new_content _ _ _ _ H) as (Hc & _).
      cbn [to_buffer] in Hc. injection Hc as Hc.
      unfold text_of, MockEngine.getCardContentAsString. rewrite <- Hc.
      now apply Utf8Facts.decode_encode_well_formed. }
    pose proof (CardFacts.MCard_new_store (CString text) hashFunction
                  forceHashAlgorithm w0) as S.
    cbv zeta in S. rewrite H in S. cbn [snd] in S. destruct S as (S & _ & _).
    rewrite <- S in G.
    exists (set_store w1 (store w1 ++ [(hash card, card)])%list).
    eexists. split.
    { unfold CardCollection.add, CardCollection.get.
      cbn [engine_get MockEngine.engine]. unfold bind at 1.
      unfold MockEngine.get at 1. rewrite G.
      unfold bind. rewrite MockFacts.engine_add_run.
      now rewrite (@MockFacts.Map_set_absent (hash card) card (store w1) G). }
    split; [reflexivity|].
    split; [exact Ht|].
    cbn [r_items r_total_items or_default store set_store].
    assert (M : filter (fun c => String_includes (MockEngine.getCardContentAsString (Some c))
                                   (ToString_text (Given text)))
                  (MockEngine.Map_values (store w1 ++ [(hash card, card)])%list)
                = (matching_cards text (store w0) ++ [card])%list).
    { unfold MockEngine.Map_values, matching_cards, MockEngine.Map_values.
      rewrite map_app, filter_app, S. cbn [map snd filter ToString_text].
      fold (text_of card). rewrite Ht, SearchFacts.includes_refl. reflexivity. }
    rewrite M. split.
    + rewrite length_app. cbn [length]. lia.
    + intros E. rewrite E. reflexivity.
Qed.

Lemma search_by_string_over_double_witness :
  exists w1 w2 r,
    MCard_new (CString hello_world) Absent None empty_double
    = (Returned hello_card, w1) /\
    CardCollection.add HASH_ALGORITHM_HIERARCHY MockEngine.engine (Some hello_card) w1
    = (Returned hello_digest, w2) /\
    CardCollection.search_by_string double_search (Given hello_world) None None w2
    = (Returned r, w2) /\
    r_items r = [hello_card] /\ r_total_items r = 1%Z /\
    text_of hello_card = hello_world.
Proof.
  assert (H : MCard_new (CString hello_world) Absent None empty_double
              = (Returned hello_card, tick empty_double))
    by (vm_compute; reflexivity).
  assert (U : Forall code_unit hello_world)
    by (repeat constructor; unfold code_unit; cbn; lia).
  destruct (proj2 search_by_string_over_double HASH_ALGORITHM_HIERARCHY hello_world
              Absent None empty_double (tick empty_double) hello_card U eq_refl
              ltac:(discriminate) H eq_refl)
    as (w2 & r & Ha & Hs & Ht & Hn & Hi).
  exists (tick empty_double), w2, r.
  split; [exact H|]. split; [exact Ha|]. split; [exact Hs|].
  split; [exact (Hi eq_refl)|]. split; [exact Hn | exact Ht].
Defined.

(** ** Objects of the host application *)

Module ObjectFacts.

Lemma units_eqb_eq a b : units_eqb a b = true <-> a = b.
Proof.
  revert b. induction a as [|x a IH]; intros [|y b]; cbn [units_eqb];
    try (split; [reflexivity || discriminate | reflexivity || discriminate]).
  rewrite andb_true_iff, Z.eqb_eq, IH. split.
  - intros [-> ->]. reflexivity.
  - intros E. inversion E. now split.
Qed.

Lemma units_eqb_refl a : units_eqb a a = true.
Proof. now apply units_eqb_eq. Qed.

Lemma units_eqb_neq a b : a <> b -> units_eqb a b = false.
Proof.
  intros N. destruct (units_eqb a b) eqn:E; [|reflexivity].
  apply units_eqb_eq in E. contradiction.
Qed.

Lemma get_set_same props name value :
  get_property (JObject (set_property props name value)) name = Some value.
Proof.
  cbn [get_property].
  induction props as [|[k v] props IH]; cbn [set_property find fst snd].
  - now rewrite units_eqb_refl.
  - destruct (units_eqb k name) eqn:E; cbn [find fst snd]; rewrite E;
      [reflexivity | exact IH].
Qed.

Lemma get_set_other props name value other :
  other <> name ->
  get_property (JObject (set_property props name value)) other
  = get_property (JObject props) other.
Proof.
  intros N. cbn [get_property].
  induction props as [|[k v] props IH]; cbn [set_property find fst snd].
  - now rewrite (units_eqb_neq (fun E => N (eq_sym E))).
  - destruct (units_eqb k name) eqn:E; cbn [find fst snd].
    + apply units_eqb_eq in E. subst k.
      now rewrite (units_eqb_neq (fun E => N (eq_sym E))).
    + destruct (units_eqb k other); [reflexivity | exact IH].
Qed.

End ObjectFacts.


Module MiddlewareFacts.
Import Middleware.

Lemma isPersistable_iff action_type :
  isPersistable action_type = true <->
  exists text, action_type = JString text /\ In text persistable_types.
Proof.
  unfold isPersistable. destruct action_type as [|b|z|text|items|props];
    try (split; [discriminate | intros (t & E & _); discriminate]).
  rewrite existsb_exists. split.
  - intros (t & Hin & E). apply ObjectFacts.units_eqb_eq in E. subst t.
    now exists text.
  - intros (t & E & Hin). inversion E. subst t.
    exists text. split; [assumption | apply ObjectFacts.units_eqb_refl].
Qed.

Lemma persistable_types_truthy text :
  In text persistable_types -> truthy (JString text) = true.
Proof.
  cbn [In persistable_types].
  intros [<-|[<-|[<-|[]]]]; reflexivity.
Qed.

(** What the [try] block does with an action it does not persist. *)
Lemma persist_skips Host Stored (storageService : option (JSON -> M Host Stored))
      store action :
  storageService = None \/ ~ persistable action ->
  persist storageService store action = ret tt.
Proof.
  intros H. unfold persist.
  destruct action as [action|]; [|reflexivity].
  destruct (truthy action && _) eqn:T; [|reflexivity].
  destruct (get_property action (js "type")) as [action_type|] eqn:G; [|reflexivity].
  destruct storageService as [service|]; [|reflexivity].
  destruct (isPersistable action_type) eqn:P; [|reflexivity].
  exfalso. destruct H as [H|H]; [discriminate|]. apply H.
  apply isPersistable_iff in P. destruct P as (text & -> & Hin).
  destruct action as [| | | | |props]; try discriminate.
  now exists props, text.
Qed.

Lemma persist_runs Host Stored (service : JSON -> M Host Stored) store props text :
  get_property (JObject props) (js "type") = Some (JString text) ->
  In text persistable_types ->
  persist (Some service) store (Some (JObject props)) =
  bind (read_state store) (fun snapshot =>
    bind (service (actionWithState (JObject props) snapshot)) (fun _ => ret tt)).
Proof.
  intros G Hin. unfold persist. rewrite G.
  cbn [or_default]. rewrite (persistable_types_truthy Hin). cbn [truthy andb].
  assert (P : isPersistable (JString text) = true)
    by (apply isPersistable_iff; now exists text).
  now rewrite P.
Qed.

End MiddlewareFacts.

(** X20: the middleware hands the action to [next] first and gives its
    caller what [next] gave, result or error, whatever the store and the
    storage service do: an error of theirs is caught.  When [next] fails, or
    the storage service is missing, or the action is not an object with one
    of the three persistable types, nothing else happens. *)
Theorem middleware_passes_the_action_on :
  forall (Host Result Stored : Type)
         (storageService : option (JSON -> M Host Stored))
         (store : Middleware.ReduxStore Host)
         (next : option JSON -> M Host Result) (action : option JSON)
         (w : World Host),
    let run := Middleware.middleware storageService store next action w in
    fst run = fst (next action w) /\
    (forall e w1, next action w = (Thrown e, w1) -> run = (Thrown e, w1)) /\
    (storageService = None \/ ~ persistable action -> run = next action w).
Proof.
  intros Host Result Stored storageService store next action w run.
  unfold run, Middleware.middleware, bind, try_catch, ret.
  destruct (next action w) as [[r|e] w1] eqn:N.
  - split; [|split].
    + destruct (Middleware.persist storageService store action w1) as [[u|e] w2];
        reflexivity.
    + discriminate.
    + intros H. now rewrite (MiddlewareFacts.persist_skips store H).
  - split; [reflexivity|]. split; [intros e' w' E; exact E | reflexivity].
Qed.

(** X21: for an action with one of the three persistable types and a storage
    service, the middleware reads the state of the store after [next] has
    returned and stores one object: the action with the state as
    [meta.stateSnapshot].  Every other property of the action and every
    other property of its [meta] is as it was; a [stateSnapshot] the action
    brought is replaced.  A failure to read the state or to store leaves the
    result of [next] as it is. *)
Theorem middleware_stores_the_action_with_the_state :
  forall (Host Result Stored : Type) (service : JSON -> M Host Stored)
         (store : Middleware.ReduxStore Host)
         (next : option JSON -> M Host Result)
         (props : list (jsstring * JSON)) (w w1 : World Host) (r : Result),
    let action := JObject props in
    persistable (Some action) ->
    next (Some action) w = (Returned r, w1) ->
    (match Middleware.read_state store w1 with
     | (Returned snapshot, w2) =>
         Middleware.middleware (Some service) store next (Some action) w
         = (Returned r, snd (service (Middleware.actionWithState action snapshot) w2))
     | (Thrown _, w2) =>
         Middleware.middleware (Some service) store next (Some action) w
         = (Returned r, w2)
     end) /\
    (forall snapshot : JSON,
        let stored := Middleware.actionWithState action snapshot in
        (forall name, name <> js "meta" ->
                      get_property stored name = get_property action name) /\
        (exists meta,
            get_property stored (js "meta") = Some meta /\
            get_property meta (js "stateSnapshot") = Some snapshot /\
            (forall old name,
                get_property action (js "meta") = Some (JObject old) ->
                name <> js "stateSnapshot" ->
                get_property meta name = get_property (JObject old) name))).
Proof.
  intros Host Result Stored service store next props w w1 r action P N.
  subst action. split.
  - destruct P as (props' & text & E & G & Hin). inversion E. subst props'.
    assert (R : Middleware.middleware (Some service) store next (Some (JObject props)) w
                = bind (try_catch
                          (bind (Middleware.read_state store) (fun snapshot =>
                             bind (service (Middleware.actionWithState (JObject props)
                                              snapshot))
                                  (fun _ => ret tt)))
                          (fun _ => ret tt))
                       (fun _ => ret r) w1).
    { unfold Middleware.middleware, bind at 1. rewrite N.
      now rewrite (MiddlewareFacts.persist_runs service store _ G Hin). }
    rewrite R. unfold bind, try_catch, ret.
    destruct (Middleware.read_state store w1) as [[snapshot|e] w2]; [|reflexivity].
    destruct (service (Middleware.actionWithState (JObject props) snapshot) w2)
      as [[s|e] w3]; reflexivity.
  - intros snapshot stored. unfold stored, Middleware.actionWithState.
    cbn [own_properties]. split.
    + intros name Hn. now apply ObjectFacts.get_set_other.
    + eexists. split; [apply ObjectFacts.get_set_same|].
      split; [apply ObjectFacts.get_set_same|].
      intros old name Hm Hn. rewrite Hm. cbn [or_empty_object truthy own_properties].
      now apply ObjectFacts.get_set_other.
Qed.

Lemma middleware_passes_the_action_on_witness :
  Middleware.middleware (Some recording_service) host_store next_identity
    (Some redux_init) host_world
  = (Returned (Some redux_init), host_world).
Proof.
  destruct (@middleware_passes_the_action_on _ _ _ (Some recording_service) host_store
              next_identity (Some redux_init) host_world) as (_ & _ & T).
  apply T. right. intros (props & text & E & G & Hin).
  injection E as <-. cbn in G. injection G as <-.
  cbn [In Middleware.persistable_types] in Hin.
  destruct Hin as [H|[H|[H|[]]]]; discriminate.
Defined.

Lemma middleware_stores_the_action_with_the_state_witness :
  Middleware.middleware (Some recording_service) host_store next_identity
    (Some add_task) host_world
  = (Returned (Some add_task),
     set_store host_world
       [JObject [(js "type", JString (js "todo/addTask"));
                 (js "payload", JObject [(js "id", JString (js "123"))]);
                 (js "meta", JObject [(js "stateSnapshot", host_state)])]]).
Proof.
  assert (P : persistable (Some add_task)).
  { exists [(js "type", JString (js "todo/addTask"));
            (js "payload", JObject [(js "id", JString (js "123"))])],
           (js "todo/addTask").
    split; [reflexivity|]. split; [reflexivity | now left]. }
  destruct (@middleware_stores_the_action_with_the_state _ _ _ recording_service
              host_store next_identity
              [(js "type", JString (js "todo/addTask"));
               (js "payload", JObject [(js "id", JString (js "123"))])]
              host_world host_world (Some add_task) P eq_refl) as (T & _).
  exact T.
Defined.

(** ** The sanitizer of the storage service *)

Module SanitizeFacts.
Import StorageServiceMock.
Local Open Scope Z_scope.

(** Induction on values, with the hypothesis for every element of an array
    and every property of an object. *)
Lemma JSON_induction (P : JSON -> Prop) :
  P JNull -> (forall b, P (JBool b)) -> (forall z, P (JNumber z)) ->
  (forall text, P (JString text)) ->
  (forall elements, Forall P elements -> P (JArray elements)) ->
  (forall props, Forall (fun kv => P (snd kv)) props -> P (JObject props)) ->
  forall v, P v.
Proof.
  intros Hnull Hbool Hnum Hstr Harr Hobj.
  fix IH 1. intros [|b|z|text|elements|props].
  - exact Hnull.
  - apply Hbool.
  - apply Hnum.
  - apply Hstr.
  - apply Harr. induction elements as [|v elements IHl]; constructor.
    + apply IH.
    + exact IHl.
  - apply Hobj. induction props as [|[k v] props IHl]; constructor.
    + apply IH.
    + exact IHl.
Qed.

(** The name of an index begins with a digit. *)
Lemma decimal_digits_head fuel n acc :
  exists d rest,
    decimal_digits (S fuel) n acc = d :: rest /\ 48 <= d <= 57.
Proof.
  revert n acc. induction fuel as [|fuel IH]; intros n acc.
  - cbn [decimal_digits]. exists (48 + n mod 10), acc.
    split; [now destruct (n <? 10)|].
    pose proof (Z.mod_pos_bound n 10 ltac:(lia)). lia.
  - change (decimal_digits (S (S fuel)) n acc)
      with (if n <? 10 then (48 + n mod 10) :: acc
            else decimal_digits (S fuel) (n / 10) ((48 + n mod 10) :: acc)).
    destruct (n <? 10); [|apply IH].
    exists (48 + n mod 10), acc. split; [reflexivity|].
    pose proof (Z.mod_pos_bound n 10 ltac:(lia)). lia.
Qed.

Lemma index_not_sensitive i : sensitive (json_number (Z.of_nat i)) = false.
Proof.
  unfold json_number. destruct (Z.ltb_spec (Z.of_nat i) 0); [lia|].
  rewrite Nat.add_1_r.
  destruct (decimal_digits_head (Z.to_nat (Z.log2 (Z.of_nat i))) (Z.of_nat i) [])
    as (d & rest & -> & Hd).
  unfold sensitive, sensitiveFields. cbn [existsb js list_ascii_of_string map units_eqb].
  repeat match goal with
         | |- context [?a =? d] =>
             destruct (Z.eqb_spec a d); [cbn in *; lia|]
         end.
  reflexivity.
Qed.

Lemma index_properties_not_sensitive elements :
  Forall (fun kv => sensitive (fst kv) = false) (index_properties elements).
Proof.
  unfold index_properties.
  generalize (seq 0 (length elements)). intros indices. revert elements.
  induction indices as [|i indices IH]; intros [|v elements]; cbn [map combine];
    constructor.
  - apply index_not_sensitive.
  - apply IH.
Qed.

(** The sanitizer on an object and on an array. *)
Lemma sanitize_object props :
  sanitizePayload (JObject props)
  = JObject (map (fun kv =>
                    (fst kv,
                     if sensitive (fst kv) then REDACTED
                     else sanitized_value (snd kv)))
                 props).
Proof.
  cbn [sanitizePayload]. apply f_equal.
  induction props as [|[k v] props IH]; [reflexivity|].
  cbn [map fst snd]. rewrite IH. destruct v; reflexivity.
Qed.

Fixpoint each (i : nat) (elements : list JSON) : list (jsstring * JSON) :=
  match elements with
  | [] => []
  | value :: rest =>
      (json_number (Z.of_nat i),
       if sensitive (json_number (Z.of_nat i)) then REDACTED
       else sanitized_value value)
      :: each (S i) rest
  end.

Lemma sanitize_array_each elements :
  sanitizePayload (JArray elements) = JObject (each 0 elements).
Proof.
  cbn [sanitizePayload]. apply f_equal. generalize 0%nat.
  induction elements as [|v elements IH]; intros i; [reflexivity|].
  cbn - [json_number sensitive Z.of_nat sanitizePayload sanitized_value].
  rewrite IH. destruct v; reflexivity.
Qed.

Lemma each_combine i elements :
  each i elements
  = combine (map (fun i => json_number (Z.of_nat i)) (seq i (length elements)))
            (map sanitized_value elements).
Proof.
  revert i. induction elements as [|v elements IH]; intros i; [reflexivity|].
  cbn [each length seq map combine]. now rewrite index_not_sensitive, IH.
Qed.

Lemma sanitize_array elements :
  sanitizePayload (JArray elements)
  = JObject (index_properties (map sanitized_value elements)).
Proof.
  rewrite sanitize_array_each, each_combine. unfold index_properties.
  now rewrite length_map.
Qed.

Lemma sanitize_string text :
  sanitizePayload (JString text)
  = if truthy (JString text)
    then JObject (index_properties (map (fun u => JString [u]) text))
    else JString text.
Proof.
  cbn [sanitizePayload]. destruct (truthy (JString text)); [|reflexivity].
  f_equal. cbn [own_properties].
  pose proof (index_properties_not_sensitive (map (fun u => JString [u]) text)) as N.
  induction N as [|[k v] l Hk _ IH]; [reflexivity|].
  cbn [map fst snd] in *. now rewrite Hk, IH.
Qed.

Lemma no_secret_index_properties elements :
  Forall (fun v => no_secret v = true) elements ->
  no_secret (JObject (index_properties elements)) = true.
Proof.
  intros H. cbn [no_secret]. apply forallb_forall. intros [k v] Hin.
  pose proof (index_properties_not_sensitive elements) as N.
  rewrite Forall_forall in N. specialize (N _ Hin). cbn [fst snd] in *.
  rewrite N. unfold index_properties in Hin. apply in_combine_r in Hin.
  rewrite Forall_forall in H. now apply H.
Qed.

Lemma no_secret_sanitize : forall payload, no_secret (sanitizePayload payload) = true.
Proof.
  assert (V : forall value, no_secret (sanitizePayload value) = true ->
                            no_secret (sanitized_value value) = true).
  { intros value H. destruct value; cbn [sanitized_value]; try reflexivity;
      exact H. }
  apply JSON_induction.
  - reflexivity.
  - intros []; reflexivity.
  - intros z. cbn. now destruct (z =? 0).
  - intros text. rewrite sanitize_string.
    destruct (truthy (JString text)); [|reflexivity].
    apply no_secret_index_properties. apply Forall_forall.
    intros v Hin. apply in_map_iff in Hin. destruct Hin as (u & <- & _). reflexivity.
  - intros elements IH. rewrite sanitize_array.
    apply no_secret_index_properties. apply Forall_forall.
    intros v Hin. apply in_map_iff in Hin. destruct Hin as (x & <- & Hx).
    rewrite Forall_forall in IH. apply V. now apply IH.
  - intros props IH. rewrite sanitize_object. cbn [no_secret].
    apply forallb_forall. intros kv Hin. apply in_map_iff in Hin.
    destruct Hin as ([k v] & <- & Hkv). cbn [fst snd].
    destruct (sensitive k); [reflexivity|].
    rewrite Forall_forall in IH. apply V. exact (IH _ Hkv).
Qed.

Lemma sanitized_value_twice value :
  sanitizePayload (sanitizePayload value) = sanitizePayload value ->
  sanitized_value (sanitized_value value) = sanitized_value value.
Proof.
  intros H. destruct value; cbn [sanitized_value]; try reflexivity.
  - rewrite sanitize_array in *. cbn [sanitized_value]. exact H.
  - rewrite sanitize_object in *. cbn [sanitized_value]. exact H.
Qed.

Lemma map_index_properties (f : JSON -> JSON) elements :
  map (fun kv => (fst kv, if sensitive (fst kv) then REDACTED else f (snd kv)))
      (index_properties elements)
  = index_properties (map f elements).
Proof.
  unfold index_properties. rewrite length_map.
  generalize 0%nat. induction elements as [|v elements IH]; intros i; [reflexivity|].
  cbn [length seq map combine fst snd]. now rewrite index_not_sensitive, IH.
Qed.

Lemma sanitize_twice :
  forall payload,
    sanitizePayload (sanitizePayload payload) = sanitizePayload payload.
Proof.
  apply JSON_induction.
  - reflexivity.
  - intros []; reflexivity.
  - intros z. cbn. destruct (z =? 0) eqn:E; cbn; [now rewrite E | reflexivity].
  - intros text. rewrite sanitize_string.
    destruct (truthy (JString text)) eqn:T; [|now rewrite sanitize_string, T].
    rewrite sanitize_object. f_equal.
    rewrite (map_index_properties sanitized_value). f_equal.
    rewrite map_map. reflexivity.
  - intros elements IH. rewrite sanitize_array, sanitize_object. f_equal.
    rewrite (map_index_properties sanitized_value). f_equal.
    rewrite map_map. apply map_ext_in. intros v Hin.
    rewrite Forall_forall in IH. apply sanitized_value_twice. now apply IH.
  - intros props IH. rewrite !sanitize_object. f_equal.
    rewrite map_map. apply map_ext_in. intros [k v] Hin. cbn [fst snd].
    destruct (sensitive k); [reflexivity|].
    rewrite Forall_forall in IH. f_equal. apply sanitized_value_twice.
    exact (IH _ Hin).
Qed.

Lemma get_sanitized props name :
  get_property (sanitizePayload (JObject props)) name
  = match get_property (JObject props) name with
    | Some value =>
        Some (if sensitive name then REDACTED else sanitized_value value)
    | None => None
    end.
Proof.
  rewrite sanitize_object. cbn [get_property].
  induction props as [|[k v] props IH]; [reflexivity|].
  cbn [map find fst snd].
  destruct (units_eqb k name) eqn:E; [|exact IH].
  apply ObjectFacts.units_eqb_eq in E. subst k. reflexivity.
Qed.

End SanitizeFacts.

(** X22: what [sanitizePayload] returns holds no secret: at every depth, a
    property named password, token, apiKey or secret holds the text
    "[REDACTED]".  Of an object, every property keeps its name and place; a
    sensitive one is redacted whatever it held, an object or an array in
    another is sanitized in turn (an array comes back as an object of its
    indices), and any other value is kept as it is. *)
Theorem sanitizePayload_redacts_every_secret :
  forall payload : JSON,
    no_secret (StorageServiceMock.sanitizePayload payload) = true /\
    (truthy payload = false -> StorageServiceMock.sanitizePayload payload = payload) /\
    (forall props name,
        payload = JObject props ->
        get_property (StorageServiceMock.sanitizePayload payload) name
        = match get_property payload name with
          | Some value =>
              Some (if StorageServiceMock.sensitive name
                    then StorageServiceMock.REDACTED
                    else sanitized_value value)
          | None => None
          end) /\
    (forall elements,
        payload = JArray elements ->
        StorageServiceMock.sanitizePayload payload
        = JObject (index_properties (map sanitized_value elements))).
Proof.
  intros payload. split; [apply SanitizeFacts.no_secret_sanitize|].
  split; [|split].
  - destruct payload as [|b|z|text|elements|props]; cbn [truthy]; try discriminate;
      intros H; cbn [StorageServiceMock.sanitizePayload truthy];
      reflexivity || now rewrite H.
  - intros props name ->. apply SanitizeFacts.get_sanitized.
  - intros elements ->. apply SanitizeFacts.sanitize_array.
Qed.

Lemma sanitizePayload_redacts_every_secret_witness :
  get_property (StorageServiceMock.sanitizePayload login_payload) (js "username")
  = Some (JString (js "testuser")) /\
  get_property (StorageServiceMock.sanitizePayload login_payload) (js "password")
  = Some StorageServiceMock.REDACTED /\
  get_property (StorageServiceMock.sanitizePayload login_payload) (js "profile")
  = Some (JObject [(js "apiKey", StorageServiceMock.REDACTED);
                   (js "name", JString (js "Test User"))]) /\
  StorageServiceMock.sanitizePayload (JNumber 0) = JNumber 0.
Proof.
  destruct (sanitizePayload_redacts_every_secret login_payload) as (_ & _ & T & _).
  destruct (sanitizePayload_redacts_every_secret (JNumber 0)) as (_ & F & _).
  split; [rewrite (T _ (js "username") eq_refl); reflexivity|].
  split; [rewrite (T _ (js "password") eq_refl); reflexivity|].
  split; [rewrite (T _ (js "profile") eq_refl); reflexivity|].
  apply F. reflexivity.
Defined.

(** X23: sanitizing twice is sanitizing once. *)
Theorem sanitizePayload_is_idempotent :
  forall payload : JSON,
    StorageServiceMock.sanitizePayload (StorageServiceMock.sanitizePayload payload)
    = StorageServiceMock.sanitizePayload payload.
Proof. exact SanitizeFacts.sanitize_twice. Qed.
